(** * pubmed_download: discovery, pattern filter, retrying fetch and the
    thread-pool scheduler of [pubmed_downloader.py] and
    [pubmed_downloader_ftp.py], embedded shallowly.

    Python [str] and [bytes] values are [string]s, [int]s are [Z], lists are
    [list]s.  A [string] holds a [bytes] value byte by byte and a [str]
    value character by character, one [ascii] per character: the text of
    the model is the text whose characters have code points below 256, and
    urls, hrefs, file names and patterns with other characters are outside
    it.  Calls into the network, the file system and the logger are
    recorded as [action]s; what the outside world answers is supplied by
    oracles.  Exceptions are the [Raise] case of [result]. *)

From Stdlib Require Import Ascii String ZArith QArith Qminmax Lia Lqa.
From stdpp Require Import base option list strings sorting gmap.

Close Scope Q_scope.
Open Scope string_scope.
Open Scope list_scope.
Open Scope nat_scope.

(** ** Python's [re], for the fragment of patterns used here *)

Module re.

(** A compiled pattern.  [Cls f] consumes one character satisfying [f]; it
    covers literals, [.], [\d] and bracket classes. *)
Inductive pattern : Type :=
| Eps
| Cls (f : ascii → bool)
| Bol
| Eol
| Seq (p q : pattern)
| Alt (p q : pattern)
| Star (p : pattern).

Definition newline : ascii := "010"%char.

Definition Lit (c : ascii) : pattern := Cls (Ascii.eqb c).
Definition Dot : pattern := Cls (λ c, negb (Ascii.eqb c newline)).
(** [\d] on a [str]: the characters of category Nd.  Below code point 256
    these are the ten digits [0] to [9]. *)
Definition is_digit (c : ascii) : bool :=
  let n := nat_of_ascii c in (48 <=? n)%nat && (n <=? 57)%nat.
Definition Digit : pattern := Cls is_digit.
Definition Plus (p : pattern) : pattern := Seq p (Star p).
Definition Opt (p : pattern) : pattern := Alt p Eps.

Fixpoint Rep (n : nat) (p : pattern) : pattern :=
  match n with
  | O => Eps
  | S n' => Seq p (Rep n' p)
  end.

Fixpoint Str (s : string) : pattern :=
  match s with
  | EmptyString => Eps
  | String c s' => Seq (Lit c) (Str s')
  end.

(** [$] without MULTILINE: the end of the string, or just before a newline
    that is the last character. *)
Definition at_eol (s : string) (i : nat) : bool :=
  (i =? String.length s)%nat
  || ((S i =? String.length s)%nat
      && match String.get i s with
         | Some c => Ascii.eqb c newline
         | None => false
         end).

(** Repetition: from [i], zero or more rounds of [f]; a round that consumes
    nothing is not repeated, so [fuel] bounds the rounds by the length. *)
Fixpoint iter_ends (f : nat → list nat) (fuel i : nat) : list nat :=
  match fuel with
  | O => [i]
  | S n =>
      i :: flat_map (λ j, if (i <? j)%nat then iter_ends f n j else []) (f i)
  end.

(** All positions where a match of [p] that starts at [i] can end. *)
Fixpoint ends (p : pattern) (s : string) (i : nat) : list nat :=
  match p with
  | Eps => [i]
  | Cls f =>
      match String.get i s with
      | Some c => if f c then [S i] else []
      | None => []
      end
  | Bol => if (i =? 0)%nat then [i] else []
  | Eol => if at_eol s i then [i] else []
  | Seq p q => flat_map (ends q s) (ends p s i)
  | Alt p q => ends p s i ++ ends q s i
  | Star p => iter_ends (ends p s) (S (String.length s)) i
  end.

Definition nonempty {A} (l : list A) : bool :=
  match l with
  | [] => false
  | _ :: _ => true
  end.

(** Truth value of [re_obj.match(s)]: a match that starts at position 0. *)
Definition match_ (p : pattern) (s : string) : bool := nonempty (ends p s 0).

(** Truth value of [re_obj.fullmatch(s)]: it also ends at the end. *)
Definition fullmatch (p : pattern) (s : string) : bool :=
  bool_decide (String.length s ∈ ends p s 0).

(** Truth value of [re_obj.search(s)]: a match that starts anywhere. *)
Definition search (p : pattern) (s : string) : bool :=
  existsb (λ i, nonempty (ends p s i)) (seq 0 (S (String.length s))).

(** The matches of a pattern inside [s], as a relation on positions. *)
Inductive Matches (s : string) : pattern → nat → nat → Prop :=
| M_eps i : Matches s Eps i i
| M_cls f i c :
    String.get i s = Some c → f c = true → Matches s (Cls f) i (S i)
| M_bol : Matches s Bol 0 0
| M_eol i : at_eol s i = true → Matches s Eol i i
| M_seq p q i j k :
    Matches s p i j → Matches s q j k → Matches s (Seq p q) i k
| M_alt_l p q i j : Matches s p i j → Matches s (Alt p q) i j
| M_alt_r p q i j : Matches s q i j → Matches s (Alt p q) i j
| M_star_nil p i : Matches s (Star p) i i
| M_star_cons p i j k :
    Matches s p i j → Matches s (Star p) j k → Matches s (Star p) i k.

End re.

(** ** [re.compile], for pattern texts of the same fragment

    The pattern a text stands for: a sequence of items, each a character, an
    escaped punctuation character, [\d], [.], [^] or [$], the first four
    optionally followed by [*], [+], [?] or [{n}].  A text with anything else
    in it (groups, brackets, alternatives, other escapes, lazy or stacked
    quantifiers) is outside the fragment and gives [None]. *)

Module re_parse.
Import re.

Definition is_alnum (c : ascii) : bool :=
  let n := nat_of_ascii c in
  ((48 <=? n) && (n <=? 57)) || ((65 <=? n) && (n <=? 90))
  || ((97 <=? n) && (n <=? 122)).

(** The characters with a meaning of their own in a pattern text. *)
Definition is_special (c : ascii) : bool :=
  existsb (Ascii.eqb c) (list_ascii_of_string ".^$*+?{}[]\|()").

Definition starts_quantifier (s : string) : bool :=
  match s with
  | String c _ => existsb (Ascii.eqb c) (list_ascii_of_string "*+?{")
  | EmptyString => false
  end.

(** The item at the head of a text: its pattern, whether a quantifier may
    follow it, and the rest of the text.  A backslash makes the next
    character literal when that is a punctuation character. *)
Definition parse_atom (s : string) : option (pattern * bool * string) :=
  match s with
  | EmptyString => None
  | String c rest =>
      if Ascii.eqb c "\" then
        match rest with
        | EmptyString => None
        | String e rest' =>
            if Ascii.eqb e "d" then Some (Digit, true, rest')
            else if is_alnum e || (128 <=? nat_of_ascii e) then None
            else Some (Lit e, true, rest')
        end
      else if Ascii.eqb c "." then Some (Dot, true, rest)
      else if Ascii.eqb c "^" then Some (Bol, false, rest)
      else if Ascii.eqb c "$" then Some (Eol, false, rest)
      else if is_special c then None
      else Some (Lit c, true, rest)
  end.

(** The decimal number at the head of a text. *)
Fixpoint read_count (acc : nat) (s : string) : nat * string :=
  match s with
  | String c rest =>
      if is_digit c then read_count (10 * acc + (nat_of_ascii c - 48)) rest
      else (acc, s)
  | EmptyString => (acc, s)
  end.

(** [*], [+], [?] or [{n}] after an item, if there is one. *)
Definition parse_quantifier (a : pattern) (s : string) :
  option (pattern * string) :=
  match s with
  | EmptyString => Some (a, s)
  | String c rest =>
      if Ascii.eqb c "*" then Some (Star a, rest)
      else if Ascii.eqb c "+" then Some (Plus a, rest)
      else if Ascii.eqb c "?" then Some (Opt a, rest)
      else if Ascii.eqb c "{" then
        match rest with
        | String d _ =>
            if is_digit d then
              match read_count 0 rest with
              | (n, String e rest') =>
                  if Ascii.eqb e "}" then Some (Rep n a, rest') else None
              | (_, EmptyString) => None
              end
            else None
        | EmptyString => None
        end
      else Some (a, s)
  end.

(** An item with its quantifier; a second quantifier is outside the
    fragment. *)
Definition parse_item (s : string) : option (pattern * string) :=
  match parse_atom s with
  | None => None
  | Some (a, quantifiable, rest) =>
      match (if quantifiable then parse_quantifier a rest else Some (a, rest))
      with
      | None => None
      | Some (a', rest') =>
          if starts_quantifier rest' then None else Some (a', rest')
      end
  end.

Fixpoint parse_seq (fuel : nat) (s : string) : option pattern :=
  match fuel with
  | O => None
  | S fuel' =>
      match s with
      | EmptyString => Some Eps
      | _ =>
          match parse_item s with
          | None => None
          | Some (a, rest) =>
              match parse_seq fuel' rest with
              | None => None
              | Some p => Some (Seq a p)
              end
          end
      end
  end.

(** Every item uses up at least one character, so the length of the text
    is fuel enough. *)
Definition parse (s : string) : option pattern :=
  parse_seq (S (String.length s)) s.

End re_parse.

(** ** Results, log records and the actions a call performs *)

Inductive exn : Set :=
| RequestException   (* requests: connection error or timeout *)
| RetryError         (* tenacity: the attempts are used up *)
| TypeError
| OSError            (* open() refused, e.g. IsADirectoryError *)
| ReError            (* re.error *)
| FTPError           (* ftplib.all_errors *)
| ValueError
| FileNotFoundError.

Inductive result (A : Type) : Type :=
| Return (a : A)
| Raise (e : exn).
Arguments Return {A} a.
Arguments Raise {A} e.

Definition is_raise {A} (r : result A) : bool :=
  match r with
  | Return _ => false
  | Raise _ => true
  end.

Inductive level : Set := DEBUG | INFO | WARNING | ERROR.

(** The values interpolated into an f-string. *)
Inductive arg : Type :=
| AStr (s : string)
| AInt (z : Z)
| ANat (n : nat)
| AList (l : list string).

Inductive ftp_cmd : Type :=
| Connect (host : string)
| Login
| Cwd (dir : string)
| Nlst
| Pwd
| Retr (filename : string)
| Quit.

Inductive printer : Set := Warn | Info | Good.

Inductive action : Type :=
| ALog (lvl : level) (template : string) (args : list arg)
| APrint (kind : printer) (template : string) (args : list arg)
| AGet (url : string) (timeout : option Z)
| ASleep (seconds : Q)
| AFailed (url : string)        (* self.failed_urls.append(url) *)
| AOpen (p : string)            (* open(p, "wb") *)
| AWrite (p : string) (data : string)
| AClose (p : string)
| AFtp (c : ftp_cmd)
| AProgress                     (* progress.update(task, advance=1) *)
| ABasicConfig (filename : string).
    (* logging.basicConfig(filename=...): the root logger gets a handler
       that opens the log file for appending; that this open is refused is
       not modelled *)

Definition is_network (a : action) : bool :=
  match a with
  | AGet _ _ | AFtp _ => true
  | _ => false
  end.

(** Operations on the files that the downloads write. *)
Definition is_file_access (a : action) : bool :=
  match a with
  | AOpen _ | AWrite _ _ | AClose _ => true
  | _ => false
  end.

Definition is_get (a : action) : bool :=
  match a with
  | AGet _ _ => true
  | _ => false
  end.

Definition is_retr (a : action) : bool :=
  match a with
  | AFtp (Retr _) => true
  | _ => false
  end.


(** The files on disk after a sequence of actions: "wb" truncates, each
    write appends. *)
Definition fs_step (fs : gmap string string) (a : action) : gmap string string :=
  match a with
  | AOpen p => <[p := ""]> fs
  | AWrite p data => <[p := default "" (fs !! p) +:+ data]> fs
  | _ => fs
  end.

Definition fs_after (acts : list action) (fs : gmap string string) :
  gmap string string := fold_left fs_step acts fs.

(** The urls appended to [failed_urls] by a sequence of actions. *)
Definition failed_in (acts : list action) : list string :=
  flat_map (λ a, match a with AFailed u => [u] | _ => [] end) acts.

(** ** Strings and paths *)

(** [s.split(sep)] for a one-character separator. *)
Fixpoint split_go (sep : ascii) (cur : string) (s : string) : list string :=
  match s with
  | EmptyString => [cur]
  | String c s' =>
      if Ascii.eqb c sep then cur :: split_go sep "" s'
      else split_go sep (cur +:+ String c "") s'
  end.

Definition split (sep : ascii) (s : string) : list string := split_go sep "" s.

(** [url.split("/")[-1]] *)
Definition basename (url : string) : string := List.last (split "/" url) "".

(** [pathlib.PurePosixPath].  A path is a root and a list of segments.
    [splitroot]: the root of a string is [/] when it starts with slashes,
    [//] when it starts with exactly two. *)
Fixpoint lstrip (c : ascii) (s : string) : string :=
  match s with
  | String a s' => if Ascii.eqb a c then lstrip c s' else s
  | EmptyString => s
  end.

Definition splitroot (part : string) : string :=
  match String.length part - String.length (lstrip "/" part) with
  | 0 => ""
  | 2 => "//"
  | _ => "/"
  end.

(** [parse_parts]: the segments between slashes; empty segments and [.]
    segments are dropped, [..] segments are kept. *)
Definition parse_parts (part : string) : list string :=
  List.filter (λ x, negb (String.eqb x "") && negb (String.eqb x "."))
    (split "/" part).

(** [str(path)]: the root, then the segments joined by slashes; [.] for the
    path without root and segments. *)
Definition format_parsed_parts (root : string) (parts : list string) :
  string :=
  let s := root +:+ String.concat "/" parts in
  if String.eqb s "" then "." else s.

(** [str(Path(path).joinpath(filename))], the name handed to [open]: a
    [filename] that has a root replaces the directory. *)
Definition joinpath (path filename : string) : string :=
  if String.eqb (splitroot filename) ""
  then format_parsed_parts (splitroot path)
         (parse_parts path ++ parse_parts filename)
  else format_parsed_parts (splitroot filename) (parse_parts filename).

(** ** tenacity *)

Module tenacity.

(** [wait_exponential(multiplier, max, exp_base, min)] at an attempt. *)
Definition wait_exponential (multiplier max exp_base min : Q)
    (attempt_number : nat) : Q :=
  let exp := Qpower exp_base (Z.of_nat (attempt_number - 1)) in
  let result := Qmult multiplier exp in
  Qmax (Qmax 0 min) (Qmin result max).

(** [wait_random_exponential]: a value drawn at random below the
    exponential bound, [random.uniform(low, high)], where [low] is [min] in
    recent versions of tenacity and 0 in older ones.  [uniform high] is the
    value drawn. *)
Definition wait_random_exponential (min max : Q) (uniform : Q → Q)
    (attempt_number : nat) : Q :=
  let high := wait_exponential 1 max 2 min attempt_number in
  uniform high.

Definition stop_after_attempt (max_attempt_number attempt_number : nat) :
  bool := (max_attempt_number <=? attempt_number)%nat.

(** [@retry(wait, stop)] around [f]: call, and when the call raises either
    give up with [RetryError] or sleep and call again.  [fuel] bounds the
    unfolding; the last case is not reached when it is large enough. *)
Fixpoint retry {A} (wait : nat → Q) (stop : nat → bool)
    (f : nat → list action * result A) (fuel attempt_number : nat) :
    list action * result A :=
  match fuel with
  | O => ([], Raise RetryError)
  | S fuel' =>
      let '(acts, r) := f attempt_number in
      match r with
      | Return a => (acts, Return a)
      | Raise _ =>
          if stop attempt_number then (acts, Raise RetryError)
          else
            let '(acts', r') := retry wait stop f fuel' (S attempt_number) in
            (acts ++ ASleep (wait attempt_number) :: acts', r')
      end
  end.

End tenacity.

(** The actions of one call of [requestGet_with_backoff]'s body. *)
Definition try_get (url : string) : list action :=
  [ALog DEBUG "Trying to GET {}" [AStr url]; AGet url (Some 2%Z)].

(** The wait after attempt [n], with [rnd n high] the value drawn there. *)
Definition backoff (rnd : nat → Q → Q) (n : nat) : Q :=
  tenacity.wait_random_exponential 3 120 (rnd n) n.

(** What [k] failed attempts starting with attempt [n] leave behind: each
    the call's actions [acts0], then the sleep before the next attempt. *)
Fixpoint failed_attempts (acts0 : list action) (wait : nat → Q) (k n : nat) :
  list action :=
  match k with
  | O => []
  | S k' => acts0 ++ ASleep (wait n) :: failed_attempts acts0 wait k' (S n)
  end.

(** The two records logged once a response is in. *)
Definition response_logs (url : string) (status : Z) : list action :=
  [ALog DEBUG "Response for {} status code: {}" [AStr url; AInt status];
   ALog INFO "Downloaded: {}" [AStr url]].

(** ** concurrent.futures.ThreadPoolExecutor, as used by the two schedulers

    [futures = [executor.submit(fn, x) for x in xs]] followed by
    [for future in as_completed(futures): ...].  A submitted call is a [task]:
    the actions it will perform and what it returns or raises, both fixed by
    the oracles it was built from.  Threads interleave action by action. *)

Module pool.

Record task : Type := Task {
  t_id : nat;                  (* index of the future in [futures] *)
  t_todo : list action;        (* actions not performed yet *)
  t_result : result unit;      (* what the call returns or raises *)
}.

Record state : Type := State {
  max_workers : nat;
  unsubmitted : list task;         (* the comprehension's remaining items *)
  work_queue : list task;          (* executor._work_queue *)
  threads : list (option task);    (* executor._threads; Some = running *)
  idle_semaphore : nat;            (* executor._idle_semaphore *)
  completed : list (nat * result unit);  (* futures, in completion order *)
  yielded : nat;                   (* futures as_completed has yielded *)
  progressbar : bool;
  trace : list action;             (* everything done so far, oldest first *)
}.

Definition init (max_workers : nat) (progressbar : bool)
    (tasks : list task) : state :=
  State max_workers tasks [] [] 0 [] 0 progressbar [].

Inductive choice : Set :=
| Submit              (* main thread: executor.submit of the next item *)
| Worker (w : nat)    (* thread w: take a work item, act, or finish *)
| Yield.              (* main thread: one round of the as_completed loop *)

(** [executor.submit]: queue the work item, then [_adjust_thread_count]:
    use an idle thread if the semaphore says there is one, else start a
    thread unless [max_workers] threads exist. *)
Definition submit (σ : state) : option state :=
  match unsubmitted σ with
  | [] => None
  | t :: ts =>
      let q := work_queue σ ++ [t] in
      match idle_semaphore σ with
      | S n =>
          Some (State (max_workers σ) ts q (threads σ) n (completed σ)
                  (yielded σ) (progressbar σ) (trace σ))
      | O =>
          let ths :=
            if (length (threads σ) <? max_workers σ)%nat
            then threads σ ++ [None] else threads σ in
          Some (State (max_workers σ) ts q ths 0 (completed σ)
                  (yielded σ) (progressbar σ) (trace σ))
      end
  end.

(** [_worker]: an idle thread takes the oldest work item; a running one
    performs its next action, or, with none left, sets the future's result
    or exception and releases the idle semaphore. *)
Definition worker (w : nat) (σ : state) : option state :=
  match threads σ !! w with
  | None => None
  | Some None =>
      match work_queue σ with
      | [] => None
      | t :: q =>
          Some (State (max_workers σ) (unsubmitted σ) q
                  (<[w := Some t]> (threads σ)) (idle_semaphore σ)
                  (completed σ) (yielded σ) (progressbar σ) (trace σ))
      end
  | Some (Some t) =>
      match t_todo t with
      | a :: rest =>
          Some (State (max_workers σ) (unsubmitted σ) (work_queue σ)
                  (<[w := Some (Task (t_id t) rest (t_result t))]> (threads σ))
                  (idle_semaphore σ) (completed σ) (yielded σ)
                  (progressbar σ) (trace σ ++ [a]))
      | [] =>
          Some (State (max_workers σ) (unsubmitted σ) (work_queue σ)
                  (<[w := None]> (threads σ)) (S (idle_semaphore σ))
                  (completed σ ++ [(t_id t, t_result t)]) (yielded σ)
                  (progressbar σ) (trace σ))
      end
  end.

(** One round of [for future in as_completed(futures)]: it starts once all
    items are submitted and consumes one finished future; the body only
    advances the progress bar, the future's result is never read. *)
Definition yield (σ : state) : option state :=
  match unsubmitted σ with
  | _ :: _ => None
  | [] =>
      if (yielded σ <? length (completed σ))%nat
      then Some (State (max_workers σ) [] (work_queue σ) (threads σ)
                   (idle_semaphore σ) (completed σ) (S (yielded σ))
                   (progressbar σ)
                   (trace σ ++ if progressbar σ then [AProgress] else []))
      else None
  end.

Definition step_fn (c : choice) (σ : state) : option state :=
  match c with
  | Submit => submit σ
  | Worker w => worker w σ
  | Yield => yield σ
  end.

Definition step (σ σ' : state) : Prop := ∃ c, step_fn c σ = Some σ'.

(** What a work item leaves in its future. *)
Definition outcome (t : task) : nat * result unit := (t_id t, t_result t).

(** Work items being run right now, and the fetches in flight. *)
Definition running (σ : state) : list task := omap id (threads σ).

Definition in_flight (σ : state) : nat := length (running σ).

(** The loop is over, the executor has shut down. *)
Definition final (σ : state) : bool :=
  bool_decide (unsubmitted σ = [])
  && bool_decide (work_queue σ = [])
  && (in_flight σ =? 0)%nat
  && (yielded σ =? length (completed σ))%nat.

(** Running the pool under a schedule: at step [k] the transition [sched k]
    if it is enabled, else the first enabled one. *)
Definition candidates (σ : state) : list choice :=
  Submit :: Yield :: map Worker (seq 0 (length (threads σ))).

Fixpoint first_enabled (cs : list choice) (σ : state) : option state :=
  match cs with
  | [] => None
  | c :: cs' =>
      match step_fn c σ with
      | Some σ' => Some σ'
      | None => first_enabled cs' σ
      end
  end.

Fixpoint run (sched : nat → choice) (fuel k : nat) (σ : state) : state :=
  match fuel with
  | O => σ
  | S fuel' =>
      match first_enabled (sched k :: candidates σ) σ with
      | Some σ' => run sched fuel' (S k) σ'
      | None => σ
      end
  end.

(** A bound on the number of transitions left. *)
Definition weight (extra : nat) (ts : list task) : nat :=
  sum_list_with (λ t, length (t_todo t) + extra) ts.

Definition measure (σ : state) : nat :=
  (weight 4 (unsubmitted σ) + weight 3 (work_queue σ)
   + weight 2 (running σ) + (length (completed σ) - yielded σ))%nat.

(** The executor never has more threads than [max_workers]. *)
Definition bounded (σ : state) : Prop := length (threads σ) ≤ max_workers σ.

(** Invariant of a pool started on the work items [ts0]: the loop has not
    run ahead of the futures, work is queued only once a thread exists,
    and every item is in exactly one place. *)
Record inv (ts0 : list task) (σ : state) : Prop := Inv {
  inv_workers : 0 < max_workers σ;
  inv_yielded : yielded σ ≤ length (completed σ);
  inv_started : threads σ = [] → idle_semaphore σ = 0 ∧ work_queue σ = [];
  inv_items :
    map outcome (unsubmitted σ ++ work_queue σ ++ running σ) ++ completed σ
    ≡ₚ map outcome ts0;
}.

(** [ThreadPoolExecutor(max_workers) ... ] for a list of calls: submit
    them all, loop over as_completed, shut down. *)
Definition execute (sched : nat → choice) (max_workers : nat)
    (progressbar : bool) (tasks : list task) : state :=
  let σ := init max_workers progressbar tasks in
  run sched (measure σ) 0 σ.

End pool.

(** ** Two small monads

    [T A]: what a call running in a thread does, the actions it performs and
    its result.  [M S A]: the same for a method of an object with fields
    [S]; a raise keeps the fields as they were set so far. *)

Definition T (A : Type) : Type := list action * result A.

Definition t_ret {A} (a : A) : T A := ([], Return a).

Definition t_bind {A B} (k : A → T B) (m : T A) : T B :=
  match m with
  | (acts, Raise e) => (acts, Raise e)
  | (acts, Return a) => let '(acts', r) := k a in (acts ++ acts', r)
  end.

#[global] Instance T_ret : MRet T := @t_ret.
#[global] Instance T_bind : MBind T := @t_bind.

Definition perform (a : action) : T unit := ([a], Return tt).
Definition raise {A} (e : exn) : T A := ([], Raise e).

(** A call into the outside world: the action, then the world's answer. *)
Definition ask {A} (a : action) (answer : result A) : T A := ([a], answer).

(** [try: body except: handler] with a bare [except]. *)
Definition try_except {A} (body : T A) (handler : T A) : T A :=
  match body with
  | (acts, Raise _) => let '(acts', r) := handler in (acts ++ acts', r)
  | (acts, Return a) => (acts, Return a)
  end.

(** [try: body finally: cleanup], as the exit of a [with] block. *)
Definition finally {A} (body : T A) (cleanup : list action) : T A :=
  let '(acts, r) := body in (acts ++ cleanup, r).

(** [with open(file, "wb") as f: body]: nothing is created when the open is
    refused; otherwise the file is closed however the body ends. *)
Definition with_open {A} (os_open : string → result unit) (file : string)
    (body : T A) : T A :=
  match os_open file with
  | Raise e => raise e
  | Return _ => t_bind (λ _, finally body [AClose file]) (perform (AOpen file))
  end.

Definition logging (lvl : level) (template : string) (args : list arg) :
  T unit := perform (ALog lvl template args).

Definition M (S A : Type) : Type := S → S * T A.

Definition m_ret {S A} (a : A) : M S A := λ s, (s, t_ret a).

Definition m_bind {S A B} (k : A → M S B) (m : M S A) : M S B :=
  λ s,
    match m s with
    | (s1, (acts, Raise e)) => (s1, (acts, Raise e))
    | (s1, (acts, Return a)) =>
        let '(s2, (acts', r)) := k a s1 in (s2, (acts ++ acts', r))
    end.

#[global] Instance M_ret {S} : MRet (M S) := @m_ret S.
#[global] Instance M_bind {S} : MBind (M S) := @m_bind S.

Definition lift {S A} (m : T A) : M S A := λ s, (s, m).
Definition modify {S} (f : S → S) : M S unit := λ s, (f s, t_ret tt).
Definition gets {S A} (f : S → A) : M S A := λ s, (s, t_ret (f s)).

(** The advisory check on the number of threads in both [main]s. *)
Definition warn_threads (threads : Z) : T unit :=
  if (10 <? threads)%Z then
    perform (APrint Warn
      "{} threads will be used for concurrent downloading. Using a high number of threads may get your ip blacklisted!"
      [AInt threads])
  else mret tt.

Record response : Type := Response {
  status_code : Z;
  content : string;
}.

(** ** pubmed_downloader.py *)

Module PubmedDownloader.

(** The instance fields.  [_links] holds the anchor tags found on the
    page, each by the text of its href attribute. *)
Record t : Type := Self {
  _links : list string;
  all_urls : list string;
  filtered_urls : list string;
  failed_urls : list string;
  start_url : string;
  reg_ex : option string;
}.

Definition __init__ : t := Self [] [] [] [] "" None.

Definition set_start_url (v : string) (self : t) : t :=
  Self (_links self) (all_urls self) (filtered_urls self)
    (failed_urls self) v (reg_ex self).
Definition set_links (v : list string) (self : t) : t :=
  Self v (all_urls self) (filtered_urls self) (failed_urls self)
    (start_url self) (reg_ex self).
Definition set_all_urls (v : list string) (self : t) : t :=
  Self (_links self) v (filtered_urls self) (failed_urls self)
    (start_url self) (reg_ex self).
Definition set_filtered_urls (v : list string) (self : t) : t :=
  Self (_links self) (all_urls self) v (failed_urls self)
    (start_url self) (reg_ex self).
Definition set_failed_urls (v : list string) (self : t) : t :=
  Self (_links self) (all_urls self) (filtered_urls self) v
    (start_url self) (reg_ex self).
Definition set_reg_ex (v : string) (self : t) : t :=
  Self (_links self) (all_urls self) (filtered_urls self)
    (failed_urls self) (start_url self) (Some v).

(** What the outside world answers during one run. *)
Record world : Type := World {
  isdir : string → bool;                   (* os.path.isdir *)
  get_page : string → result response;     (* requests.get(start_url) *)
  get_item : nat → nat → result response;
    (* requests.get in the i-th future, at its n-th attempt *)
  random : nat → nat → Q → Q;
    (* random.uniform(_, high) in the i-th future, after its n-th attempt *)
  os_open : string → result unit;          (* does open(p, "wb") succeed *)
  sched : nat → pool.choice;               (* how the threads interleave *)
}.

Section Methods.

(** Library functions the module calls. *)
Variable urljoin : string → string → string.
(** [BeautifulSoup(content, "html.parser").find_all("a", href=True)],
    each tag by its href. *)
Variable find_all_a_href : string → list string.
(** [re.compile]; [None] when it raises [re.error]. *)
Variable compile : string → option re.pattern.

Definition find_urls (get : string → result response)
    (starting_url : string) : M t unit :=
  modify (set_start_url starting_url) ;;
  response ← lift (ask (AGet starting_url None) (get starting_url)) ;
  if negb (status_code response =? 200)%Z then
    lift (logging ERROR "" [])
  else
    let links := find_all_a_href (content response) in
    modify (set_links links) ;;
    modify (λ self,
      set_all_urls (map (urljoin (start_url self)) (_links self)) self) ;;
    self ← gets id ;
    lift (logging INFO "Found {} urls on {}"
            [ANat (length (all_urls self)); AStr (start_url self)]) ;;
    lift (logging DEBUG "All urls:   {}" [AList (all_urls self)]).

Definition filter_urls (reg_ex : string) : M t unit :=
  modify (set_reg_ex reg_ex) ;;
  re_obj ← lift (match compile reg_ex with
                 | Some p => t_ret p
                 | None => raise ReError
                 end) ;
  modify (λ self,
    set_filtered_urls
      (map (urljoin (start_url self))
         (List.filter (λ href, re.match_ re_obj href) (_links self)))
      self) ;;
  self ← gets id ;
  lift (logging INFO "filtered {} urls on {} using regular expression: {}"
          [ANat (length (filtered_urls self)); AStr (start_url self);
           AStr reg_ex]) ;;
  lift (logging DEBUG "filtered urls:    {}" [AList (filtered_urls self)]).

(** [requestGet_with_backoff(url=url, timeout=2)] under
    [@retry(wait=wait_random_exponential(min=3, max=120),
            stop=stop_after_attempt(6))]. *)
Definition requestGet_with_backoff (get : nat → result response)
    (rnd : nat → Q → Q) (url : string) (timeout : Z) : T response :=
  tenacity.retry
    (λ n, tenacity.wait_random_exponential 3 120 (rnd n) n)
    (tenacity.stop_after_attempt 6)
    (λ n,
       logging DEBUG "Trying to GET {}" [AStr url] ;;
       ask (AGet url (Some timeout)) (get n))
    6 1.

Definition download_file (get : nat → result response) (rnd : nat → Q → Q)
    (os_open : string → result unit) (url path : string) : T unit :=
  r ← try_except
        (response ← requestGet_with_backoff get rnd url 2 ;
         logging DEBUG "Response for {} status code: {}"
           [AStr url; AInt (status_code response)] ;;
         mret (Some response))
        (logging WARNING "No response for {} within timeout." [AStr url] ;;
         perform (AFailed url) ;;
         mret None) ;
  match r with
  | None => mret tt
  | Some response =>
      let filename := basename url in
      let content := content response in
      logging INFO "Downloaded: {}" [AStr url] ;;
      let file := joinpath path filename in
      with_open os_open file (perform (AWrite file content)) ;;
      (* path + "/" + filename with path a Path: no such operator *)
      raise TypeError
  end.

Definition tasks (w : world) (urls : list string) (path : string) :
  list pool.task :=
  imap (λ i url,
          let '(acts, r) :=
            download_file (get_item w i) (random w i) (os_open w) url path
          in pool.Task i acts r)
       urls.

(** An omitted keyword argument is [None] and takes its default:
    [threads: int = 3], [progressbar: bool = False]. *)
Definition download_urls (w : world) (path : string)
    (threads_arg : option Z) (progressbar_arg : option bool) : M t unit :=
  let threads := default 3%Z threads_arg in
  let progressbar := default false progressbar_arg in
  self ← gets id ;
  match filtered_urls self with
  | [] => lift (logging WARNING "No URLs to download" [])
  | _ :: _ =>
      lift (logging INFO "Starting download of {} urls"
              [ANat (length (filtered_urls self))]) ;;
      (* ThreadPoolExecutor(max_workers=threads) *)
      (if (threads <=? 0)%Z then lift (raise ValueError) else mret tt) ;;
      let σ := pool.execute (sched w) (Z.to_nat threads) progressbar
                 (tasks w (filtered_urls self) path) in
      modify (λ self,
        set_failed_urls
          (failed_urls self ++ failed_in (pool.trace σ)) self) ;;
      lift (pool.trace σ, Return tt) ;;
      lift (logging INFO "Download finished" [])
  end.

Definition main (w : world) (path url reg_ex : string)
    (threads_arg : option Z) : t * T unit :=
  let threads := default 3%Z threads_arg in
  (lift (perform (ABasicConfig "pubmed_downloader.log")) ;;
   (if negb (isdir w path) then lift (raise FileNotFoundError)
    else mret tt) ;;
   lift (warn_threads threads) ;;
   find_urls (get_page w) url ;;
   filter_urls reg_ex ;;
   downloader ← gets id ;
   lift (perform (APrint Info "Found {} on starting url, {} left after filtering"
           [ANat (length (all_urls downloader));
            ANat (length (filtered_urls downloader))])) ;;
   download_urls w path (Some threads) (Some true) ;;
   lift (perform (APrint Good "Download finished in {}" [])))
  __init__.

End Methods.

End PubmedDownloader.

(** ** pubmed_downloader_ftp.py *)

Module FTPDownloader.

Record t : Type := Self {
  _host : string;
  cwd : option string;
  all_fileNames : list string;
  filtered_fileNames : list string;
  download_dir : string;
  reg_ex : option string;
}.

Definition __init__ (host : string) : t := Self host None [] [] "" None.

Definition set_cwd (v : string) (self : t) : t :=
  Self (_host self) (Some v) (all_fileNames self) (filtered_fileNames self)
    (download_dir self) (reg_ex self).
Definition set_all_fileNames (v : list string) (self : t) : t :=
  Self (_host self) (cwd self) v (filtered_fileNames self)
    (download_dir self) (reg_ex self).
Definition set_filtered_fileNames (v : list string) (self : t) : t :=
  Self (_host self) (cwd self) (all_fileNames self) v
    (download_dir self) (reg_ex self).
Definition set_dir (v : string) (self : t) : t :=
  Self (_host self) (cwd self) (all_fileNames self)
    (filtered_fileNames self) v (reg_ex self).
Definition set_reg_ex (v : string) (self : t) : t :=
  Self (_host self) (cwd self) (all_fileNames self)
    (filtered_fileNames self) (download_dir self) (Some v).

(** What the server answers during one FTP session. *)
Record session : Type := Session {
  connect : result unit;                   (* FTP(host) *)
  login : result unit;
  chdir : string → result unit;            (* ftp_client.cwd(dir) *)
  nlst : result (list string);
  pwd : result string;
  retr : string → list string * result unit;
    (* the blocks handed to the callback, then how RETR ends *)
}.

Record world : Type := World {
  isdir : string → bool;
  listing : session;                       (* the session of find_files *)
  transfer : nat → session;                (* the session of the i-th future *)
  os_open : string → result unit;
  sched : nat → pool.choice;
}.

(** [sorted(names)]: Python compares strings by code point. *)
Definition sorted (names : list string) : list string :=
  merge_sort String.le names.

(** [with FTP(host) as ftp_client: body]: leaving the block sends QUIT and
    closes the connection, however the body ends. *)
Definition with_FTP {A} (s : session) (host : string)
    (body : M t A) : M t A :=
  lift (ask (AFtp (Connect host)) (connect s)) ;;
  ((λ self, let '(self', m) := body self in (self', finally m [AFtp Quit]))
     : M t A).

(** [ftp_client.cwd(self.cwd)]: with [self.cwd] still [None] the command
    string cannot be built. *)
Definition ftp_cwd (s : session) (dir : option string) : T unit :=
  match dir with
  | None => raise TypeError
  | Some d => ask (AFtp (Cwd d)) (chdir s d)
  end.

Section Methods.

Variable compile : string → option re.pattern.

Definition set_download_dir (isdir : string → bool) (path : string) :
  M t unit :=
  if negb (isdir path) then lift (raise FileNotFoundError)
  else modify (set_dir path).

Definition find_files (s : session) (starting_dir : string) : M t unit :=
  modify (set_cwd starting_dir) ;;
  host ← gets _host ;
  with_FTP s host
    (lift (ask (AFtp Login) (login s)) ;;
     dir ← gets cwd ;
     lift (ftp_cwd s dir) ;;
     names ← lift (ask (AFtp Nlst) (nlst s)) ;
     modify (set_all_fileNames (sorted names))) ;;
  self ← gets id ;
  lift (logging INFO "Found {} files in {}"
          [ANat (length (all_fileNames self)); AStr (_host self)]) ;;
  lift (logging DEBUG "All files:   {}" [AList (all_fileNames self)]).

Definition filter_files (reg_ex : string) : M t unit :=
  modify (set_reg_ex reg_ex) ;;
  re_obj ← lift (match compile reg_ex with
                 | Some p => t_ret p
                 | None => raise ReError
                 end) ;
  modify (λ self,
    set_filtered_fileNames
      (List.filter (λ fileName, re.match_ re_obj fileName)
         (all_fileNames self))
      self) ;;
  self ← gets id ;
  lift (logging INFO "filtered {} files on {} using regular expression: {}"
          [ANat (length (filtered_fileNames self)); AStr (_host self);
           AStr reg_ex]) ;;
  lift (logging DEBUG "filtered files:    {}"
          [AList (filtered_fileNames self)]).

(** [ftp_client.retrbinary("RETR " + filename, file.write)] *)
Definition retrbinary (s : session) (filename file : string) : T unit :=
  let '(blocks, r) := retr s filename in
  (AFtp (Retr filename) :: map (AWrite file) blocks, r).

(** [ftp_client.host + ftp_client.pwd()] *)
Definition host_pwd (s : session) (host : string) : T string :=
  dir ← ask (AFtp Pwd) (pwd s) ; mret (host +:+ dir).

Definition download_file (s : session) (os_open : string → result unit)
    (filename : string) : M t unit :=
  host ← gets _host ;
  with_FTP s host
    (lift (ask (AFtp Login) (login s)) ;;
     dir ← gets cwd ;
     lift (ftp_cwd s dir) ;;
     download_dir ← gets download_dir ;
     let file := joinpath download_dir filename in
     lift (with_open os_open file
       (origin ← host_pwd s host ;
        logging INFO "Downloading {} from {}" [AStr filename; AStr origin] ;;
        retrbinary s filename file ;;
        origin ← host_pwd s host ;
        logging INFO "Retrieved {} from {}" [AStr filename; AStr origin]))).

Definition tasks (w : world) (self : t) : list pool.task :=
  imap (λ i fileName,
          let '(acts, r) :=
            (download_file (transfer w i) (os_open w) fileName self).2
          in pool.Task i acts r)
       (filtered_fileNames self).

Definition download_files (w : world) (threads_arg : option Z)
    (progressbar_arg : option bool) : M t unit :=
  let threads := default 3%Z threads_arg in
  let progressbar := default false progressbar_arg in
  self ← gets id ;
  match filtered_fileNames self with
  | [] => lift (logging WARNING "No files to download" [])
  | _ :: _ =>
      lift (logging INFO "Starting download of {} files"
              [ANat (length (filtered_fileNames self))]) ;;
      (if (threads <=? 0)%Z then lift (raise ValueError) else mret tt) ;;
      let σ := pool.execute (sched w) (Z.to_nat threads) progressbar
                 (tasks w self) in
      lift (pool.trace σ, Return tt) ;;
      lift (logging INFO "Download finished" [])
  end.

Definition main (w : world) (path host host_wd reg_ex : string)
    (threads_arg : option Z) : t * T unit :=
  let threads := default 3%Z threads_arg in
  (lift (perform (ABasicConfig "pubmed_downloader.log")) ;;
   (if negb (isdir w path) then lift (raise FileNotFoundError)
    else mret tt) ;;
   lift (warn_threads threads) ;;
   set_download_dir (isdir w) path ;;
   find_files (listing w) host_wd ;;
   filter_files reg_ex ;;
   downloader ← gets id ;
   lift (perform (APrint Info
           "Found {} files in current working directory, {} left after filtering"
           [ANat (length (all_fileNames downloader));
            ANat (length (filtered_fileNames downloader))])) ;;
   download_files w (Some threads) (Some true) ;;
   lift (perform (APrint Good "Download finished in {}" [])))
  (__init__ host).

End Methods.

End FTPDownloader.

(** ** More views of an action list *)

(** Actions that change what a file holds. *)
Definition changes_file (a : action) : bool :=
  match a with
  | AOpen _ | AWrite _ _ => true
  | _ => false
  end.

Definition is_log (a : action) : bool :=
  match a with
  | ALog _ _ _ => true
  | _ => false
  end.

(** A record of how an item ended: an entry added to [failed_urls], or a
    file created for it. *)
Definition is_record (a : action) : bool :=
  match a with
  | AFailed _ | AOpen _ => true
  | _ => false
  end.

(** A log record at WARNING or ERROR level. *)
Definition is_alarm (a : action) : bool :=
  match a with
  | ALog WARNING _ _ | ALog ERROR _ _ => true
  | _ => false
  end.

(** ** Inputs for the examples *)

(** [urljoin] for a base ending in [/] and a relative href. *)
Definition join_after (base href : string) : string := base +:+ href.

(** A page without anchors. *)
Definition no_links (page : string) : list string := [].

(** [re.compile] on the patterns the examples use. *)
Definition only_a (reg_ex : string) : option re.pattern :=
  if String.eqb reg_ex "a" then Some (re.Lit "a") else None.

Definition any_pattern (reg_ex : string) : option re.pattern :=
  if String.eqb reg_ex ".*" then Some (re.Star re.Dot) else None.

(** [^.*\.xml\.gz$] *)
Definition xml_gz : re.pattern :=
  re.Seq re.Bol (re.Seq (re.Star re.Dot) (re.Seq (re.Str ".xml.gz") re.Eol)).

(** [pubmed23n\d{4}\.xml\.gz$], the FTP variant's default. *)
Definition pubmed23n : re.pattern :=
  re.Seq (re.Str "pubmed23n")
    (re.Seq (re.Rep 4 re.Digit) (re.Seq (re.Str ".xml.gz") re.Eol)).

Definition scenario_patterns (reg_ex : string) : option re.pattern :=
  if String.eqb reg_ex "^.*\.xml\.gz$" then Some xml_gz
  else if String.eqb reg_ex "pubmed23n\d{4}\.xml\.gz$" then Some pubmed23n
  else None.

(** Requests that never get through, and requests answered at attempt [k]. *)
Definition never_responds : nat → result response :=
  λ _, Raise RequestException.

Definition responds_at (k : nat) (resp : response) : nat → result response :=
  λ n, if n <? k then Raise RequestException else Return resp.

(** A random source that always draws the middle of [0, high]. *)
Definition half : nat → Q → Q := λ _ high, Qmult high (1 # 2).

Definition open_ok : string → result unit := λ _, Return tt.

(** An FTP server that lists [names]. *)
Definition listing_session (names : list string) : FTPDownloader.session :=
  FTPDownloader.Session (Return tt) (Return tt) (λ _, Return tt)
    (Return names) (Return "/pubmed/baseline")
    (λ _, ([], Return tt)).

(** An FTP server whose transfers break off after [blocks]. *)
Definition failing_transfer (blocks : list string) : FTPDownloader.session :=
  FTPDownloader.Session (Return tt) (Return tt) (λ _, Return tt) (Return [])
    (Return "/pubmed/baseline") (λ _, (blocks, Raise FTPError)).

(** An FTP server that refuses the login. *)
Definition login_refused : FTPDownloader.session :=
  FTPDownloader.Session (Return tt) (Raise FTPError) (λ _, Return tt)
    (Return []) (Return "/") (λ _, ([], Return tt)).

(** An FTP downloader after discovery and filtering, one file to fetch. *)
Definition ftp_self : FTPDownloader.t :=
  FTPDownloader.Self "h" (Some "/pubmed/baseline/") ["f.gz"] ["f.gz"] "out" None.

Definition http_world (page : result response)
    (item : nat → nat → result response) : PubmedDownloader.world :=
  PubmedDownloader.World (λ _, true) (λ _, page) item (λ _, half)
    (λ _, Return tt) (λ _, pool.Submit).

Definition ftp_world (listing : FTPDownloader.session)
    (transfer : nat → FTPDownloader.session) : FTPDownloader.world :=
  FTPDownloader.World (λ _, true) listing transfer (λ _, Return tt)
    (λ _, pool.Submit).

(** An HTML downloader after discovery and filtering, two urls to fetch. *)
Definition two_urls : PubmedDownloader.t :=
  PubmedDownloader.Self ["a.xml.gz"; "b.xml.gz"]
    ["http://h/a.xml.gz"; "http://h/b.xml.gz"]
    ["http://h/a.xml.gz"; "http://h/b.xml.gz"] [] "http://h/" (Some ".*").

(** The first item's requests all raise, the second's are answered. *)
Definition first_item_fails : PubmedDownloader.world :=
  http_world (Return (Response 200 ""))
    (λ i _, if i =? 0 then Raise RequestException
            else Return (Response 200 "body")).

(** A world in which every url is answered and no file can be opened. *)
Definition nothing_writable : PubmedDownloader.world :=
  PubmedDownloader.World (λ _, true) (λ _, Return (Response 200 ""))
    (λ _ _, Return (Response 200 "body")) (λ _, half)
    (λ _, Raise OSError) (λ _, pool.Submit).

(** ** More views and inputs *)

(** Does the character occur in the string. *)
Fixpoint has_char (c : ascii) (s : string) : bool :=
  match s with
  | EmptyString => false
  | String a s' => Ascii.eqb a c || has_char c s'
  end.

Definition is_connect (a : action) : bool :=
  match a with
  | AFtp (Connect _) => true
  | _ => false
  end.

Definition is_quit (a : action) : bool :=
  match a with
  | AFtp Quit => true
  | _ => false
  end.


(** An FTP server whose transfers deliver [blocks] and complete. *)
Definition serving (blocks : list string) : FTPDownloader.session :=
  FTPDownloader.Session (Return tt) (Return tt) (λ _, Return tt) (Return [])
    (Return "/pubmed/baseline") (λ _, (blocks, Return tt)).

Definition is_progress (a : action) : bool :=
  match a with
  | AProgress => true
  | _ => false
  end.

(** Do the six attempts of a request all raise. *)
Definition exhausted (get : nat → result response) : bool :=
  forallb (λ n, is_raise (get n)) (seq 1 6).

(** The urls among [urls] whose fetches find no response: the i-th url
    counts when the requests of the i-th future all raise. *)
Definition exhausted_urls (w : PubmedDownloader.world) (urls : list string) :
  list string :=
  concat (imap (λ i url, if exhausted (PubmedDownloader.get_item w i)
                         then [url] else []) urls).

(** A parser that finds two links on the page "first" and none elsewhere,
    and a server that knows only "http://h/". *)
Definition page_links (page : string) : list string :=
  if String.eqb page "first" then ["a"; "b"] else [].

Definition first_page_only (url : string) : result response :=
  if String.eqb url "http://h/" then Return (Response 200 "first")
  else Return (Response 404 "").

(** Is the action an operation on the file [file]. *)
Definition touches (file : string) (a : action) : bool :=
  match a with
  | AOpen p | AWrite p _ | AClose p => String.eqb p file
  | _ => false
  end.

(** The work items of a pool that are not finished yet. *)
Definition pending (σ : pool.state) : list pool.task :=
  pool.unsubmitted σ ++ pool.work_queue σ ++ pool.running σ.

(** The actions selected by [q] that the work items [ts] still have to do,
    and the number of work items that have any. *)
Definition part (q : action → bool) (ts : list pool.task) : list action :=
  flat_map (λ t, List.filter q (pool.t_todo t)) ts.

Definition busy (q : action → bool) (ts : list pool.task) : nat :=
  length (List.filter
            (λ t, match List.filter q (pool.t_todo t) with
                  | [] => false
                  | _ :: _ => true
                  end) ts).

(** Patterns without [^]. *)
Fixpoint no_bol (p : re.pattern) : bool :=
  match p with
  | re.Bol => false
  | re.Seq p q | re.Alt p q => no_bol p && no_bol q
  | re.Star p => no_bol p
  | _ => true
  end.

(** The default of [reg_ex] in the FTP program's [main], and the pattern
    it stands for. *)
Definition default_reg_ex : string := "pubmed23n\d{4}\.xml\.gz$".

Definition default_pattern : re.pattern :=
  fold_right re.Seq re.Eps
    (map re.Lit (list_ascii_of_string "pubmed23n")
     ++ [re.Rep 4 re.Digit]
     ++ map re.Lit (list_ascii_of_string ".xml.gz")
     ++ [re.Eol]).

(** Text in ASCII. *)
Definition is_ascii (s : string) : bool :=
  forallb (λ c, nat_of_ascii c <? 128) (list_ascii_of_string s).

(** The names of the form pubmed23nDDDD.xml.gz, with or without a final
    newline. *)
Definition baseline_name (name : string) : Prop :=
  ∃ d1 d2 d3 d4 tail,
    re.is_digit d1 = true ∧ re.is_digit d2 = true
    ∧ re.is_digit d3 = true ∧ re.is_digit d4 = true
    ∧ (tail = "" ∨ tail = String re.newline "")
    ∧ name = "pubmed23n"
             +:+ String d1 (String d2 (String d3 (String d4 (".xml.gz" +:+ tail)))).

(** * Facts *)

(** ** The matcher against the match relation *)

Module re_facts.
Import re.

Lemma get_lt (s : string) : ∀ i c, String.get i s = Some c → i < String.length s.
Proof.
  induction s as [|a s IH]; intros [|i] c H; simpl in *; try discriminate.
  - lia.
  - apply IH in H. lia.
Qed.

(** A match moves forward and, unless empty, stays inside the string. *)
Lemma Matches_bounds s p i j :
  Matches s p i j → i ≤ j ∧ (j ≤ String.length s ∨ j = i).
Proof.
  induction 1;
    try match goal with
        | H : String.get _ _ = Some _ |- _ => apply get_lt in H
        end; lia.
Qed.

Lemma iter_ends_sound s p (f : nat → list nat) :
  (∀ i j, In j (f i) → Matches s p i j) →
  ∀ n i k, In k (iter_ends f n i) → Matches s (Star p) i k.
Proof.
  intros Hf. induction n as [|n IH]; intros i k; simpl.
  - intros [<- | []]. constructor.
  - intros [<- | Hin]; [constructor |].
    apply in_flat_map in Hin as (j & Hj & Hk).
    destruct (i <? j); [| destruct Hk].
    eapply M_star_cons; eauto.
Qed.

Lemma ends_sound s p : ∀ i j, In j (ends p s i) → Matches s p i j.
Proof.
  induction p as [ | f | | | p IHp q IHq | p IHp q IHq | p IHp ];
    intros i j; simpl.
  - intros [<- | []]. constructor.
  - destruct (String.get i s) as [c|] eqn:Hget; [| intros []].
    destruct (f c) eqn:Hf; [| intros []].
    intros [<- | []]. econstructor; eauto.
  - destruct (Nat.eqb_spec i 0) as [-> |]; [| intros []].
    intros [<- | []]. constructor.
  - destruct (at_eol s i) eqn:He; [| intros []].
    intros [<- | []]. by constructor.
  - intros Hin. apply in_flat_map in Hin as (m & Hm & Hj).
    econstructor; eauto.
  - intros Hin. apply in_app_iff in Hin as [Hin | Hin].
    + apply M_alt_l; auto.
    + apply M_alt_r; auto.
  - intros Hin.
    exact (iter_ends_sound s p (ends p s) IHp (S (String.length s)) i j Hin).
Qed.

Lemma iter_ends_here f n i : In i (iter_ends f n i).
Proof. destruct n; simpl; auto. Qed.

(** With enough fuel the repetition finds every end of a starred match. *)
Lemma iter_ends_complete s p (f : nat → list nat) :
  (∀ i j, Matches s p i j → In j (f i)) →
  ∀ q i k, Matches s q i k → q = Star p →
  ∀ n, String.length s < n + i → In k (iter_ends f n i).
Proof.
  intros Hf q i k HM.
  induction HM as [ | | | | | | | p' i | p' i j k H1 _ H2 IH2 ];
    intros Heq n Hn; try discriminate.
  - apply iter_ends_here.
  - injection Heq as ->.
    destruct (Matches_bounds _ _ _ _ H1) as [Hij Hj].
    destruct (Nat.eq_dec j i) as [-> | Hne]; [by apply IH2 |].
    destruct n as [|n].
    + (* no fuel means [i] is past the end: the round was empty *)
      destruct Hj; [lia | congruence].
    + simpl. right. apply in_flat_map. exists j. split; [by apply Hf |].
      destruct (Nat.ltb_spec i j); [| lia].
      apply IH2; [done | lia].
Qed.

Lemma ends_complete s p : ∀ i j, Matches s p i j → In j (ends p s i).
Proof.
  induction p as [ | f | | | p IHp q IHq | p IHp q IHq | p IHp ];
    intros i j HM; simpl.
  - inversion HM; subst. by left.
  - inversion HM as [ | f' i' c Hget Hf | | | | | | | ]; subst.
    rewrite Hget, Hf. by left.
  - inversion HM; subst. by left.
  - inversion HM as [ | | | i' He | | | | | ]; subst. rewrite He. by left.
  - inversion HM as [ | | | | p' q' i' m k' H1 H2 | | | | ]; subst.
    apply in_flat_map. exists m. split; auto.
  - apply in_app_iff.
    inversion HM; subst; [left | right]; auto.
  - apply (iter_ends_complete s p (ends p s) IHp _ i j HM eq_refl
             (S (String.length s))). lia.
Qed.

Lemma ends_spec s p i j : In j (ends p s i) ↔ Matches s p i j.
Proof. split; [apply ends_sound | apply ends_complete]. Qed.

Lemma nonempty_In {A} (l : list A) : nonempty l = true ↔ ∃ x, In x l.
Proof.
  destruct l as [|x l]; simpl; split; try done.
  - intros [? []].
  - intros _. exists x. by left.
Qed.

(** [match] is prefix-anchored: it asks for a match starting at position 0
    and ending anywhere. *)
Lemma match_spec p s : match_ p s = true ↔ ∃ j, Matches s p 0 j.
Proof.
  unfold match_. rewrite nonempty_In.
  split; intros [j Hj]; exists j; by apply ends_spec.
Qed.

Lemma fullmatch_spec p s :
  fullmatch p s = true ↔ Matches s p 0 (String.length s).
Proof.
  unfold fullmatch. rewrite bool_decide_eq_true, list_elem_of_In.
  apply ends_spec.
Qed.

Lemma search_spec p s :
  search p s = true ↔ ∃ i j, i ≤ String.length s ∧ Matches s p i j.
Proof.
  unfold search. rewrite existsb_exists. split.
  - intros (i & Hi & Hne). apply in_seq in Hi.
    apply nonempty_In in Hne as [j Hj]. exists i, j.
    split; [lia | by apply ends_spec].
  - intros (i & j & Hi & HM). exists i. split; [apply in_seq; lia |].
    apply nonempty_In. exists j. by apply ends_spec.
Qed.

End re_facts.

(** ** The thread pool: invariants, progress and termination *)

Module pool_facts.
Import pool.

Lemma running_lookup (ths : list (option task)) w o :
  ths !! w = Some o →
  omap id ths
  = omap id (take w ths) ++ option_list o ++ omap id (drop (S w) ths).
Proof.
  intros H. rewrite <- (take_drop_middle ths w o H) at 1.
  rewrite omap_app. simpl. by destruct o.
Qed.

Lemma running_insert (ths : list (option task)) w o o' :
  ths !! w = Some o →
  omap id (<[w := o']> ths)
  = omap id (take w ths) ++ option_list o' ++ omap id (drop (S w) ths).
Proof.
  intros H. rewrite insert_take_drop by (by eapply lookup_lt_Some).
  rewrite omap_app. simpl. by destruct o'.
Qed.

Lemma length_running (ths : list (option task)) :
  length (omap id ths) ≤ length ths.
Proof. induction ths as [|[t|] ths IH]; csimpl; lia. Qed.

Lemma running_nil_lookup (ths : list (option task)) w t :
  omap id ths = [] → ths !! w = Some (Some t) → False.
Proof.
  intros Hnil H. rewrite (running_lookup _ _ _ H) in Hnil. simpl in Hnil.
  by destruct (omap id (take w ths)).
Qed.

(** *** The number of threads never exceeds [max_workers]. *)

Lemma step_fn_max c σ σ' :
  step_fn c σ = Some σ' →
  max_workers σ' = max_workers σ ∧ progressbar σ' = progressbar σ.
Proof.
  destruct c as [|w|]; simpl; unfold submit, worker, yield; intros H;
    repeat (case_match; simplify_eq; simpl; try done).
Qed.

Lemma step_fn_bounded c σ σ' :
  step_fn c σ = Some σ' → bounded σ → bounded σ'.
Proof.
  unfold bounded.
  destruct c as [|w|]; simpl; unfold submit, worker, yield; intros H Hb;
    repeat (case_match; simplify_eq; simpl; try done);
    rewrite ?length_insert, ?length_app; simpl; try lia.
  match goal with H : (_ <? _) = true |- _ => apply Nat.ltb_lt in H end. lia.
Qed.

Lemma rtc_bounded σ σ' : rtc step σ σ' → bounded σ → bounded σ'.
Proof.
  induction 1 as [|σ1 σ2 σ3 [c Hc] _ IH]; [done |].
  intros Hb. apply IH. by eapply step_fn_bounded.
Qed.

Lemma rtc_max σ σ' : rtc step σ σ' → max_workers σ' = max_workers σ.
Proof.
  induction 1 as [|σ1 σ2 σ3 [c Hc] _ IH]; [done |].
  rewrite IH. by apply step_fn_max in Hc as [? _].
Qed.

Lemma in_flight_bound σ : bounded σ → in_flight σ ≤ max_workers σ.
Proof.
  unfold bounded, in_flight, running. intros Hb.
  pose proof (length_running (threads σ)). lia.
Qed.

(** *** Every item is in exactly one place; the pool can always move on. *)

Lemma inv_init m pb ts : 0 < m → inv ts (init m pb ts).
Proof.
  intros Hm. split; simpl; try done.
  unfold running. simpl. by rewrite !app_nil_r.
Qed.

Lemma step_fn_inv ts0 c σ σ' : step_fn c σ = Some σ' → inv ts0 σ → inv ts0 σ'.
Proof.
  intros Hc [Hw Hy Hs Hi]. unfold running in Hi.
  destruct c as [|w|]; simpl in Hc; unfold submit, worker, yield in Hc;
    repeat (case_match; simplify_eq);
    repeat match goal with
           | H : (_ <? _) = true |- _ => apply Nat.ltb_lt in H
           | H : (_ <? _) = false |- _ => apply Nat.ltb_ge in H
           end;
    (split; unfold running; simpl; [done | | | ]).
  (* the loop has not yielded more futures than are complete *)
  all: try (rewrite ?length_app; simpl; lia).
  (* without threads nothing is queued *)
  all: try (intros Hnil;
            first
              [ by apply Hs
              | destruct (Hs Hnil); congruence
              | apply (f_equal length) in Hnil;
                rewrite ?length_insert, ?length_app in Hnil; simpl in Hnil;
                repeat match goal with
                       | H : _ !! _ = Some _ |- _ => apply lookup_lt_Some in H
                       end;
                lia ]).
  (* every item is still in exactly one place *)
  all: rewrite <- Hi;
    try match goal with
        | H : ?ths !! _ = Some _ |- _ =>
            erewrite running_insert by exact H;
            erewrite (running_lookup ths) by exact H
        end;
    rewrite ?omap_app, ?map_app; unfold outcome; simpl;
    try match goal with H : unsubmitted _ = _ |- _ => rewrite H end;
    simpl; solve_Permutation.
Qed.

Lemma rtc_inv ts0 σ σ' : rtc step σ σ' → inv ts0 σ → inv ts0 σ'.
Proof.
  induction 1 as [|σ1 σ2 σ3 [c Hc] _ IH]; [done |].
  intros Hinv. apply IH. by eapply step_fn_inv.
Qed.

(** *** Every transition uses up some of the measure. *)

Lemma step_fn_measure c σ σ' : step_fn c σ = Some σ' → measure σ' < measure σ.
Proof.
  intros Hc. unfold measure, running, weight.
  destruct c as [|w|]; simpl in Hc; unfold submit, worker, yield in Hc;
    repeat (case_match; simplify_eq);
    repeat match goal with
           | H : (_ <? _) = true |- _ => apply Nat.ltb_lt in H
           | H : (_ <? _) = false |- _ => apply Nat.ltb_ge in H
           end;
    simpl;
    try match goal with
        | H : ?ths !! _ = Some _ |- _ =>
            erewrite running_insert by exact H;
            erewrite (running_lookup ths) by exact H
        end;
    rewrite ?omap_app, ?sum_list_with_app, ?length_app; simpl;
    repeat match goal with H : _ = _ |- _ => rewrite H end;
    simpl; lia.
Qed.

Lemma first_enabled_Some cs σ σ' :
  first_enabled cs σ = Some σ' → ∃ c, c ∈ cs ∧ step_fn c σ = Some σ'.
Proof.
  induction cs as [|c cs IH]; simpl; [done |].
  destruct (step_fn c σ) as [σ1|] eqn:Hc.
  - intros [= <-]. exists c. split; [left | done].
  - intros H. destruct (IH H) as (c' & ? & ?). exists c'. split; [by right | done].
Qed.

Lemma first_enabled_None cs σ :
  first_enabled cs σ = None → ∀ c, c ∈ cs → step_fn c σ = None.
Proof.
  induction cs as [|c cs IH]; simpl; intros H c' Hin.
  - by apply elem_of_nil in Hin.
  - destruct (step_fn c σ) eqn:Hc; [done |].
    apply elem_of_cons in Hin as [-> | Hin]; auto.
Qed.

Lemma all_idle (ths : list (option task)) :
  (∀ w, w < length ths → ths !! w = Some None) → omap id ths = [].
Proof.
  induction ths as [|o ths IH]; intros H; [done |].
  pose proof (H 0 ltac:(simpl; lia)) as H0. simpl in H0. simplify_eq.
  csimpl. apply IH. intros w Hw. apply (H (S w)). simpl. lia.
Qed.

(** A state in which nothing can move is final. *)
Lemma stuck_final ts0 σ :
  inv ts0 σ → first_enabled (candidates σ) σ = None → final σ = true.
Proof.
  intros [Hw Hy Hs Hi] Hnone.
  pose proof (first_enabled_None _ _ Hnone) as Hdis.
  assert (unsubmitted σ = []) as Hu.
  { pose proof (Hdis Submit ltac:(left)) as H. simpl in H. unfold submit in H.
    destruct (unsubmitted σ); [done |]. repeat case_match; done. }
  assert (yielded σ = length (completed σ)) as Hyl.
  { pose proof (Hdis Yield ltac:(right; left)) as H. simpl in H.
    unfold yield in H. rewrite Hu in H.
    destruct (Nat.ltb_spec (yielded σ) (length (completed σ))); [done | lia]. }
  assert (∀ w, w < length (threads σ) →
               threads σ !! w = Some None ∧ work_queue σ = []) as Hth.
  { intros w Hlt.
    assert (Worker w ∈ candidates σ) as Hin.
    { unfold candidates. right. right. apply list_elem_of_fmap.
      exists w. split; [done |]. apply elem_of_seq. lia. }
    pose proof (Hdis _ Hin) as H. simpl in H. unfold worker in H.
    destruct (lookup_lt_is_Some_2 _ _ Hlt) as [o Ho]. rewrite Ho in H.
    destruct o as [t|]; [destruct (t_todo t); done |].
    destruct (work_queue σ); done. }
  assert (running σ = []) as Hr.
  { apply all_idle. intros w Hlt. by apply Hth. }
  assert (work_queue σ = []) as Hq.
  { destruct (threads σ) as [|o ths] eqn:Hths; [by apply Hs |].
    apply (Hth 0). simpl. lia. }
  unfold final, in_flight. rewrite Hu, Hq, Hr, Hyl. simpl.
  rewrite ?bool_decide_eq_true_2 by done. by rewrite Nat.eqb_refl.
Qed.

Lemma run_rtc sched fuel : ∀ k σ, rtc step σ (run sched fuel k σ).
Proof.
  induction fuel as [|fuel IH]; intros k σ; cbn [run]; [apply rtc_refl |].
  destruct (first_enabled _ σ) as [σ'|] eqn:He; [| apply rtc_refl].
  apply first_enabled_Some in He as (c & _ & Hc).
  eapply rtc_l; [by exists c | apply IH].
Qed.

(** The run ends in a final state: the loop over as_completed returns. *)
Lemma run_final ts0 sched fuel :
  ∀ k σ, inv ts0 σ → measure σ ≤ fuel → final (run sched fuel k σ) = true.
Proof.
  induction fuel as [|fuel IH]; intros k σ Hinv Hm; cbn [run].
  - destruct (first_enabled (candidates σ) σ) as [σ'|] eqn:He.
    + apply first_enabled_Some in He as (c & _ & Hc).
      apply step_fn_measure in Hc. lia.
    + by eapply stuck_final.
  - destruct (first_enabled (sched k :: candidates σ) σ) as [σ'|] eqn:He.
    + apply first_enabled_Some in He as (c & _ & Hc).
      apply IH; [by eapply step_fn_inv |].
      apply step_fn_measure in Hc. lia.
    + eapply stuck_final; [done |].
      cbn [first_enabled] in He. by destruct (step_fn (sched k) σ).
Qed.

(** In a final state every item has exactly one completed future, holding
    what its call returned or raised, and the loop body has run once for
    each. *)
Lemma final_completed ts0 σ :
  inv ts0 σ → final σ = true →
  completed σ ≡ₚ map outcome ts0 ∧ yielded σ = length ts0.
Proof.
  intros [Hw Hy Hs Hi] Hf. unfold final, in_flight in Hf.
  repeat (apply andb_prop in Hf as [Hf ?]).
  apply bool_decide_eq_true in Hf.
  repeat match goal with
         | H : bool_decide _ = true |- _ => apply bool_decide_eq_true in H
         | H : (_ =? _) = true |- _ => apply Nat.eqb_eq in H
         end.
  assert (running σ = []) as Hr by (by destruct (running σ)).
  rewrite Hf, Hr in Hi.
  match goal with H : work_queue σ = [] |- _ => rewrite H in Hi end.
  simpl in Hi. split; [done |].
  apply Permutation_length in Hi. rewrite length_map in Hi. lia.
Qed.

Lemma execute_spec sched m pb ts :
  0 < m →
  final (execute sched m pb ts) = true
  ∧ completed (execute sched m pb ts) ≡ₚ map outcome ts
  ∧ yielded (execute sched m pb ts) = length ts
  ∧ rtc step (init m pb ts) (execute sched m pb ts).
Proof.
  intros Hm. unfold execute.
  pose proof (inv_init m pb ts Hm) as Hinv.
  pose proof (run_rtc sched (measure (init m pb ts)) 0 (init m pb ts)) as Hrtc.
  pose proof (run_final ts sched _ 0 _ Hinv (Nat.le_refl _)) as Hfin.
  destruct (final_completed ts _ (rtc_inv _ _ _ Hrtc Hinv) Hfin) as [? ?].
  done.
Qed.

End pool_facts.

(** ** tenacity: the waits and the retry loop *)

Arguments tenacity.wait_random_exponential : simpl never.
Arguments basename : simpl never.
Arguments joinpath : simpl never.

Module tenacity_facts.
Import tenacity.



Example backoff_bounds :
  map (wait_exponential 1 120 2 3) [1; 2; 3; 4; 5]
  = [3%Q; 3%Q; 4%Q; 8%Q; 16%Q].
Proof. reflexivity. Qed.

Lemma retry_skip {A} wait stop acts0 (g : nat → result A) :
  ∀ k fuel a,
    (∀ n, a ≤ n < a + k → is_raise (g n) = true ∧ stop n = false) →
    retry wait stop (λ n, (acts0, g n)) (k + fuel) a
    = let '(rest, r) := retry wait stop (λ n, (acts0, g n)) fuel (a + k) in
      (failed_attempts acts0 wait k a ++ rest, r).
Proof.
  induction k as [|k IH]; intros fuel a H.
  - rewrite Nat.add_0_r. simpl. by destruct (retry _ _ _ _ _).
  - destruct (H a ltac:(lia)) as [Hr Hs].
    cbn [Nat.add retry failed_attempts]. rewrite Hs.
    destruct (g a) as [x|e]; [done |].
    rewrite IH by (intros n Hn; apply H; lia).
    replace (S a + k) with (a + S k) by lia.
    destruct (retry _ _ _ fuel _) as [rest r].
    by rewrite <- app_assoc.
Qed.


End tenacity_facts.

(** ** The HTML variant's fetcher *)

Module http_facts.
Import PubmedDownloader tenacity_facts.

Lemma requestGet_unfold get rnd url :
  requestGet_with_backoff get rnd url 2
  = tenacity.retry (backoff rnd) (tenacity.stop_after_attempt 6)
      (λ n, (try_get url, get n)) 6 1.
Proof. reflexivity. Qed.

Lemma requestGet_responds get rnd url k resp :
  1 ≤ k ≤ 6 →
  (∀ n, 1 ≤ n < k → is_raise (get n) = true) →
  get k = Return resp →
  requestGet_with_backoff get rnd url 2
  = (failed_attempts (try_get url) (backoff rnd) (k - 1) 1 ++ try_get url,
     Return resp).
Proof.
  intros Hk Hraise Hget. rewrite requestGet_unfold.
  replace 6 with ((k - 1) + S (6 - k)) at 2 by lia.
  rewrite retry_skip.
  - replace (1 + (k - 1)) with k by lia.
    cbn [tenacity.retry]. by rewrite Hget.
  - intros n Hn. split; [apply Hraise; lia |].
    unfold tenacity.stop_after_attempt. apply Nat.leb_gt. lia.
Qed.

Lemma requestGet_exhausted get rnd url :
  (∀ n, 1 ≤ n ≤ 6 → is_raise (get n) = true) →
  requestGet_with_backoff get rnd url 2
  = (failed_attempts (try_get url) (backoff rnd) 5 1 ++ try_get url,
     Raise RetryError).
Proof.
  intros Hraise. rewrite requestGet_unfold.
  change 6 with (5 + 1) at 2.
  rewrite retry_skip.
  - cbn [tenacity.retry Nat.add].
    pose proof (Hraise 6 ltac:(lia)) as H6.
    by destruct (get 6).
  - intros n Hn. split; [apply Hraise; lia |].
    unfold tenacity.stop_after_attempt. apply Nat.leb_gt. lia.
Qed.

(** A response, whatever its status: the body is written and the call then
    raises on the last log line. *)
Lemma download_file_responds get rnd os_open url path k resp :
  1 ≤ k ≤ 6 →
  (∀ n, 1 ≤ n < k → is_raise (get n) = true) →
  get k = Return resp →
  download_file get rnd os_open url path
  = let file := joinpath path (basename url) in
    let before :=
      failed_attempts (try_get url) (backoff rnd) (k - 1) 1
      ++ try_get url ++ response_logs url (status_code resp) in
    match os_open file with
    | Return _ =>
        (before ++ [AOpen file; AWrite file (content resp); AClose file],
         Raise TypeError)
    | Raise e => (before, Raise e)
    end.
Proof.
  intros Hk Hraise Hget. unfold download_file.
  rewrite (requestGet_responds get rnd url k resp Hk Hraise Hget).
  unfold with_open.
  destruct (os_open (joinpath path (basename url))) as [[]|e]; simpl;
    rewrite <- ?app_assoc; simpl; by rewrite ?app_nil_r.
Qed.

(** No response in six attempts: the url is recorded and the call returns. *)
Lemma download_file_exhausted get rnd os_open url path :
  (∀ n, 1 ≤ n ≤ 6 → is_raise (get n) = true) →
  download_file get rnd os_open url path
  = (failed_attempts (try_get url) (backoff rnd) 5 1 ++ try_get url
     ++ [ALog WARNING "No response for {} within timeout." [AStr url];
         AFailed url],
     Return tt).
Proof.
  intros Hraise. unfold download_file.
  rewrite (requestGet_exhausted get rnd url Hraise).
  simpl. by rewrite <- ?app_assoc.
Qed.

End http_facts.

(** ** Sorting and list facts *)

Lemma sorted_Sorted names : Sorted String.le (FTPDownloader.sorted names).
Proof. apply Sorted_merge_sort. apply _. Qed.

Lemma sorted_Permutation names : FTPDownloader.sorted names ≡ₚ names.
Proof. apply merge_sort_Permutation. Qed.

(** The sorted list depends on the names only, not on their order. *)
Lemma sorted_order_independent names names' :
  names ≡ₚ names' → FTPDownloader.sorted names = FTPDownloader.sorted names'.
Proof.
  intros Hp. apply (Sorted_unique String.le).
  - apply sorted_Sorted.
  - apply sorted_Sorted.
  - by rewrite !sorted_Permutation.
Qed.

Lemma filter_sublist {A} (f : A → bool) (l : list A) :
  List.filter f l `sublist_of` l.
Proof.
  induction l as [|x l IH]; simpl; [constructor |].
  destruct (f x); by constructor.
Qed.

Lemma filter_Forall {A} (f : A → bool) (l : list A) :
  Forall (λ x, f x = true) (List.filter f l).
Proof.
  induction l as [|x l IH]; simpl; [constructor |].
  destruct (f x) eqn:Hx; [by constructor | done].
Qed.

Lemma map_sublist {A B} (g : A → B) (l1 l2 : list A) :
  l1 `sublist_of` l2 → map g l1 `sublist_of` map g l2.
Proof. induction 1; simpl; by constructor. Qed.

Lemma fs_after_app acts1 acts2 fs :
  fs_after (acts1 ++ acts2) fs = fs_after acts2 (fs_after acts1 fs).
Proof. unfold fs_after. apply fold_left_app. Qed.

Lemma fs_after_no_access acts fs :
  List.filter is_file_access acts = [] → fs_after acts fs = fs.
Proof.
  revert fs. induction acts as [|a acts IH]; intros fs; simpl; [done |].
  destruct (is_file_access a) eqn:Ha; [done |].
  intros H. unfold fs_after in *. simpl. rewrite IH by done.
  by destruct a.
Qed.

Lemma failed_attempts_failed_in acts0 wait :
  failed_in acts0 = [] → ∀ k n, failed_in (failed_attempts acts0 wait k n) = [].
Proof.
  intros H0. induction k as [|k IH]; intros n; simpl; [done |].
  unfold failed_in in *. rewrite flat_map_app, H0. simpl. apply IH.
Qed.

(** ** Discovery *)

Lemma find_urls_ok urljoin parse get url self resp :
  get url = Return resp → status_code resp = 200%Z →
  PubmedDownloader.find_urls urljoin parse get url self
  = let links := parse (content resp) in
    let urls := map (urljoin url) links in
    (PubmedDownloader.set_all_urls urls
       (PubmedDownloader.set_links links
          (PubmedDownloader.set_start_url url self)),
     ([AGet url None;
       ALog INFO "Found {} urls on {}" [ANat (length urls); AStr url];
       ALog DEBUG "All urls:   {}" [AList urls]],
      Return tt)).
Proof.
  intros Hget Hst. unfold PubmedDownloader.find_urls.
  unfold mbind, M_bind, m_bind, modify, lift, gets, ask. simpl.
  rewrite Hget, Hst. reflexivity.
Qed.

Lemma find_urls_bad_status urljoin parse get url self resp :
  get url = Return resp → status_code resp ≠ 200%Z →
  PubmedDownloader.find_urls urljoin parse get url self
  = (PubmedDownloader.set_start_url url self,
     ([AGet url None; ALog ERROR "" []], Return tt)).
Proof.
  intros Hget Hst. unfold PubmedDownloader.find_urls.
  unfold mbind, M_bind, m_bind, modify, lift, gets, ask. simpl.
  rewrite Hget. destruct (Z.eqb_spec (status_code resp) 200); [done |].
  reflexivity.
Qed.

Lemma find_urls_raises urljoin parse get url self e :
  get url = Raise e →
  PubmedDownloader.find_urls urljoin parse get url self
  = (PubmedDownloader.set_start_url url self, ([AGet url None], Raise e)).
Proof.
  intros Hget. unfold PubmedDownloader.find_urls.
  unfold mbind, M_bind, m_bind, modify, lift, gets, ask. simpl.
  by rewrite Hget.
Qed.

Lemma find_files_ok s dir self names :
  FTPDownloader.connect s = Return tt →
  FTPDownloader.login s = Return tt →
  FTPDownloader.chdir s dir = Return tt →
  FTPDownloader.nlst s = Return names →
  FTPDownloader.find_files s dir self
  = let host := FTPDownloader._host self in
    let files := FTPDownloader.sorted names in
    (FTPDownloader.set_all_fileNames files (FTPDownloader.set_cwd dir self),
     ([AFtp (Connect host); AFtp Login; AFtp (Cwd dir); AFtp Nlst; AFtp Quit;
       ALog INFO "Found {} files in {}" [ANat (length files); AStr host];
       ALog DEBUG "All files:   {}" [AList files]],
      Return tt)).
Proof.
  intros Hc Hl Hd Hn. unfold FTPDownloader.find_files, FTPDownloader.with_FTP.
  unfold mbind, M_bind, m_bind, modify, lift, gets, ask, FTPDownloader.ftp_cwd.
  simpl. rewrite Hc, Hl, Hd, Hn. reflexivity.
Qed.

(** ** The pattern filter *)

Lemma filter_urls_compiled urljoin compile reg_ex p self :
  compile reg_ex = Some p →
  PubmedDownloader.filter_urls urljoin compile reg_ex self
  = let kept := List.filter (re.match_ p) (PubmedDownloader._links self) in
    let urls := map (urljoin (PubmedDownloader.start_url self)) kept in
    (PubmedDownloader.set_filtered_urls urls
       (PubmedDownloader.set_reg_ex reg_ex self),
     ([ALog INFO "filtered {} urls on {} using regular expression: {}"
         [ANat (length urls); AStr (PubmedDownloader.start_url self);
          AStr reg_ex];
       ALog DEBUG "filtered urls:    {}" [AList urls]],
      Return tt)).
Proof.
  intros Hc. unfold PubmedDownloader.filter_urls.
  unfold mbind, M_bind, m_bind, modify, lift, gets. simpl. by rewrite Hc.
Qed.

Lemma filter_files_compiled compile reg_ex p self :
  compile reg_ex = Some p →
  FTPDownloader.filter_files compile reg_ex self
  = let kept := List.filter (re.match_ p) (FTPDownloader.all_fileNames self) in
    (FTPDownloader.set_filtered_fileNames kept
       (FTPDownloader.set_reg_ex reg_ex self),
     ([ALog INFO "filtered {} files on {} using regular expression: {}"
         [ANat (length kept); AStr (FTPDownloader._host self); AStr reg_ex];
       ALog DEBUG "filtered files:    {}" [AList kept]],
      Return tt)).
Proof.
  intros Hc. unfold FTPDownloader.filter_files.
  unfold mbind, M_bind, m_bind, modify, lift, gets. simpl. by rewrite Hc.
Qed.

(** ** The fetchers *)

Lemma failed_attempts_filter_nil (f : action → bool) acts0 wait :
  List.filter f acts0 = [] → (∀ d, f (ASleep d) = false) →
  ∀ k n, List.filter f (failed_attempts acts0 wait k n) = [].
Proof.
  intros H0 Hd. induction k as [|k IH]; intros n; simpl; [done |].
  rewrite List.filter_app, H0. simpl. by rewrite Hd, IH.
Qed.

Lemma failed_attempts_gets url wait :
  ∀ k n, length (List.filter is_get (failed_attempts (try_get url) wait k n)) = k.
Proof. induction k as [|k IH]; intros n; simpl; [done |]. by rewrite IH. Qed.

Lemma append_assoc (s1 s2 s3 : string) :
  (s1 +:+ s2) +:+ s3 = s1 +:+ (s2 +:+ s3).
Proof.
  induction s1 as [|c s1 IH]; [done |].
  change (String c ((s1 +:+ s2) +:+ s3) = String c (s1 +:+ s2 +:+ s3)).
  by rewrite IH.
Qed.

(** Blocks written one after the other end up concatenated in the file. *)
Lemma fs_after_writes file blocks fs :
  fs_after (map (AWrite file) blocks) fs !! file
  = match blocks with
    | [] => fs !! file
    | _ => Some (default "" (fs !! file) +:+ String.concat "" blocks)
    end.
Proof.
  revert fs. induction blocks as [|b blocks IH]; intros fs; [done |].
  change (fs_after (map (AWrite file) (b :: blocks)) fs)
    with (fs_after (map (AWrite file) blocks) (fs_step fs (AWrite file b))).
  rewrite IH. simpl. rewrite lookup_insert_eq. simpl.
  destruct blocks as [|b' blocks]; [done |].
  by rewrite append_assoc.
Qed.

Lemma download_file_ftp s os_open filename self dir d blocks r :
  FTPDownloader.cwd self = Some dir →
  FTPDownloader.connect s = Return tt →
  FTPDownloader.login s = Return tt →
  FTPDownloader.chdir s dir = Return tt →
  os_open (joinpath (FTPDownloader.download_dir self) filename) = Return tt →
  FTPDownloader.pwd s = Return d →
  FTPDownloader.retr s filename = (blocks, r) →
  FTPDownloader.download_file s os_open filename self
  = let host := FTPDownloader._host self in
    let file := joinpath (FTPDownloader.download_dir self) filename in
    (self,
     ([AFtp (Connect host); AFtp Login; AFtp (Cwd dir); AOpen file; AFtp Pwd;
       ALog INFO "Downloading {} from {}" [AStr filename; AStr (host +:+ d)];
       AFtp (Retr filename)]
      ++ map (AWrite file) blocks
      ++ match r with
         | Return _ =>
             [AFtp Pwd;
              ALog INFO "Retrieved {} from {}" [AStr filename; AStr (host +:+ d)]]
         | Raise _ => []
         end
      ++ [AClose file; AFtp Quit],
      r)).
Proof.
  intros Hcwd Hc Hl Hd Ho Hp Hr.
  unfold FTPDownloader.download_file, FTPDownloader.with_FTP,
    FTPDownloader.retrbinary, FTPDownloader.host_pwd, with_open.
  unfold mbind, M_bind, m_bind, T_bind, t_bind, modify, lift, gets, ask,
    FTPDownloader.ftp_cwd, finally, perform, logging.
  simpl. rewrite Hc. simpl. rewrite Hl, Hcwd. simpl. rewrite Hd, Ho. simpl.
  rewrite Hp, Hr. simpl.
  destruct r as [[]|e]; simpl; rewrite ?Hp; simpl;
    by rewrite <- ?app_assoc.
Qed.

Lemma failed_in_app acts1 acts2 :
  failed_in (acts1 ++ acts2) = failed_in acts1 ++ failed_in acts2.
Proof. apply flat_map_app. Qed.



Lemma writes_failed_in file blocks : failed_in (map (AWrite file) blocks) = [].
Proof. by induction blocks. Qed.

Lemma writes_filter (f : action → bool) file blocks :
  (∀ b, f (AWrite file b) = false) →
  List.filter f (map (AWrite file) blocks) = [].
Proof.
  intros Hf. induction blocks as [|b blocks IH]; simpl; [done |].
  by rewrite Hf.
Qed.

(** Either all of the first [m] attempts raise, or one of them is the first
    to bring a response. *)
Lemma attempts_cases (get : nat → result response) m :
  (∀ n, 1 ≤ n ≤ m → is_raise (get n) = true)
  ∨ (∃ k resp, 1 ≤ k ≤ m ∧ (∀ n, 1 ≤ n < k → is_raise (get n) = true)
               ∧ get k = Return resp).
Proof.
  induction m as [|m [IH | (k & resp & Hk & Hlt & Hget)]].
  - left. intros n Hn. lia.
  - destruct (get (S m)) as [resp|e] eqn:Hget.
    + right. exists (S m), resp. repeat split; [lia | lia | | done].
      intros n Hn. apply IH. lia.
    + left. intros n Hn. destruct (Nat.eq_dec n (S m)) as [-> | Hne].
      * by rewrite Hget.
      * apply IH. lia.
  - right. exists k, resp. repeat split; [lia | lia | done | done].
Qed.


Lemma fs_after_no_write acts fs :
  List.filter changes_file acts = [] → fs_after acts fs = fs.
Proof.
  revert fs. induction acts as [|a acts IH]; intros fs; simpl; [done |].
  destruct (changes_file a) eqn:Ha; [done |].
  intros H. unfold fs_after in *. simpl. rewrite IH by done.
  by destruct a.
Qed.

(** ** The scheduler *)

Lemma imap_ids {A} (l : list A) :
  ∀ (f : nat → A → pool.task) k,
    (∀ i x, pool.t_id (f i x) = k + i) →
    map pool.t_id (imap f l) = seq k (length l).
Proof.
  induction l as [|x l IH]; intros f k Hf; [done |].
  rewrite imap_cons. simpl. rewrite Hf, Nat.add_0_r. f_equal.
  apply IH. intros i y. unfold compose. rewrite Hf. lia.
Qed.

Lemma http_tasks_ids w urls path :
  map pool.t_id (PubmedDownloader.tasks w urls path) = seq 0 (length urls).
Proof.
  apply imap_ids. intros i url.
  by destruct (PubmedDownloader.download_file _ _ _ _ _).
Qed.

Lemma ftp_tasks_ids w self :
  map pool.t_id (FTPDownloader.tasks w self)
  = seq 0 (length (FTPDownloader.filtered_fileNames self)).
Proof.
  apply imap_ids. intros i name.
  by destruct (FTPDownloader.download_file _ _ _ _).2.
Qed.

Lemma length_http_tasks w urls path :
  length (PubmedDownloader.tasks w urls path) = length urls.
Proof. apply length_imap. Qed.

Lemma length_ftp_tasks w self :
  length (FTPDownloader.tasks w self)
  = length (FTPDownloader.filtered_fileNames self).
Proof. apply length_imap. Qed.

(** However the threads interleave, a pool that has come to its end holds
    one completed future per submitted item. *)
Lemma pool_final_outcomes m pb items σ :
  0 < m → rtc pool.step (pool.init m pb items) σ → pool.final σ = true →
  pool.completed σ ≡ₚ map pool.outcome items
  ∧ map fst (pool.completed σ) ≡ₚ map pool.t_id items
  ∧ length (pool.completed σ) = length items
  ∧ pool.yielded σ = length items.
Proof.
  intros Hm Hrtc Hfin.
  pose proof (pool_facts.rtc_inv items _ _ Hrtc (pool_facts.inv_init m pb items Hm))
    as Hinv.
  destruct (pool_facts.final_completed items σ Hinv Hfin) as [Hc Hy].
  split; [done |]. split; [| split; [| done]].
  - rewrite Hc, map_map. done.
  - rewrite Hc. by rewrite length_map.
Qed.

(** A pool that is not at its end can take a step. *)
Lemma pool_progress m pb items σ :
  0 < m → rtc pool.step (pool.init m pb items) σ → pool.final σ = false →
  ∃ σ', pool.step σ σ'.
Proof.
  intros Hm Hrtc Hfin.
  pose proof (pool_facts.rtc_inv items _ _ Hrtc (pool_facts.inv_init m pb items Hm))
    as Hinv.
  destruct (pool.first_enabled (pool.candidates σ) σ) as [σ'|] eqn:He.
  - apply pool_facts.first_enabled_Some in He as (c & _ & Hc).
    exists σ'. by exists c.
  - apply (pool_facts.stuck_final items σ Hinv) in He. congruence.
Qed.

(** Finishing a work item, whatever its call returned or raised, only frees
    its own thread and completes its own future. *)
Lemma finish_is_local σ w0 t :
  pool.threads σ !! w0 = Some (Some t) → pool.t_todo t = [] →
  ∃ σ', pool.worker w0 σ = Some σ'
        ∧ pool.unsubmitted σ' = pool.unsubmitted σ
        ∧ pool.work_queue σ' = pool.work_queue σ
        ∧ (∀ w1, w1 ≠ w0 → pool.threads σ' !! w1 = pool.threads σ !! w1)
        ∧ pool.completed σ' = pool.completed σ ++ [pool.outcome t].
Proof.
  intros Hw Ht. unfold pool.worker. rewrite Hw, Ht.
  eexists. split; [done |]. simpl. repeat split.
  intros w1 Hne. by rewrite list_lookup_insert_ne.
Qed.

Lemma download_urls_returns w path threads pb self :
  PubmedDownloader.filtered_urls self ≠ [] → (0 < threads)%Z →
  PubmedDownloader.download_urls w path (Some threads) (Some pb) self
  = let σ := pool.execute (PubmedDownloader.sched w) (Z.to_nat threads) pb
               (PubmedDownloader.tasks w (PubmedDownloader.filtered_urls self)
                  path) in
    (PubmedDownloader.set_failed_urls
       (PubmedDownloader.failed_urls self ++ failed_in (pool.trace σ)) self,
     (ALog INFO "Starting download of {} urls"
        [ANat (length (PubmedDownloader.filtered_urls self))]
      :: pool.trace σ ++ [ALog INFO "Download finished" []],
      Return tt)).
Proof.
  intros Hne Hpos. unfold PubmedDownloader.download_urls.
  unfold mbind, M_bind, m_bind, mret, M_ret, m_ret, modify, lift, gets,
    raise, logging, perform, t_ret.
  simpl. destruct (PubmedDownloader.filtered_urls self) as [|u us]; [done |].
  destruct (Z.leb_spec threads 0); [lia |]. simpl.
  by rewrite ?app_nil_r.
Qed.

Lemma download_files_returns w threads pb self :
  FTPDownloader.filtered_fileNames self ≠ [] → (0 < threads)%Z →
  FTPDownloader.download_files w (Some threads) (Some pb) self
  = let σ := pool.execute (FTPDownloader.sched w) (Z.to_nat threads) pb
               (FTPDownloader.tasks w self) in
    (self,
     (ALog INFO "Starting download of {} files"
        [ANat (length (FTPDownloader.filtered_fileNames self))]
      :: pool.trace σ ++ [ALog INFO "Download finished" []],
      Return tt)).
Proof.
  intros Hne Hpos. unfold FTPDownloader.download_files.
  unfold mbind, M_bind, m_bind, mret, M_ret, m_ret, modify, lift, gets,
    raise, logging, perform, t_ret.
  simpl. destruct (FTPDownloader.filtered_fileNames self) as [|u us]; [done |].
  destruct (Z.leb_spec threads 0); [lia |]. simpl.
  by rewrite ?app_nil_r.
Qed.

(** ** What a run of the scheduler has done at its end *)

Ltac unfold_ftp :=
  unfold FTPDownloader.find_files, FTPDownloader.download_file,
    FTPDownloader.with_FTP, FTPDownloader.retrbinary, FTPDownloader.host_pwd,
    with_open;
  unfold mbind, M_bind, m_bind, T_bind, t_bind, modify, lift, gets, ask,
    FTPDownloader.ftp_cwd, finally, perform, logging, raise;
  simpl.

(** The actions performed so far and those still to come are together the
    actions of the submitted items, plus one progress event per future the
    loop has consumed when the progress bar is on. *)
Lemma step_fn_trace items c σ σ' :
  pool.step_fn c σ = Some σ' →
  pool.trace σ
  ++ flat_map pool.t_todo
       (pool.unsubmitted σ ++ pool.work_queue σ ++ pool.running σ)
  ≡ₚ flat_map pool.t_todo items
     ++ (if pool.progressbar σ then replicate (pool.yielded σ) AProgress else []) →
  pool.trace σ'
  ++ flat_map pool.t_todo
       (pool.unsubmitted σ' ++ pool.work_queue σ' ++ pool.running σ')
  ≡ₚ flat_map pool.t_todo items
     ++ (if pool.progressbar σ' then replicate (pool.yielded σ') AProgress
         else []).
Proof.
  intros Hc Hi. unfold pool.running in *.
  destruct c as [|w|]; simpl in Hc;
    unfold pool.submit, pool.worker, pool.yield in Hc;
    repeat (case_match; simplify_eq); simpl.
  all: try (rewrite <- Hi).
  all: try match goal with
           | H : ?ths !! _ = Some _ |- _ =>
               erewrite pool_facts.running_insert by exact H;
               erewrite (pool_facts.running_lookup ths) by exact H
           end.
  all: rewrite ?omap_app, ?flat_map_app; simpl;
    repeat match goal with
           | H : pool.t_todo _ = _ |- _ => rewrite H
           | H : pool.unsubmitted _ = _ |- _ => rewrite H
           end;
    simpl; rewrite ?app_nil_r; try solve_Permutation.
  simpl in Hi. rewrite flat_map_app in Hi.
  etrans; [| apply Permutation_middle].
  etrans; [| apply perm_skip; exact Hi].
  solve_Permutation.
Qed.

Lemma rtc_progressbar σ σ' :
  rtc pool.step σ σ' → pool.progressbar σ' = pool.progressbar σ.
Proof.
  induction 1 as [|σ1 σ2 σ3 [c Hc] _ IH]; [done |].
  rewrite IH. by apply pool_facts.step_fn_max in Hc as [_ ?].
Qed.

Lemma rtc_trace_from items σ σ' :
  rtc pool.step σ σ' →
  pool.trace σ
  ++ flat_map pool.t_todo
       (pool.unsubmitted σ ++ pool.work_queue σ ++ pool.running σ)
  ≡ₚ flat_map pool.t_todo items
     ++ (if pool.progressbar σ then replicate (pool.yielded σ) AProgress else []) →
  pool.trace σ'
  ++ flat_map pool.t_todo
       (pool.unsubmitted σ' ++ pool.work_queue σ' ++ pool.running σ')
  ≡ₚ flat_map pool.t_todo items
     ++ (if pool.progressbar σ' then replicate (pool.yielded σ') AProgress
         else []).
Proof.
  induction 1 as [|σ1 σ2 σ3 [c Hc] _ IH]; [done |].
  intros Hi. apply IH. by eapply step_fn_trace.
Qed.

Lemma rtc_trace m pb items σ :
  rtc pool.step (pool.init m pb items) σ →
  pool.trace σ
  ++ flat_map pool.t_todo
       (pool.unsubmitted σ ++ pool.work_queue σ ++ pool.running σ)
  ≡ₚ flat_map pool.t_todo items
     ++ (if pool.progressbar σ then replicate (pool.yielded σ) AProgress else []).
Proof.
  intros Hrtc. apply (rtc_trace_from items _ _ Hrtc).
  unfold pool.running. destruct pb; simpl; by rewrite !app_nil_r.
Qed.

(** At the end of a run the scheduler has performed the actions of every
    item, each once, interleaved in some order, and nothing else but one
    progress event per item when the progress bar is on. *)
Lemma final_trace m pb items σ :
  0 < m → rtc pool.step (pool.init m pb items) σ → pool.final σ = true →
  pool.trace σ
  ≡ₚ flat_map pool.t_todo items
     ++ (if pb then replicate (length items) AProgress else []).
Proof.
  intros Hm Hrtc Hfin.
  pose proof (rtc_trace m pb items σ Hrtc) as Htr.
  destruct (pool_final_outcomes m pb items σ Hm Hrtc Hfin) as (_ & _ & _ & Hy).
  assert (pool.progressbar σ = pb) as Hpb.
  { by rewrite (rtc_progressbar _ _ Hrtc). }
  unfold pool.final, pool.in_flight in Hfin.
  repeat (apply andb_prop in Hfin as [Hfin ?]).
  apply bool_decide_eq_true in Hfin.
  repeat match goal with
         | H : bool_decide _ = true |- _ => apply bool_decide_eq_true in H
         | H : (_ =? _) = true |- _ => apply Nat.eqb_eq in H
         end.
  assert (pool.running σ = []) as Hr by (by destruct (pool.running σ)).
  rewrite Hfin, Hr, Hpb, Hy in Htr.
  match goal with H : pool.work_queue σ = [] |- _ => rewrite H in Htr end.
  simpl in Htr. by rewrite app_nil_r in Htr.
Qed.

Lemma exhausted_spec get :
  exhausted get = true ↔ ∀ n, 1 ≤ n ≤ 6 → is_raise (get n) = true.
Proof.
  unfold exhausted. rewrite forallb_forall. split.
  - intros H n Hn. apply H. apply in_seq. lia.
  - intros H n Hn. apply H. apply in_seq in Hn. lia.
Qed.

(** What one call of the HTML fetcher adds to failed_urls. *)
Lemma failed_in_download_file get rnd os_open url path :
  failed_in (PubmedDownloader.download_file get rnd os_open url path).1
  = if exhausted get then [url] else [].
Proof.
  destruct (attempts_cases get 6) as [Hraise | (k & resp & Hk & Hlt & Hget)].
  - rewrite (proj2 (exhausted_spec get) Hraise).
    rewrite (http_facts.download_file_exhausted get rnd os_open url path Hraise).
    cbn [fst]. by rewrite failed_in_app, failed_attempts_failed_in.
  - assert (exhausted get = false) as ->.
    { destruct (exhausted get) eqn:He; [| done].
      pose proof (proj1 (exhausted_spec get) He k Hk) as Hr.
      by rewrite Hget in Hr. }
    rewrite (http_facts.download_file_responds get rnd os_open url path k resp
               Hk Hlt Hget).
    cbv zeta.
    destruct (os_open _) as [[]|e]; cbn [fst];
      rewrite ?failed_in_app, failed_attempts_failed_in; done.
Qed.

Lemma failed_in_flat_map (ts : list pool.task) :
  failed_in (flat_map pool.t_todo ts)
  = flat_map (λ t, failed_in (pool.t_todo t)) ts.
Proof.
  induction ts as [|t ts IH]; [done |].
  simpl. by rewrite failed_in_app, IH.
Qed.

Lemma failed_in_progress n : failed_in (replicate n AProgress) = [].
Proof. by induction n. Qed.

Lemma failed_in_tasks_at os_open path urls :
  ∀ (idf : nat → nat) (get : nat → nat → result response)
    (rnd : nat → nat → Q → Q),
    flat_map (λ t, failed_in (pool.t_todo t))
      (imap (λ i url,
               let '(acts, r) :=
                 PubmedDownloader.download_file (get i) (rnd i) os_open url path
               in pool.Task (idf i) acts r) urls)
    = concat (imap (λ i url, if exhausted (get i) then [url] else []) urls).
Proof.
  induction urls as [|u urls IH]; intros idf get rnd; [done |].
  rewrite !imap_cons. simpl.
  pose proof (failed_in_download_file (get 0) (rnd 0) os_open u path) as Hf.
  destruct (PubmedDownloader.download_file _ _ _ _ _) as [acts r].
  simpl in *. rewrite Hf. f_equal.
  exact (IH (idf ∘ S) (get ∘ S) (rnd ∘ S)).
Qed.

Lemma failed_in_http_tasks w urls path :
  flat_map (λ t, failed_in (pool.t_todo t)) (PubmedDownloader.tasks w urls path)
  = exhausted_urls w urls.
Proof.
  exact (failed_in_tasks_at (PubmedDownloader.os_open w) path urls id
           (PubmedDownloader.get_item w) (PubmedDownloader.random w)).
Qed.

Lemma exhausted_urls_elem w urls u : u ∈ exhausted_urls w urls → u ∈ urls.
Proof.
  unfold exhausted_urls.
  generalize (PubmedDownloader.get_item w).
  induction urls as [|v urls IH]; intros get; [done |].
  rewrite imap_cons. simpl. rewrite elem_of_app. intros [Hin | Hin].
  - destruct (exhausted (get 0)); [| by apply elem_of_nil in Hin].
    apply list_elem_of_singleton in Hin as ->. by left.
  - right. exact (IH (get ∘ S) Hin).
Qed.

(** What a finished run of the HTML scheduler has added to failed_urls. *)
Lemma failed_in_final_trace w urls path m pb σ :
  0 < m →
  rtc pool.step (pool.init m pb (PubmedDownloader.tasks w urls path)) σ →
  pool.final σ = true →
  failed_in (pool.trace σ) ≡ₚ exhausted_urls w urls.
Proof.
  intros Hm Hrtc Hfin.
  pose proof (final_trace m pb _ σ Hm Hrtc Hfin) as Htr.
  unfold failed_in at 1. rewrite Htr.
  fold (failed_in (flat_map pool.t_todo (PubmedDownloader.tasks w urls path)
                   ++ (if pb
                       then replicate
                              (length (PubmedDownloader.tasks w urls path))
                              AProgress
                       else []))).
  rewrite failed_in_app, failed_in_flat_map, failed_in_http_tasks.
  destruct pb; rewrite ?failed_in_progress; by rewrite app_nil_r.
Qed.

Lemma exhausted_false get k resp :
  1 ≤ k ≤ 6 → get k = Return resp → exhausted get = false.
Proof.
  intros Hk Hget. destruct (exhausted get) eqn:He; [| done].
  pose proof (proj1 (exhausted_spec get) He k Hk) as Hr.
  by rewrite Hget in Hr.
Qed.

Lemma filter_length_Permutation (f : action → bool) (l l' : list action) :
  l ≡ₚ l' → length (List.filter f l) = length (List.filter f l').
Proof.
  induction 1 as [|a l l' _ IH|a b l|l1 l2 l3 _ IH1 _ IH2]; simpl.
  - done.
  - destruct (f a); simpl; by rewrite IH.
  - by destruct (f a), (f b).
  - by rewrite IH1.
Qed.

Lemma filter_flat_map_length (f : action → bool) (ts : list pool.task) :
  length (List.filter f (flat_map pool.t_todo ts))
  = sum_list_with (λ t, length (List.filter f (pool.t_todo t))) ts.
Proof.
  induction ts as [|t ts IH]; simpl; [done |].
  by rewrite List.filter_app, length_app, IH.
Qed.

Lemma sum_list_with_bounds (g : pool.task → nat) (a b : nat)
    (ts : list pool.task) :
  (∀ t, t ∈ ts → a ≤ g t ≤ b) →
  a * length ts ≤ sum_list_with g ts ≤ b * length ts.
Proof.
  induction ts as [|t ts IH]; intros H; simpl; [lia |].
  pose proof (H t ltac:(left)) as Ht.
  assert (∀ t', t' ∈ ts → a ≤ g t' ≤ b) as H' by (intros; apply H; by right).
  specialize (IH H'). lia.
Qed.

Lemma filter_replicate (f : action → bool) n a :
  length (List.filter f (replicate n a)) = if f a then n else 0.
Proof.
  induction n as [|n IH]; simpl; [by destruct (f a) |].
  destruct (f a); simpl; by rewrite ?IH.
Qed.

(** One call of the HTML fetcher: between one and six requests, and no
    touch of the progress bar. *)
Lemma http_fetch_counts get rnd os_open url path :
  let acts := (PubmedDownloader.download_file get rnd os_open url path).1 in
  1 ≤ length (List.filter is_get acts) ≤ 6
  ∧ length (List.filter is_progress acts) = 0.
Proof.
  cbv zeta.
  destruct (attempts_cases get 6) as [Hraise | (k & resp & Hk & Hlt & Hget)].
  - rewrite (http_facts.download_file_exhausted get rnd os_open url path Hraise).
    cbn [fst].
    rewrite !List.filter_app, !length_app, failed_attempts_gets.
    rewrite (failed_attempts_filter_nil is_progress) by done.
    simpl. lia.
  - rewrite (http_facts.download_file_responds get rnd os_open url path k resp
               Hk Hlt Hget).
    cbv zeta.
    destruct (os_open _) as [[]|e]; cbn [fst];
      rewrite !List.filter_app, !length_app, failed_attempts_gets;
      rewrite (failed_attempts_filter_nil is_progress) by done;
      simpl; lia.
Qed.

(** One call of the FTP fetcher: one connection, at most one RETR, and no
    touch of the progress bar. *)
Lemma ftp_fetch_counts s os_open filename self :
  let acts := (FTPDownloader.download_file s os_open filename self).2.1 in
  length (List.filter is_connect acts) = 1
  ∧ length (List.filter is_retr acts) ≤ 1
  ∧ length (List.filter is_progress acts) = 0.
Proof.
  unfold_ftp.
  destruct (FTPDownloader.connect s) as [[]|?]; simpl; [| by auto].
  destruct (FTPDownloader.login s) as [[]|?]; simpl; [| by auto].
  destruct (FTPDownloader.cwd self) as [dir|]; simpl; [| by auto].
  destruct (FTPDownloader.chdir s dir) as [[]|?]; simpl; [| by auto].
  destruct (os_open _) as [[]|?]; simpl; [| by auto].
  destruct (FTPDownloader.pwd s) as [d|?]; simpl; [| by auto].
  destruct (FTPDownloader.retr s filename) as [blocks [[]|?]]; simpl;
    rewrite ?app_nil_r, <- ?app_assoc;
    rewrite ?List.filter_app, ?length_app,
      ?(writes_filter is_progress), ?(writes_filter is_connect),
      ?(writes_filter is_retr) by done;
    simpl; by auto.
Qed.

Lemma http_tasks_elem w urls path t :
  t ∈ PubmedDownloader.tasks w urls path →
  ∃ i url,
    pool.t_todo t
    = (PubmedDownloader.download_file (PubmedDownloader.get_item w i)
         (PubmedDownloader.random w i) (PubmedDownloader.os_open w) url path).1.
Proof.
  unfold PubmedDownloader.tasks. intros Ht.
  apply elem_of_lookup_imap in Ht as (i & url & -> & _).
  exists i, url. by destruct (PubmedDownloader.download_file _ _ _ _ _).
Qed.

Lemma ftp_tasks_elem w self t :
  t ∈ FTPDownloader.tasks w self →
  ∃ i name,
    pool.t_todo t
    = (FTPDownloader.download_file (FTPDownloader.transfer w i)
         (FTPDownloader.os_open w) name self).2.1.
Proof.
  unfold FTPDownloader.tasks. intros Ht.
  apply elem_of_lookup_imap in Ht as (i & name & -> & _).
  exists i, name. by destruct (FTPDownloader.download_file _ _ _ _).2.
Qed.

(** What a finished pool has done, counted. *)
Lemma final_trace_count (f : action → bool) m pb items σ :
  0 < m → rtc pool.step (pool.init m pb items) σ → pool.final σ = true →
  length (List.filter f (pool.trace σ))
  = sum_list_with (λ t, length (List.filter f (pool.t_todo t))) items
    + (if pb && f AProgress then length items else 0).
Proof.
  intros Hm Hrtc Hfin.
  rewrite (filter_length_Permutation f _ _ (final_trace m pb items σ Hm Hrtc Hfin)).
  rewrite List.filter_app, length_app, filter_flat_map_length.
  f_equal. destruct pb; simpl; [| done].
  apply filter_replicate.
Qed.

(** ** What the items leave on record *)

Lemma http_tasks_lookup w urls path i url :
  urls !! i = Some url →
  ∃ t, PubmedDownloader.tasks w urls path !! i = Some t
       ∧ pool.t_id t = i
       ∧ (pool.t_todo t, pool.t_result t)
         = PubmedDownloader.download_file (PubmedDownloader.get_item w i)
             (PubmedDownloader.random w i) (PubmedDownloader.os_open w) url
             path.
Proof.
  intros Hi. unfold PubmedDownloader.tasks.
  rewrite list_lookup_imap, Hi. simpl.
  destruct (PubmedDownloader.download_file _ _ _ _ _) as [a r].
  eexists. by split.
Qed.

Lemma ftp_tasks_lookup w self i name :
  FTPDownloader.filtered_fileNames self !! i = Some name →
  ∃ t, FTPDownloader.tasks w self !! i = Some t
       ∧ pool.t_id t = i
       ∧ (pool.t_todo t, pool.t_result t)
         = (FTPDownloader.download_file (FTPDownloader.transfer w i)
              (FTPDownloader.os_open w) name self).2.
Proof.
  intros Hi. unfold FTPDownloader.tasks.
  rewrite list_lookup_imap, Hi. simpl.
  destruct (FTPDownloader.download_file _ _ _ _).2 as [a r].
  eexists. by split.
Qed.

(** What one call of the HTML fetcher leaves on record. *)
Lemma download_file_record get rnd os_open url path :
  let file := joinpath path (basename url) in
  let '(acts, r) := PubmedDownloader.download_file get rnd os_open url path in
  if exhausted get
  then List.filter is_record acts = [AFailed url] ∧ r = Return tt
  else match os_open file with
       | Return _ => List.filter is_record acts = [AOpen file]
                     ∧ r = Raise TypeError
       | Raise e => List.filter is_record acts = [] ∧ r = Raise e
       end.
Proof.
  cbv zeta.
  destruct (attempts_cases get 6) as [Hraise | (k & resp & Hk & Hlt & Hget)].
  - rewrite (http_facts.download_file_exhausted get rnd os_open url path Hraise).
    rewrite (proj2 (exhausted_spec get) Hraise).
    rewrite !List.filter_app.
    by rewrite (failed_attempts_filter_nil is_record).
  - rewrite (http_facts.download_file_responds get rnd os_open url path k resp
               Hk Hlt Hget).
    rewrite (exhausted_false get k resp Hk Hget). cbv zeta.
    destruct (os_open _) as [[]|e];
      rewrite !List.filter_app;
      by rewrite (failed_attempts_filter_nil is_record).
Qed.

Lemma http_fetch_record_count get rnd os_open url path :
  length (List.filter is_record
            (PubmedDownloader.download_file get rnd os_open url path).1) ≤ 1.
Proof.
  pose proof (download_file_record get rnd os_open url path) as H.
  cbv zeta in H.
  destruct (PubmedDownloader.download_file _ _ _ _ _) as [acts r].
  cbn [fst].
  destruct (exhausted get); [destruct H as [-> _]; simpl; lia |].
  destruct (os_open _); destruct H as [-> _]; simpl; lia.
Qed.

(** The FTP fetcher logs at INFO level only and records no failure. *)
Lemma ftp_fetch_quiet s os_open filename self :
  let acts := (FTPDownloader.download_file s os_open filename self).2.1 in
  List.filter is_alarm acts = [] ∧ failed_in acts = [].
Proof.
  unfold_ftp.
  destruct (FTPDownloader.connect s) as [[]|?]; simpl; [| by auto].
  destruct (FTPDownloader.login s) as [[]|?]; simpl; [| by auto].
  destruct (FTPDownloader.cwd self) as [dir|]; simpl; [| by auto].
  destruct (FTPDownloader.chdir s dir) as [[]|?]; simpl; [| by auto].
  destruct (os_open _) as [[]|?]; simpl; [| by auto].
  destruct (FTPDownloader.pwd s) as [d|?]; simpl; [| by auto].
  destruct (FTPDownloader.retr s filename) as [blocks [[]|?]]; simpl;
    rewrite ?app_nil_r, <- ?app_assoc;
    rewrite ?List.filter_app, ?failed_in_app, ?writes_failed_in,
      ?(writes_filter is_alarm) by done;
    simpl; by auto.
Qed.

(** A finished run of the HTML scheduler has left at most one record per
    item. *)
Lemma trace_record_count w urls path m pb σ :
  0 < m →
  rtc pool.step (pool.init m pb (PubmedDownloader.tasks w urls path)) σ →
  pool.final σ = true →
  length (List.filter is_record (pool.trace σ)) ≤ length urls.
Proof.
  intros Hm Hrtc Hfin.
  rewrite (final_trace_count is_record m pb _ σ Hm Hrtc Hfin).
  rewrite andb_false_r, Nat.add_0_r.
  destruct (sum_list_with_bounds
              (λ t, length (List.filter is_record (pool.t_todo t))) 0 1
              (PubmedDownloader.tasks w urls path)) as [_ Hle].
  { intros t Hin. apply http_tasks_elem in Hin as (i & url & ->).
    pose proof (http_fetch_record_count (PubmedDownloader.get_item w i)
                  (PubmedDownloader.random w i) (PubmedDownloader.os_open w)
                  url path). lia. }
  rewrite length_http_tasks in Hle. lia.
Qed.

(** A finished run of the FTP scheduler has logged nothing at WARNING or
    ERROR level. *)
Lemma trace_ftp_quiet w self m pb σ :
  0 < m →
  rtc pool.step (pool.init m pb (FTPDownloader.tasks w self)) σ →
  pool.final σ = true →
  List.filter is_alarm (pool.trace σ) = [].
Proof.
  intros Hm Hrtc Hfin. apply nil_length_inv.
  rewrite (final_trace_count is_alarm m pb _ σ Hm Hrtc Hfin).
  rewrite andb_false_r, Nat.add_0_r.
  destruct (sum_list_with_bounds
              (λ t, length (List.filter is_alarm (pool.t_todo t))) 0 0
              (FTPDownloader.tasks w self)) as [_ Hle]; [| lia].
  intros t Hin. apply ftp_tasks_elem in Hin as (i & name & ->).
  destruct (ftp_fetch_quiet (FTPDownloader.transfer w i)
              (FTPDownloader.os_open w) name self) as [-> _].
  simpl. lia.
Qed.

(** Every complete run of the pool on the items of the HTML scheduler. *)
Lemma http_runs w urls path m pb :
  0 < m →
  ∀ σ, rtc pool.step (pool.init m pb (PubmedDownloader.tasks w urls path)) σ →
       pool.final σ = true →
       pool.trace σ
       ≡ₚ flat_map pool.t_todo (PubmedDownloader.tasks w urls path)
          ++ (if pb then replicate (length urls) AProgress else [])
       ∧ pool.completed σ ≡ₚ map pool.outcome (PubmedDownloader.tasks w urls path)
       ∧ map fst (pool.completed σ) ≡ₚ seq 0 (length urls)
       ∧ pool.yielded σ = length urls.
Proof.
  intros Hm σ Hrtc Hfin.
  destruct (pool_final_outcomes _ _ _ _ Hm Hrtc Hfin) as (H1 & H2 & _ & H4).
  rewrite http_tasks_ids in H2. rewrite length_http_tasks in H4.
  split; [| done].
  rewrite <- (length_http_tasks w urls path) at 1.
  by apply (final_trace m).
Qed.

(** Every complete run of the pool on the items of the FTP scheduler. *)
Lemma ftp_runs w self m pb :
  0 < m →
  ∀ σ, rtc pool.step (pool.init m pb (FTPDownloader.tasks w self)) σ →
       pool.final σ = true →
       pool.trace σ
       ≡ₚ flat_map pool.t_todo (FTPDownloader.tasks w self)
          ++ (if pb
              then replicate (length (FTPDownloader.filtered_fileNames self))
                     AProgress
              else [])
       ∧ pool.completed σ ≡ₚ map pool.outcome (FTPDownloader.tasks w self)
       ∧ map fst (pool.completed σ)
         ≡ₚ seq 0 (length (FTPDownloader.filtered_fileNames self))
       ∧ pool.yielded σ = length (FTPDownloader.filtered_fileNames self).
Proof.
  intros Hm σ Hrtc Hfin.
  destruct (pool_final_outcomes _ _ _ _ Hm Hrtc Hfin) as (H1 & H2 & _ & H4).
  rewrite ftp_tasks_ids in H2. rewrite length_ftp_tasks in H4.
  split; [| done].
  rewrite <- (length_ftp_tasks w self) at 1.
  by apply (final_trace m).
Qed.

(** * The statements of the specification, C1 to C10 *)

(** ** C1. A root that cannot be listed *)

(** C1 as stated fails for the HTML variant: a root answered with status
    404 makes find_urls return normally; the run goes on, the filter is
    applied (to no links) and main returns without an error. *)
Lemma http_404_root_is_not_fatal :
  let w := http_world (Return (Response 404 "Not Found"))
             (λ _ _, Raise RequestException) in
  let '(self, (acts, r)) :=
    PubmedDownloader.main join_after no_links any_pattern w "out" "http://h/"
      ".*" None in
  (PubmedDownloader.find_urls join_after no_links (PubmedDownloader.get_page w)
     "http://h/" PubmedDownloader.__init__).2.2 = Return tt
  ∧ r = Return tt
  ∧ ALog INFO "filtered {} urls on {} using regular expression: {}"
      [ANat 0; AStr "http://h/"; AStr ".*"] ∈ acts.
Proof.
  split; [reflexivity |]. split; [reflexivity |].
  apply list_elem_of_In. simpl. tauto.
Qed.

(** The step of the listing that failed is the one whose answer is a raise. *)
Ltac listing_fails :=
  let e := fresh "e" in
  let Hfail := fresh "Hfail" in
  intros e Hfail;
  destruct Hfail as [? | [? [? | [? [? | [? ?]]]]]]; simplify_eq; done.

(** C1, amended: in the HTML variant a root answered with a status other
    than 200 makes find_urls log an error and return normally without any
    link; the run continues, the filter finds nothing, the scheduler returns
    at once, and main ends normally (or with the pattern's compile error)
    having made no request but the root's and touched no file but the log
    file.  A root whose
    request raises (HTML), or whose FTP connection, login, directory change
    or listing fails, raises out of discovery and ends the run at once:
    nothing is filtered, logged, fetched or written. *)
Theorem discovery_failure_outcomes
    (urljoin : string → string → string) (parse : string → list string)
    (compile : string → option re.pattern)
    (w : PubmedDownloader.world) (w' : FTPDownloader.world)
    (path url host host_wd reg_ex : string) (threads : option Z) :
  PubmedDownloader.isdir w path = true →
  FTPDownloader.isdir w' path = true →
  (let '(self, (acts, r)) :=
     PubmedDownloader.main urljoin parse compile w path url reg_ex threads in
   (∀ resp,
      PubmedDownloader.get_page w url = Return resp →
      status_code resp ≠ 200%Z →
      r = match compile reg_ex with
          | Some _ => Return tt
          | None => Raise ReError
          end
      ∧ ALog ERROR "" [] ∈ acts
      ∧ List.filter is_network acts = [AGet url None]
      ∧ List.filter is_file_access acts = []
      ∧ PubmedDownloader.filtered_urls self = []
      ∧ PubmedDownloader.failed_urls self = [])
   ∧ (∀ e,
        PubmedDownloader.get_page w url = Raise e →
        r = Raise e
        ∧ acts = ABasicConfig "pubmed_downloader.log"
                 :: (warn_threads (default 3%Z threads)).1
                 ++ [AGet url None]))
  ∧ (let '(self, (acts, r)) :=
       FTPDownloader.main compile w' path host host_wd reg_ex threads in
     let s := FTPDownloader.listing w' in
     ∀ e,
       FTPDownloader.connect s = Raise e
       ∨ FTPDownloader.connect s = Return tt
         ∧ (FTPDownloader.login s = Raise e
            ∨ FTPDownloader.login s = Return tt
              ∧ (FTPDownloader.chdir s host_wd = Raise e
                 ∨ FTPDownloader.chdir s host_wd = Return tt
                   ∧ FTPDownloader.nlst s = Raise e)) →
       r = Raise e
       ∧ List.filter is_log acts = []
       ∧ List.filter is_file_access acts = []
       ∧ List.filter is_retr acts = []
       ∧ FTPDownloader.filtered_fileNames self = []).
Proof.
  intros Hdir Hdir'. split.
  - unfold PubmedDownloader.main, PubmedDownloader.find_urls,
      PubmedDownloader.filter_urls, PubmedDownloader.download_urls,
      warn_threads.
    unfold mbind, M_bind, m_bind, mret, M_ret, m_ret, modify, lift, gets, ask,
      perform, raise, logging, t_ret.
    simpl. rewrite Hdir. simpl.
    destruct (PubmedDownloader.get_page w url) as [resp|e]; simpl.
    + destruct (Z.eqb_spec (status_code resp) 200) as [Heq | Hne]; simpl.
      * destruct (10 <? default 3 threads)%Z; simpl;
          destruct (compile reg_ex); simpl;
          repeat case_match; simplify_eq;
          (split; [intros ? [= <-] ? | intros ? [=]]); done.
      * destruct (10 <? default 3 threads)%Z; simpl;
          destruct (compile reg_ex); simpl;
          (split; [intros ? _ _ | intros ? [=]]);
          repeat split; try done;
          apply list_elem_of_In; simpl; tauto.
    + destruct (10 <? default 3 threads)%Z; simpl;
        (split; [intros ? [=] | intros ? [= <-]]); done.
  - unfold FTPDownloader.main, FTPDownloader.find_files,
      FTPDownloader.set_download_dir, FTPDownloader.with_FTP,
      FTPDownloader.ftp_cwd, warn_threads.
    unfold mbind, M_bind, m_bind, mret, M_ret, m_ret, modify, lift, gets, ask,
      perform, raise, logging, t_ret, finally.
    simpl. rewrite Hdir'. simpl.
    destruct (FTPDownloader.connect (FTPDownloader.listing w')) as [[]|e1];
      simpl.
    + destruct (FTPDownloader.login (FTPDownloader.listing w')) as [[]|e2];
        simpl.
      * destruct (FTPDownloader.chdir (FTPDownloader.listing w') host_wd)
          as [[]|e3]; simpl.
        -- destruct (FTPDownloader.nlst (FTPDownloader.listing w'))
             as [names|e4]; simpl.
           ++ destruct (10 <? default 3 threads)%Z; simpl;
                repeat case_match; listing_fails.
           ++ destruct (10 <? default 3 threads)%Z; simpl; listing_fails.
        -- destruct (10 <? default 3 threads)%Z; simpl; listing_fails.
      * destruct (10 <? default 3 threads)%Z; simpl; listing_fails.
    + destruct (10 <? default 3 threads)%Z; simpl; listing_fails.
Qed.

Lemma discovery_failure_outcomes_witness :
  let w := http_world (Return (Response 404 "Not Found"))
             (λ _ _, Raise RequestException) in
  let '(self, (acts, r)) :=
    PubmedDownloader.main join_after no_links any_pattern w "out" "http://h/"
      ".*" None in
  r = Return tt
  ∧ List.filter is_network acts = [AGet "http://h/" None]
  ∧ List.filter is_file_access acts = [].
Proof.
  generalize (discovery_failure_outcomes join_after no_links any_pattern
                       (http_world (Return (Response 404 "Not Found"))
                          (λ _ _, Raise RequestException))
                       (ftp_world login_refused (λ _, login_refused))
                       "out" "http://h/" "h" "/pubmed/baseline/" ".*" None
                       eq_refl eq_refl).
  cbv zeta.
  destruct (PubmedDownloader.main _ _ _ _ _ _ _ _) as [self [acts r]].
  intros [[H _] _].
  destruct (H (Response 404 "Not Found") eq_refl ltac:(discriminate))
    as (Hr & _ & Hnet & Hfile & _).
  repeat split; [exact Hr | exact Hnet | exact Hfile].
Defined.

(** ** C2. The pattern filter: what is matched *)

(** C2: the pattern is matched against the identifier as discovered, the
    href text in the HTML variant and the file name in the FTP variant, and
    an item is kept exactly when the pattern matches from position 0 up to
    some position, which need not be the end of the string. *)
Theorem filter_matches_raw_identifier_at_start
    (urljoin : string → string → string)
    (compile : string → option re.pattern) (reg_ex : string) (p : re.pattern) :
  compile reg_ex = Some p →
  (∀ self,
     PubmedDownloader.filtered_urls
       (PubmedDownloader.filter_urls urljoin compile reg_ex self).1
     = map (urljoin (PubmedDownloader.start_url self))
         (List.filter (re.match_ p) (PubmedDownloader._links self)))
  ∧ (∀ self,
       FTPDownloader.filtered_fileNames
         (FTPDownloader.filter_files compile reg_ex self).1
       = List.filter (re.match_ p) (FTPDownloader.all_fileNames self))
  ∧ (∀ s, re.match_ p s = true
          ↔ ∃ j, j ≤ String.length s ∧ re.Matches s p 0 j).
Proof.
  intros Hc. repeat split.
  - intros self. by rewrite (filter_urls_compiled _ _ _ p self Hc).
  - intros self. by rewrite (filter_files_compiled _ _ p self Hc).
  - intros [j Hj]%re_facts.match_spec. exists j. split; [| done].
    apply re_facts.Matches_bounds in Hj. lia.
  - intros (j & _ & Hj). apply re_facts.match_spec. by exists j.
Qed.

Lemma filter_matches_raw_identifier_at_start_witness :
  only_a "a" = Some (re.Lit "a")
  ∧ PubmedDownloader.filtered_urls
      (PubmedDownloader.filter_urls join_after only_a "a"
         (PubmedDownloader.Self ["a.xml.gz"; "b.xml.gz"] [] [] [] "http://h/" None)).1
    = ["http://h/a.xml.gz"]
  ∧ re.match_ (re.Lit "a") "http://h/a.xml.gz" = false.
Proof.
  split; [reflexivity |].
  destruct (filter_matches_raw_identifier_at_start join_after only_a "a"
              (re.Lit "a") eq_refl) as (Hhtml & _ & _).
  split; [| reflexivity].
  rewrite Hhtml. reflexivity.
Defined.

(** ** C3. The pattern filter: what is kept *)

(** C3: the filtered list is a subsequence of the discovered list, in
    discovery order and no longer than it, and each of its elements comes
    from an entry whose identifier the pattern matches.  For the HTML
    variant this is said of the links as found, of their resolved urls, and
    of all_urls as find_urls leaves it. *)
Theorem filtered_is_matching_subsequence
    (urljoin : string → string → string)
    (compile : string → option re.pattern) (reg_ex : string) (p : re.pattern) :
  compile reg_ex = Some p →
  (∀ self,
     let self' := (PubmedDownloader.filter_urls urljoin compile reg_ex self).1 in
     let resolve := urljoin (PubmedDownloader.start_url self) in
     ∃ kept,
       kept `sublist_of` PubmedDownloader._links self
       ∧ Forall (λ href, re.match_ p href = true) kept
       ∧ PubmedDownloader.filtered_urls self' = map resolve kept
       ∧ PubmedDownloader.filtered_urls self'
         `sublist_of` map resolve (PubmedDownloader._links self)
       ∧ length (PubmedDownloader.filtered_urls self')
         ≤ length (PubmedDownloader._links self))
  ∧ (∀ parse get url resp self,
       get url = Return resp → status_code resp = 200%Z →
       let found := (PubmedDownloader.find_urls urljoin parse get url self).1 in
       let self' := (PubmedDownloader.filter_urls urljoin compile reg_ex found).1 in
       PubmedDownloader.all_urls self' = PubmedDownloader.all_urls found
       ∧ PubmedDownloader.filtered_urls self'
         `sublist_of` PubmedDownloader.all_urls found
       ∧ length (PubmedDownloader.filtered_urls self')
         ≤ length (PubmedDownloader.all_urls found))
  ∧ (∀ self,
       let self' := (FTPDownloader.filter_files compile reg_ex self).1 in
       FTPDownloader.filtered_fileNames self'
       `sublist_of` FTPDownloader.all_fileNames self
       ∧ Forall (λ name, re.match_ p name = true)
           (FTPDownloader.filtered_fileNames self')
       ∧ length (FTPDownloader.filtered_fileNames self')
         ≤ length (FTPDownloader.all_fileNames self)).
Proof.
  intros Hc. split; [| split].
  - intros self. simpl. rewrite (filter_urls_compiled _ _ _ p self Hc). simpl.
    exists (List.filter (re.match_ p) (PubmedDownloader._links self)).
    pose proof (filter_sublist (re.match_ p) (PubmedDownloader._links self)) as Hs.
    repeat split.
    + done.
    + apply filter_Forall.
    + by apply map_sublist.
    + rewrite length_map. by apply sublist_length.
  - intros parse get url resp self Hget Hst. cbv zeta.
    rewrite (find_urls_ok urljoin parse get url self resp Hget Hst). cbv zeta.
    rewrite (filter_urls_compiled _ _ _ p _ Hc). simpl.
    pose proof (filter_sublist (re.match_ p) (parse (content resp))) as Hs.
    repeat split.
    + by apply map_sublist.
    + rewrite !length_map. by apply sublist_length.
  - intros self. simpl. rewrite (filter_files_compiled _ _ p self Hc). simpl.
    pose proof (filter_sublist (re.match_ p) (FTPDownloader.all_fileNames self)) as Hs.
    repeat split.
    + done.
    + apply filter_Forall.
    + by apply sublist_length.
Qed.

Lemma filtered_is_matching_subsequence_witness :
  only_a "a" = Some (re.Lit "a")
  ∧ FTPDownloader.filtered_fileNames
      (FTPDownloader.filter_files only_a "a"
         (FTPDownloader.Self "h" None ["ab"; "ba"; "a"] [] "" None)).1
    `sublist_of` ["ab"; "ba"; "a"].
Proof.
  split; [reflexivity |].
  destruct (filtered_is_matching_subsequence join_after only_a "a"
              (re.Lit "a") eq_refl) as (_ & _ & Hftp).
  exact (proj1 (Hftp (FTPDownloader.Self "h" None ["ab"; "ba"; "a"] [] "" None))).
Defined.

(** ** C4. Retrying *)




(** ** C5. When the destination file is written *)

(** C5 as stated fails for the FTP variant: the file is opened, and an
    earlier complete file of that name truncated, before the transfer
    starts; a transfer that breaks off after the block [ab] leaves [ab]
    under the expected name. *)
Lemma ftp_interrupted_transfer_leaves_truncated_file :
  let '(acts, r) :=
    (FTPDownloader.download_file (failing_transfer ["ab"]) open_ok "f.gz"
       ftp_self).2 in
  r = Raise FTPError
  ∧ fs_after acts {[ "out/f.gz" := "abcdef" ]} !! "out/f.gz" = Some "ab".
Proof. split; reflexivity. Qed.

(** C5, amended: in the HTML variant every file operation comes after all
    network activity of the call, the destination file is opened only once
    a response is in and its whole body is written in one write, and a fetch
    whose attempts all raise touches no file.  In the FTP variant the
    destination file is opened, and truncated, before RETR is sent and each
    block is written as it arrives, so that after the call the file holds
    the blocks received, whether or not the transfer completed. *)
Theorem file_is_written_after_or_during_transfer
    (get : nat → result response) (rnd : nat → Q → Q)
    (os_open : string → result unit) (url path : string)
    (s : FTPDownloader.session) (filename : string) (self : FTPDownloader.t) :
  (let file := joinpath path (basename url) in
   let '(acts, r) := PubmedDownloader.download_file get rnd os_open url path in
   ∃ net disk,
     acts = net ++ disk
     ∧ List.filter is_file_access net = []
     ∧ List.filter is_network disk = []
     ∧ (disk = []
        ∨ ∃ k resp, get k = Return resp
                    ∧ disk = [AOpen file; AWrite file (content resp);
                              AClose file])
     ∧ ((∀ n, 1 ≤ n ≤ 6 → is_raise (get n) = true) →
        disk = [] ∧ ∀ fs, fs_after acts fs = fs))
  ∧ (let file := joinpath (FTPDownloader.download_dir self) filename in
     let '(acts, r) :=
       (FTPDownloader.download_file s os_open filename self).2 in
     ∀ dir d blocks r',
       FTPDownloader.cwd self = Some dir →
       FTPDownloader.connect s = Return tt →
       FTPDownloader.login s = Return tt →
       FTPDownloader.chdir s dir = Return tt →
       os_open file = Return tt →
       FTPDownloader.pwd s = Return d →
       FTPDownloader.retr s filename = (blocks, r') →
       r = r'
       ∧ (∃ pre post,
            acts = pre ++ AOpen file :: post
            ∧ List.filter is_retr pre = []
            ∧ List.filter is_retr post = [AFtp (Retr filename)])
       ∧ ∀ fs, fs_after acts fs !! file = Some (String.concat "" blocks)).
Proof.
  split.
  - intros file.
    destruct (attempts_cases get 6) as [Hraise | (k & resp & Hk & Hlt & Hget)].
    + rewrite (http_facts.download_file_exhausted get rnd os_open url path Hraise).
      set (acts := failed_attempts _ _ _ _ ++ _).
      assert (List.filter is_file_access acts = []) as Hquiet.
      { unfold acts. rewrite List.filter_app.
        by rewrite failed_attempts_filter_nil. }
      exists acts, []. rewrite app_nil_r.
      repeat split; auto; intros; by apply fs_after_no_access.
    + rewrite (http_facts.download_file_responds get rnd os_open url path k resp
                 Hk Hlt Hget).
      cbv zeta. fold file.
      set (before := failed_attempts _ _ _ _ ++ _).
      assert (List.filter is_file_access before = []) as Hquiet.
      { unfold before. rewrite List.filter_app.
        by rewrite failed_attempts_filter_nil. }
      assert ((∀ n, 1 ≤ n ≤ 6 → is_raise (get n) = true) → False) as Hno.
      { intros Hall. specialize (Hall k ltac:(lia)). by rewrite Hget in Hall. }
      destruct (os_open file) as [[]|e].
      * exists before, [AOpen file; AWrite file (content resp); AClose file].
        split; [done |]. split; [done |]. split; [done |].
        split; [right; by exists k, resp |].
        intros Hall. destruct (Hno Hall).
      * exists before, []. rewrite app_nil_r.
        split; [done |]. split; [done |]. split; [done |].
        split; [by left |].
        intros Hall. destruct (Hno Hall).
  - intros file.
    destruct (FTPDownloader.download_file s os_open filename self).2
      as [acts r] eqn:Hdl.
    intros dir d blocks r' Hcwd Hc Hl Hd Ho Hp Hr.
    rewrite (download_file_ftp s os_open filename self dir d blocks r')
      in Hdl by done.
    cbv zeta in Hdl. fold file in Hdl. simpl in Hdl.
    injection Hdl as <- <-. split; [done |]. split.
    + exists [AFtp (Connect (FTPDownloader._host self)); AFtp Login;
              AFtp (Cwd dir)].
      eexists. split; [reflexivity |]. split; [done |].
      simpl. rewrite !List.filter_app, (writes_filter is_retr) by done.
      by destruct r' as [[]|?].
    + intros fs.
      change (fs_after ?l fs) with
        (fs_after
           ([AFtp Pwd;
             ALog INFO "Downloading {} from {}"
               [AStr filename; AStr (FTPDownloader._host self +:+ d)];
             AFtp (Retr filename)]
            ++ map (AWrite file) blocks
            ++ match r' with
               | Return _ =>
                   [AFtp Pwd;
                    ALog INFO "Retrieved {} from {}"
                      [AStr filename; AStr (FTPDownloader._host self +:+ d)]]
               | Raise _ => []
               end ++ [AClose file; AFtp Quit])
           (<[file := ""]> fs)).
      rewrite !fs_after_app.
      rewrite (fs_after_no_write [AClose file; AFtp Quit]) by done.
      rewrite (fs_after_no_write (match r' with Return _ => _ | Raise _ => _ end))
        by (by destruct r' as [[]|?]).
      rewrite fs_after_writes.
      change (fs_after [AFtp Pwd; _; AFtp (Retr filename)] (<[file:=""]> fs))
        with (<[file:=""]> fs).
      rewrite lookup_insert_eq. by destruct blocks.
Qed.

Lemma file_is_written_after_or_during_transfer_witness :
  let '(acts, r) :=
    (FTPDownloader.download_file (failing_transfer ["ab"; "cd"]) open_ok
       "f.gz" ftp_self).2 in
  r = Raise FTPError
  ∧ (∃ pre post,
       acts = pre ++ AOpen "out/f.gz" :: post
       ∧ List.filter is_retr pre = []
       ∧ List.filter is_retr post = [AFtp (Retr "f.gz")])
  ∧ ∀ fs, fs_after acts fs !! "out/f.gz" = Some "abcd".
Proof.
  pose proof (proj2 (file_is_written_after_or_during_transfer
                       never_responds half open_ok "http://h/a.xml.gz" "out"
                       (failing_transfer ["ab"; "cd"]) "f.gz" ftp_self)) as H.
  cbv zeta in H.
  destruct (FTPDownloader.download_file _ _ _ _).2 as [acts r].
  exact (H "/pubmed/baseline/" "/pubmed/baseline" ["ab"; "cd"] (Raise FTPError)
           eq_refl eq_refl eq_refl eq_refl eq_refl eq_refl eq_refl).
Defined.

(** ** C6. One fetch per item, and what is on record *)

(** C6 as stated fails: the result of a call is kept only in its future,
    which is never read.  In the HTML variant two urls that are answered but
    whose files cannot be opened leave no file and no entry in failed_urls,
    and the scheduler returns normally: two items, no recorded outcome.  In
    the FTP variant a transfer that breaks off raises in its thread, while
    the scheduler returns normally, the instance is as before and nothing
    is logged at WARNING or ERROR level. *)
Lemma items_without_recorded_outcome :
  (let '(self2, (acts, r)) :=
     PubmedDownloader.download_urls nothing_writable "out" (Some 3%Z)
       (Some false) two_urls in
   r = Return tt
   ∧ length (PubmedDownloader.filtered_urls two_urls) = 2
   ∧ PubmedDownloader.failed_urls self2 = []
   ∧ List.filter is_record acts = []
   ∧ List.filter is_file_access acts = [])
  ∧ (let w := ftp_world (serving []) (λ _, failing_transfer ["ab"]) in
     let '(self2, (acts, r)) :=
       FTPDownloader.download_files w (Some 3%Z) (Some false) ftp_self in
     r = Return tt
     ∧ self2 = ftp_self
     ∧ List.filter is_alarm acts = []
     ∧ (FTPDownloader.download_file (failing_transfer ["ab"]) open_ok "f.gz"
          ftp_self).2.2 = Raise FTPError).
Proof. vm_compute. repeat split. Qed.

(** C6, amended: every filtered item is handed to the scheduler as one call
    of download_file and, with a positive thread count, that call is run
    exactly once however the threads interleave: the scheduler's actions are
    its two log records around a rearrangement of the actions of one call
    per item, plus one advance of the progress bar per item when the bar is
    on; one future per item completes, carrying what the call returned or
    raised, and the loop takes each once; the scheduler returns normally.
    The futures are never read, so what is on record is less than one
    outcome per item.  In the HTML variant a call leaves an entry in
    failed_urls when its six requests all raised, a created file when the
    url was answered and the file could be opened, and nothing when the url
    was answered and the file could not be opened; failed_urls grows by
    exactly the urls that were never answered, and the records number at
    most the filtered urls.  In the FTP variant the instance is left as it
    was and nothing is logged at WARNING or ERROR level, whatever happened
    to the items. *)
Theorem every_item_is_fetched_once
    (w : PubmedDownloader.world) (w' : FTPDownloader.world)
    (path : string) (threads : Z) (pb : bool)
    (self : PubmedDownloader.t) (self' : FTPDownloader.t) :
  (0 < threads)%Z →
  (let urls := PubmedDownloader.filtered_urls self in
   let items := PubmedDownloader.tasks w urls path in
   let '(self2, (acts, r)) :=
     PubmedDownloader.download_urls w path (Some threads) (Some pb) self in
   r = Return tt
   ∧ length items = length urls
   ∧ (∀ i url,
        urls !! i = Some url →
        ∃ t, items !! i = Some t
             ∧ pool.t_id t = i
             ∧ (pool.t_todo t, pool.t_result t)
               = PubmedDownloader.download_file
                   (PubmedDownloader.get_item w i)
                   (PubmedDownloader.random w i)
                   (PubmedDownloader.os_open w) url path)
   ∧ (∀ σ, rtc pool.step (pool.init (Z.to_nat threads) pb items) σ →
           pool.final σ = true →
           pool.trace σ
           ≡ₚ flat_map pool.t_todo items
              ++ (if pb then replicate (length urls) AProgress else [])
           ∧ pool.completed σ ≡ₚ map pool.outcome items
           ∧ map fst (pool.completed σ) ≡ₚ seq 0 (length urls)
           ∧ pool.yielded σ = length urls)
   ∧ (urls ≠ [] →
      ∃ σ, rtc pool.step (pool.init (Z.to_nat threads) pb items) σ
           ∧ pool.final σ = true
           ∧ acts = ALog INFO "Starting download of {} urls"
                      [ANat (length urls)]
                    :: pool.trace σ ++ [ALog INFO "Download finished" []])
   ∧ (∃ added,
        PubmedDownloader.failed_urls self2
        = PubmedDownloader.failed_urls self ++ added
        ∧ added ≡ₚ exhausted_urls w urls
        ∧ PubmedDownloader.set_failed_urls
            (PubmedDownloader.failed_urls self) self2 = self)
   ∧ (∀ i url,
        urls !! i = Some url →
        let file := joinpath path (basename url) in
        let '(a, ri) :=
          PubmedDownloader.download_file (PubmedDownloader.get_item w i)
            (PubmedDownloader.random w i) (PubmedDownloader.os_open w) url
            path in
        if exhausted (PubmedDownloader.get_item w i)
        then List.filter is_record a = [AFailed url] ∧ ri = Return tt
        else match PubmedDownloader.os_open w file with
             | Return _ => List.filter is_record a = [AOpen file]
                           ∧ ri = Raise TypeError
             | Raise e => List.filter is_record a = [] ∧ ri = Raise e
             end)
   ∧ length (List.filter is_record acts) ≤ length urls)
  ∧ (let names := FTPDownloader.filtered_fileNames self' in
     let items := FTPDownloader.tasks w' self' in
     let '(self2, (acts, r)) :=
       FTPDownloader.download_files w' (Some threads) (Some pb) self' in
     r = Return tt
     ∧ self2 = self'
     ∧ length items = length names
     ∧ (∀ i name,
          names !! i = Some name →
          ∃ t, items !! i = Some t
               ∧ pool.t_id t = i
               ∧ (pool.t_todo t, pool.t_result t)
                 = (FTPDownloader.download_file (FTPDownloader.transfer w' i)
                      (FTPDownloader.os_open w') name self').2)
     ∧ (∀ σ, rtc pool.step (pool.init (Z.to_nat threads) pb items) σ →
             pool.final σ = true →
             pool.trace σ
             ≡ₚ flat_map pool.t_todo items
                ++ (if pb then replicate (length names) AProgress else [])
             ∧ pool.completed σ ≡ₚ map pool.outcome items
             ∧ map fst (pool.completed σ) ≡ₚ seq 0 (length names)
             ∧ pool.yielded σ = length names)
     ∧ (names ≠ [] →
        (∃ σ, rtc pool.step (pool.init (Z.to_nat threads) pb items) σ
              ∧ pool.final σ = true
              ∧ acts = ALog INFO "Starting download of {} files"
                         [ANat (length names)]
                       :: pool.trace σ ++ [ALog INFO "Download finished" []])
        ∧ List.filter is_alarm acts = [])).
Proof.
  intros Hpos. assert (0 < Z.to_nat threads) as Hm by lia.
  split; cbv zeta.
  - pose proof (http_runs w (PubmedDownloader.filtered_urls self) path
                  (Z.to_nat threads) pb Hm) as Hruns.
    pose proof (http_tasks_lookup w (PubmedDownloader.filtered_urls self) path)
      as Hlook.
    pose proof (length_http_tasks w (PubmedDownloader.filtered_urls self) path)
      as Hlen.
    destruct (PubmedDownloader.filtered_urls self) as [|u us] eqn:Hurls.
    + assert (PubmedDownloader.download_urls w path (Some threads) (Some pb)
                self
              = (self, ([ALog WARNING "No URLs to download" []], Return tt)))
        as ->.
      { unfold PubmedDownloader.download_urls.
        unfold mbind, M_bind, m_bind, gets, lift. simpl. by rewrite Hurls. }
      split; [done |]. split; [done |]. split; [done |].
      split; [done |]. split; [done |].
      split; [| split; [intros i url Hi; by apply download_file_record
                       | simpl; lia]].
      exists []. rewrite app_nil_r. split; [done |]. split; [done |].
      by destruct self.
    + assert (PubmedDownloader.filtered_urls self ≠ []) as Hne
        by (by rewrite Hurls).
      rewrite (download_urls_returns w path threads pb self Hne Hpos).
      cbv zeta. rewrite Hurls.
      set (items := PubmedDownloader.tasks w (u :: us) path) in *.
      destruct (pool_facts.execute_spec (PubmedDownloader.sched w)
                  (Z.to_nat threads) pb items Hm) as (Hfin & _ & _ & Hrtc).
      set (σ := pool.execute (PubmedDownloader.sched w) (Z.to_nat threads) pb
                  items) in *.
      split; [done |]. split; [done |]. split; [done |].
      split; [done |].
      split; [intros _; by exists σ |].
      split; [| split; [intros i url Hi; by apply download_file_record |]].
      * exists (failed_in (pool.trace σ)). split; [done |]. split.
        -- by apply (failed_in_final_trace w (u :: us) path (Z.to_nat threads)
                       pb).
        -- destruct self. simpl in *. by rewrite Hurls.
      * cbn [List.filter is_record]. rewrite List.filter_app, length_app.
        pose proof (trace_record_count w (u :: us) path (Z.to_nat threads) pb σ
                      Hm Hrtc Hfin).
        simpl in *. lia.
  - pose proof (ftp_runs w' self' (Z.to_nat threads) pb Hm) as Hruns.
    pose proof (ftp_tasks_lookup w' self') as Hlook.
    pose proof (length_ftp_tasks w' self') as Hlen.
    destruct (FTPDownloader.filtered_fileNames self') as [|u us] eqn:Hnames.
    + assert (FTPDownloader.download_files w' (Some threads) (Some pb) self'
              = (self', ([ALog WARNING "No files to download" []], Return tt)))
        as ->.
      { unfold FTPDownloader.download_files.
        unfold mbind, M_bind, m_bind, gets, lift. simpl. by rewrite Hnames. }
      done.
    + assert (FTPDownloader.filtered_fileNames self' ≠ []) as Hne
        by (by rewrite Hnames).
      rewrite (download_files_returns w' threads pb self' Hne Hpos).
      cbv zeta. rewrite Hnames.
      set (items := FTPDownloader.tasks w' self') in *.
      destruct (pool_facts.execute_spec (FTPDownloader.sched w')
                  (Z.to_nat threads) pb items Hm) as (Hfin & _ & _ & Hrtc).
      set (σ := pool.execute (FTPDownloader.sched w') (Z.to_nat threads) pb
                  items) in *.
      split; [done |]. split; [done |]. split; [done |].
      split; [done |]. split; [done |].
      intros _. split; [by exists σ |].
      cbn [List.filter is_alarm]. rewrite List.filter_app.
      by rewrite (trace_ftp_quiet w' self' (Z.to_nat threads) pb σ Hm Hrtc Hfin).
Qed.

Lemma every_item_is_fetched_once_witness :
  let '(self2, (acts, r)) :=
    PubmedDownloader.download_urls first_item_fails "out" (Some 3%Z)
      (Some true) two_urls in
  r = Return tt
  ∧ length (List.filter is_record acts) ≤ 2
  ∧ ∃ added,
      PubmedDownloader.failed_urls self2 = added
      ∧ added ≡ₚ ["http://h/a.xml.gz"].
Proof.
  generalize (every_item_is_fetched_once first_item_fails
                (ftp_world (serving []) (λ _, failing_transfer ["ab"])) "out"
                3 true two_urls ftp_self ltac:(lia)).
  cbv zeta.
  destruct (PubmedDownloader.download_urls _ _ _ _ _) as [self2 [acts r]].
  intros [(Hr & _ & _ & _ & _ & (added & Ha & Hp & _) & _ & Hle) _].
  split; [exact Hr |]. split; [exact Hle |].
  exists added. split; [exact Ha | exact Hp].
Defined.

(** ** C7. An empty filtered set *)

(** C7 as stated fails: the scheduler builds no summary.  With an empty
    filtered list it returns None, the value it also returns after a run in
    which one of two urls was never answered, and the one record it logs
    carries no number. *)
Lemma empty_run_returns_no_summary :
  (PubmedDownloader.download_urls first_item_fails "out" None None
     PubmedDownloader.__init__).2
  = ([ALog WARNING "No URLs to download" []], Return tt)
  ∧ (PubmedDownloader.download_urls first_item_fails "out" None None
       two_urls).2.2
    = Return tt
  ∧ PubmedDownloader.failed_urls
      (PubmedDownloader.download_urls first_item_fails "out" None None
         two_urls).1
    = ["http://h/a.xml.gz"]
  ∧ (FTPDownloader.download_files
       (ftp_world (serving []) (λ _, failing_transfer ["ab"])) None None
       (FTPDownloader.__init__ "h")).2
    = ([ALog WARNING "No files to download" []], Return tt)
  ∧ (FTPDownloader.download_files
       (ftp_world (serving []) (λ _, failing_transfer ["ab"])) None None
       ftp_self).2.2
    = Return tt.
Proof. vm_compute. repeat split. Qed.

(** C7, amended: with nothing left after filtering the scheduler returns
    None at once, and no summary: one warning without a number is logged,
    nothing is raised, no network request is made, no file is touched, no
    fetch is started and the instance is unchanged. *)
Theorem download_of_nothing_is_a_noop
    (w : PubmedDownloader.world) (w' : FTPDownloader.world)
    (path : string) (threads : option Z) (progressbar : option bool)
    (self : PubmedDownloader.t) (self' : FTPDownloader.t) :
  PubmedDownloader.filtered_urls self = [] →
  FTPDownloader.filtered_fileNames self' = [] →
  PubmedDownloader.download_urls w path threads progressbar self
  = (self, ([ALog WARNING "No URLs to download" []], Return tt))
  ∧ PubmedDownloader.tasks w (PubmedDownloader.filtered_urls self) path = []
  ∧ FTPDownloader.download_files w' threads progressbar self'
    = (self', ([ALog WARNING "No files to download" []], Return tt))
  ∧ FTPDownloader.tasks w' self' = [].
Proof.
  intros H H'. unfold PubmedDownloader.download_urls, FTPDownloader.download_files.
  unfold PubmedDownloader.tasks, FTPDownloader.tasks.
  unfold mbind, M_bind, m_bind, gets, lift. simpl. rewrite H, H'. done.
Qed.

Lemma download_of_nothing_is_a_noop_witness :
  PubmedDownloader.download_urls first_item_fails "out" None None
    PubmedDownloader.__init__
  = (PubmedDownloader.__init__,
     ([ALog WARNING "No URLs to download" []], Return tt))
  ∧ FTPDownloader.download_files (ftp_world login_refused (λ _, login_refused))
      None None (FTPDownloader.__init__ "h")
    = (FTPDownloader.__init__ "h",
       ([ALog WARNING "No files to download" []], Return tt)).
Proof.
  destruct (download_of_nothing_is_a_noop first_item_fails
              (ftp_world login_refused (λ _, login_refused)) "out" None None
              PubmedDownloader.__init__ (FTPDownloader.__init__ "h")
              eq_refl eq_refl) as (Hhttp & _ & Hftp & _).
  split; [exact Hhttp | exact Hftp].
Defined.

(** ** C8. The FTP listing *)

(** C8: the FTP lister returns the directory entries in lexicographic
    order, the same whatever order the server reported them in, and QUIT
    is sent before the call returns. *)
Theorem find_files_sorts_and_closes
    (s : FTPDownloader.session) (dir : string) (self : FTPDownloader.t)
    (names : list string) :
  FTPDownloader.connect s = Return tt →
  FTPDownloader.login s = Return tt →
  FTPDownloader.chdir s dir = Return tt →
  FTPDownloader.nlst s = Return names →
  let '(self', (acts, r)) := FTPDownloader.find_files s dir self in
  r = Return tt
  ∧ Sorted String.le (FTPDownloader.all_fileNames self')
  ∧ FTPDownloader.all_fileNames self' ≡ₚ names
  ∧ (∀ names', names' ≡ₚ names →
       FTPDownloader.all_fileNames self' = FTPDownloader.sorted names')
  ∧ List.filter is_network acts
    = [AFtp (Connect (FTPDownloader._host self)); AFtp Login; AFtp (Cwd dir);
       AFtp Nlst; AFtp Quit].
Proof.
  intros Hc Hl Hd Hn. rewrite (find_files_ok s dir self names Hc Hl Hd Hn).
  simpl. repeat split.
  - apply sorted_Sorted.
  - apply sorted_Permutation.
  - intros names' Hp. by apply sorted_order_independent.
Qed.

Lemma find_files_sorts_and_closes_witness :
  let names := ["pubmed23n0002.xml.gz"; "index.html"; "pubmed23n0001.xml.gz"] in
  let '(self', (acts, r)) :=
    FTPDownloader.find_files (listing_session names) "/pubmed/baseline/"
      (FTPDownloader.__init__ "ftp.ncbi.nlm.nih.gov") in
  r = Return tt
  ∧ Sorted String.le (FTPDownloader.all_fileNames self')
  ∧ FTPDownloader.all_fileNames self' ≡ₚ names
  ∧ (∀ names', names' ≡ₚ names →
       FTPDownloader.all_fileNames self' = FTPDownloader.sorted names')
  ∧ List.filter is_network acts
    = [AFtp (Connect "ftp.ncbi.nlm.nih.gov"); AFtp Login;
       AFtp (Cwd "/pubmed/baseline/"); AFtp Nlst; AFtp Quit].
Proof.
  exact (find_files_sorts_and_closes
           (listing_session
              ["pubmed23n0002.xml.gz"; "index.html"; "pubmed23n0001.xml.gz"])
           "/pubmed/baseline/" (FTPDownloader.__init__ "ftp.ncbi.nlm.nih.gov")
           _ eq_refl eq_refl eq_refl eq_refl).
Defined.

(** ** C9. The bound on concurrent fetches *)

(** C9: at every point of a run of the scheduler, in both variants, at most
    [threads] fetches are in flight, [threads] being the argument given or 3
    when it is left out; what download_urls and download_files do is such a
    run.  Every other item is waiting to be submitted, in the queue, or
    complete; finishing an item, whether its call returned or raised, only
    frees its own thread and completes its own future; and as long as the
    run is not over some thread or the main loop can move. *)
Theorem at_most_threads_in_flight
    (w : PubmedDownloader.world) (w' : FTPDownloader.world)
    (path : string) (threads : Z) (pb : bool)
    (self : PubmedDownloader.t) (self' : FTPDownloader.t) :
  (∀ σ,
     rtc pool.step
       (pool.init (Z.to_nat threads) pb
          (PubmedDownloader.tasks w (PubmedDownloader.filtered_urls self) path))
       σ →
     pool.in_flight σ ≤ Z.to_nat threads)
  ∧ (∀ σ,
       rtc pool.step
         (pool.init (Z.to_nat threads) pb (FTPDownloader.tasks w' self')) σ →
       pool.in_flight σ ≤ Z.to_nat threads)
  ∧ PubmedDownloader.download_urls w path None (Some pb) self
    = PubmedDownloader.download_urls w path (Some 3%Z) (Some pb) self
  ∧ FTPDownloader.download_files w' None (Some pb) self'
    = FTPDownloader.download_files w' (Some 3%Z) (Some pb) self'
  ∧ ((0 < threads)%Z → PubmedDownloader.filtered_urls self ≠ [] →
     let σ := pool.execute (PubmedDownloader.sched w) (Z.to_nat threads) pb
                (PubmedDownloader.tasks w (PubmedDownloader.filtered_urls self)
                   path) in
     rtc pool.step
       (pool.init (Z.to_nat threads) pb
          (PubmedDownloader.tasks w (PubmedDownloader.filtered_urls self) path))
       σ
     ∧ (PubmedDownloader.download_urls w path (Some threads) (Some pb) self).2.1
       = ALog INFO "Starting download of {} urls"
           [ANat (length (PubmedDownloader.filtered_urls self))]
         :: pool.trace σ ++ [ALog INFO "Download finished" []])
  ∧ ((0 < threads)%Z → FTPDownloader.filtered_fileNames self' ≠ [] →
     let σ := pool.execute (FTPDownloader.sched w') (Z.to_nat threads) pb
                (FTPDownloader.tasks w' self') in
     rtc pool.step
       (pool.init (Z.to_nat threads) pb (FTPDownloader.tasks w' self')) σ
     ∧ (FTPDownloader.download_files w' (Some threads) (Some pb) self').2.1
       = ALog INFO "Starting download of {} files"
           [ANat (length (FTPDownloader.filtered_fileNames self'))]
         :: pool.trace σ ++ [ALog INFO "Download finished" []])
  ∧ (∀ items σ,
       (0 < threads)%Z →
       rtc pool.step (pool.init (Z.to_nat threads) pb items) σ →
       map pool.outcome
         (pool.unsubmitted σ ++ pool.work_queue σ ++ pool.running σ)
       ++ pool.completed σ ≡ₚ map pool.outcome items
       ∧ (∀ w0 t,
            pool.threads σ !! w0 = Some (Some t) → pool.t_todo t = [] →
            ∃ σ', pool.worker w0 σ = Some σ'
                  ∧ pool.unsubmitted σ' = pool.unsubmitted σ
                  ∧ pool.work_queue σ' = pool.work_queue σ
                  ∧ (∀ w1, w1 ≠ w0 →
                       pool.threads σ' !! w1 = pool.threads σ !! w1)
                  ∧ pool.completed σ' = pool.completed σ ++ [pool.outcome t])
       ∧ (pool.final σ = false → ∃ σ', pool.step σ σ')).
Proof.
  assert (∀ items σ,
            rtc pool.step (pool.init (Z.to_nat threads) pb items) σ →
            pool.in_flight σ ≤ Z.to_nat threads) as Hbound.
  { intros items σ Hrtc.
    assert (pool.bounded σ) as Hb.
    { apply (pool_facts.rtc_bounded _ _ Hrtc). unfold pool.bounded. simpl. lia. }
    apply pool_facts.in_flight_bound in Hb.
    by rewrite (pool_facts.rtc_max _ _ Hrtc) in Hb. }
  split; [by intros σ; apply Hbound |].
  split; [by intros σ; apply Hbound |].
  split; [done |]. split; [done |].
  split.
  { intros Hpos Hne. cbv zeta. split.
    - apply pool_facts.execute_spec. lia.
    - by rewrite download_urls_returns. }
  split.
  { intros Hpos Hne. cbv zeta. split.
    - apply pool_facts.execute_spec. lia.
    - by rewrite download_files_returns. }
  intros items σ Hpos Hrtc. assert (0 < Z.to_nat threads) as Hm by lia.
  pose proof (pool_facts.rtc_inv items _ _ Hrtc
                (pool_facts.inv_init (Z.to_nat threads) pb items Hm)) as Hinv.
  split; [by destruct Hinv |]. split.
  - intros w0 t. apply finish_is_local.
  - intros Hfin. by eapply pool_progress.
Qed.

Lemma at_most_threads_in_flight_witness :
  let items :=
    PubmedDownloader.tasks first_item_fails
      (PubmedDownloader.filtered_urls two_urls) "out" in
  let σ := pool.execute (PubmedDownloader.sched first_item_fails) 1 true items in
  pool.in_flight σ ≤ 1.
Proof.
  destruct (at_most_threads_in_flight first_item_fails
              (ftp_world login_refused (λ _, login_refused)) "out" 1 true
              two_urls ftp_self) as [Hbound _].
  apply Hbound.
  apply (pool_facts.execute_spec (PubmedDownloader.sched first_item_fails) 1).
  lia.
Defined.

(** ** C10. Responses of any status *)



(** ** Scenarios *)

(** Scenario A: three links, two of them match [^.*\.xml\.gz$]. *)
Example scenario_a :
  let page := Return (Response 200 "<html>") in
  let links := λ _ : string, ["a.xml.gz"; "b.xml.gz"; "readme.txt"] in
  let w := http_world page (λ _ _, Return (Response 200 "data")) in
  let '(self, (acts, r)) :=
    PubmedDownloader.main join_after links scenario_patterns w "out"
      "http://h/" "^.*\.xml\.gz$" None in
  r = Return tt
  ∧ PubmedDownloader.filtered_urls self
    = ["http://h/a.xml.gz"; "http://h/b.xml.gz"]
  ∧ PubmedDownloader.failed_urls self = []
  ∧ fs_after acts ∅ = {[ "out/a.xml.gz" := "data"; "out/b.xml.gz" := "data" ]}.
Proof. vm_compute. repeat split. Qed.

(** Scenario B: the listing is sorted, then two names match. *)
Example scenario_b :
  let names := ["pubmed23n0002.xml.gz"; "pubmed23n0001.xml.gz"; "index.html"] in
  let self :=
    (FTPDownloader.filter_files scenario_patterns "pubmed23n\d{4}\.xml\.gz$"
       (FTPDownloader.find_files (listing_session names) "/pubmed/baseline/"
          (FTPDownloader.__init__ "ftp.ncbi.nlm.nih.gov")).1).1 in
  FTPDownloader.all_fileNames self
  = ["index.html"; "pubmed23n0001.xml.gz"; "pubmed23n0002.xml.gz"]
  ∧ FTPDownloader.filtered_fileNames self
    = ["pubmed23n0001.xml.gz"; "pubmed23n0002.xml.gz"].
Proof. vm_compute. split; reflexivity. Qed.

(** Scenario D: of two items the first never answers; it is the one
    recorded as failed, after six requests, and the other is written. *)
Example scenario_d :
  let '(self, (acts, r)) :=
    PubmedDownloader.download_urls first_item_fails "out" (Some 3%Z) (Some true)
      two_urls in
  r = Return tt
  ∧ PubmedDownloader.failed_urls self = ["http://h/a.xml.gz"]
  ∧ length (List.filter is_get acts) = 7
  ∧ fs_after acts ∅ = {[ "out/b.xml.gz" := "body" ]}.
Proof. vm_compute. repeat split. Qed.

(** [match] against [search] and [fullmatch]. *)
Example match_is_anchored_at_the_start_only :
  re.match_ (re.Lit "a") "abc" = true
  ∧ re.fullmatch (re.Lit "a") "abc" = false
  ∧ re.match_ (re.Lit "a") "xabc" = false
  ∧ re.search (re.Lit "a") "xabc" = true.
Proof. repeat split. Qed.

(** A url that ends in a slash has an empty last segment, and the target of
    the write is then the destination directory itself. *)
Example basename_of_directory_url :
  basename "http://h/dir/" = "" ∧ joinpath "out" (basename "http://h/dir/") = "out".
Proof. split; reflexivity. Qed.

(** * Further properties of the two programs *)

(** ** Preconditions of a run *)

(** X1: when the destination path is not a directory both mains raise
    FileNotFoundError straight after the logging setup.  Opening the log
    file is the only thing they have done by then: no request is made, no
    record is logged, nothing is printed, no download file is touched and
    the downloader has not been set up. *)
Theorem main_rejects_missing_directory
    (urljoin : string → string → string) (parse : string → list string)
    (compile : string → option re.pattern)
    (w : PubmedDownloader.world) (w' : FTPDownloader.world)
    (path url host host_wd reg_ex : string) (threads : option Z) :
  PubmedDownloader.isdir w path = false →
  FTPDownloader.isdir w' path = false →
  PubmedDownloader.main urljoin parse compile w path url reg_ex threads
  = (PubmedDownloader.__init__,
     ([ABasicConfig "pubmed_downloader.log"], Raise FileNotFoundError))
  ∧ FTPDownloader.main compile w' path host host_wd reg_ex threads
    = (FTPDownloader.__init__ host,
       ([ABasicConfig "pubmed_downloader.log"], Raise FileNotFoundError)).
Proof.
  intros H H'. unfold PubmedDownloader.main, FTPDownloader.main.
  unfold mbind, M_bind, m_bind, lift, raise, perform. simpl.
  by rewrite H, H'.
Qed.

Lemma main_rejects_missing_directory_witness :
  PubmedDownloader.main join_after no_links any_pattern
    (PubmedDownloader.World (λ _, false) (λ _, Return (Response 200 ""))
       (λ _ _, Return (Response 200 "")) (λ _, half) open_ok (λ _, pool.Submit))
    "nowhere" "http://h/" ".*" None
  = (PubmedDownloader.__init__,
     ([ABasicConfig "pubmed_downloader.log"], Raise FileNotFoundError)).
Proof.
  exact (proj1 (main_rejects_missing_directory join_after no_links any_pattern
                  (PubmedDownloader.World (λ _, false)
                     (λ _, Return (Response 200 ""))
                     (λ _ _, Return (Response 200 "")) (λ _, half) open_ok
                     (λ _, pool.Submit))
                  (FTPDownloader.World (λ _, false) login_refused
                     (λ _, login_refused) open_ok (λ _, pool.Submit))
                  "nowhere" "http://h/" "h" "/" ".*" None eq_refl eq_refl)).
Defined.

(** X2: with something to download and a thread count of zero or less, both
    schedulers log the start of the download and then raise ValueError from
    the executor's constructor: no item is fetched, no file is touched and
    the instance is left as it was. *)
Theorem nonpositive_threads_raise_before_any_fetch
    (w : PubmedDownloader.world) (w' : FTPDownloader.world) (path : string)
    (threads : Z) (pb : option bool)
    (self : PubmedDownloader.t) (self' : FTPDownloader.t) :
  (threads <= 0)%Z →
  PubmedDownloader.filtered_urls self ≠ [] →
  FTPDownloader.filtered_fileNames self' ≠ [] →
  PubmedDownloader.download_urls w path (Some threads) pb self
  = (self,
     ([ALog INFO "Starting download of {} urls"
         [ANat (length (PubmedDownloader.filtered_urls self))]],
      Raise ValueError))
  ∧ FTPDownloader.download_files w' (Some threads) pb self'
    = (self',
       ([ALog INFO "Starting download of {} files"
           [ANat (length (FTPDownloader.filtered_fileNames self'))]],
        Raise ValueError)).
Proof.
  intros Hle Hne Hne'.
  unfold PubmedDownloader.download_urls, FTPDownloader.download_files.
  unfold mbind, M_bind, m_bind, mret, M_ret, m_ret, modify, lift, gets,
    raise, logging, perform, t_ret.
  simpl.
  destruct (PubmedDownloader.filtered_urls self) as [|u us]; [done |].
  destruct (FTPDownloader.filtered_fileNames self') as [|f fs]; [done |].
  destruct (Z.leb_spec threads 0); [| lia]. done.
Qed.

Lemma nonpositive_threads_raise_before_any_fetch_witness :
  PubmedDownloader.download_urls first_item_fails "out" (Some 0%Z) None two_urls
  = (two_urls,
     ([ALog INFO "Starting download of {} urls" [ANat 2]], Raise ValueError)).
Proof.
  exact (proj1 (nonpositive_threads_raise_before_any_fetch first_item_fails
                  (ftp_world login_refused (λ _, login_refused)) "out" 0 None
                  two_urls ftp_self ltac:(done) ltac:(done) ltac:(done))).
Defined.

(** ** The filter and the instance's fields *)

(** X3: a pattern that does not compile makes the filter raise re.error
    after the pattern has been stored in reg_ex: the earlier filtered list,
    and every other field, stay as they were and nothing is logged. *)
Theorem bad_pattern_keeps_previous_filter
    (urljoin : string → string → string)
    (compile : string → option re.pattern) (reg_ex : string)
    (self : PubmedDownloader.t) (self' : FTPDownloader.t) :
  compile reg_ex = None →
  PubmedDownloader.filter_urls urljoin compile reg_ex self
  = (PubmedDownloader.set_reg_ex reg_ex self, ([], Raise ReError))
  ∧ PubmedDownloader.filtered_urls (PubmedDownloader.set_reg_ex reg_ex self)
    = PubmedDownloader.filtered_urls self
  ∧ FTPDownloader.filter_files compile reg_ex self'
    = (FTPDownloader.set_reg_ex reg_ex self', ([], Raise ReError))
  ∧ FTPDownloader.filtered_fileNames (FTPDownloader.set_reg_ex reg_ex self')
    = FTPDownloader.filtered_fileNames self'.
Proof.
  intros Hc. unfold PubmedDownloader.filter_urls, FTPDownloader.filter_files.
  unfold mbind, M_bind, m_bind, modify, lift, gets, raise. simpl.
  by rewrite Hc.
Qed.

Lemma bad_pattern_keeps_previous_filter_witness :
  PubmedDownloader.filtered_urls
    (PubmedDownloader.filter_urls join_after any_pattern "(" two_urls).1
  = ["http://h/a.xml.gz"; "http://h/b.xml.gz"]
  ∧ (PubmedDownloader.filter_urls join_after any_pattern "(" two_urls).2
    = ([], Raise ReError).
Proof.
  destruct (bad_pattern_keeps_previous_filter join_after any_pattern "("
              two_urls ftp_self eq_refl) as (H1 & H2 & _).
  rewrite H1. split; [exact H2 | reflexivity].
Defined.

(** X4: find_urls stores the new start url before it looks at the answer.
    After a page has been listed, a second find_urls answered with a status
    other than 200 keeps the first page's links and all_urls but has already
    replaced start_url; a filter run next resolves the first page's hrefs
    against the second url. *)
Theorem failed_discovery_keeps_stale_links
    (urljoin : string → string → string) (parse : string → list string)
    (compile : string → option re.pattern)
    (get : string → result response) (url1 url2 reg_ex : string)
    (resp1 resp2 : response) (p : re.pattern) (self : PubmedDownloader.t) :
  get url1 = Return resp1 → status_code resp1 = 200%Z →
  get url2 = Return resp2 → status_code resp2 ≠ 200%Z →
  compile reg_ex = Some p →
  let first := (PubmedDownloader.find_urls urljoin parse get url1 self).1 in
  let second := (PubmedDownloader.find_urls urljoin parse get url2 first).1 in
  let third := (PubmedDownloader.filter_urls urljoin compile reg_ex second).1 in
  PubmedDownloader._links second = parse (content resp1)
  ∧ PubmedDownloader.all_urls second = map (urljoin url1) (parse (content resp1))
  ∧ PubmedDownloader.start_url second = url2
  ∧ PubmedDownloader.filtered_urls third
    = map (urljoin url2) (List.filter (re.match_ p) (parse (content resp1)))
  ∧ PubmedDownloader.all_urls third = map (urljoin url1) (parse (content resp1)).
Proof.
  intros Hg1 Hs1 Hg2 Hs2 Hc. cbv zeta.
  rewrite (find_urls_ok urljoin parse get url1 self resp1 Hg1 Hs1). cbv zeta.
  rewrite (find_urls_bad_status urljoin parse get url2 _ resp2 Hg2 Hs2).
  rewrite (filter_urls_compiled urljoin compile reg_ex p _ Hc). done.
Qed.

Lemma failed_discovery_keeps_stale_links_witness :
  let second :=
    (PubmedDownloader.find_urls join_after page_links first_page_only
       "http://g/"
       (PubmedDownloader.find_urls join_after page_links first_page_only
          "http://h/" PubmedDownloader.__init__).1).1 in
  PubmedDownloader.all_urls second = ["http://h/a"; "http://h/b"]
  ∧ PubmedDownloader.filtered_urls
      (PubmedDownloader.filter_urls join_after only_a "a" second).1
    = ["http://g/a"].
Proof.
  generalize (failed_discovery_keeps_stale_links join_after page_links only_a
                first_page_only "http://h/" "http://g/" "a"
                (Response 200 "first") (Response 404 "") (re.Lit "a")
                PubmedDownloader.__init__ eq_refl eq_refl eq_refl
                ltac:(discriminate) eq_refl).
  cbv zeta. intros (_ & H1 & _ & H2 & _). split; [exact H1 | exact H2].
Defined.

(** ** File names *)

Lemma has_char_append c s1 s2 :
  has_char c (s1 +:+ s2) = has_char c s1 || has_char c s2.
Proof.
  induction s1 as [|a s1 IH]; [done |].
  change (has_char c (String a (s1 +:+ s2))
          = has_char c (String a s1) || has_char c s2).
  simpl. rewrite IH. by rewrite orb_assoc.
Qed.

Lemma append_nil_r (s : string) : s +:+ "" = s.
Proof.
  induction s as [|c s IH]; [done |].
  change (String c (s +:+ "") = String c s). by rewrite IH.
Qed.

Lemma append_snoc_cons cur c s : (cur +:+ String c "") +:+ s = cur +:+ String c s.
Proof. by rewrite append_assoc. Qed.

Lemma split_go_nonempty sep cur s : split_go sep cur s ≠ [].
Proof.
  revert cur. induction s as [|c s IH]; intros cur; simpl; [done |].
  destruct (Ascii.eqb c sep); [done | apply IH].
Qed.

(** Joining the segments with the separator gives the string back. *)
Lemma split_go_join sep cur s :
  String.concat (String sep "") (split_go sep cur s) = cur +:+ s.
Proof.
  revert cur. induction s as [|c s IH]; intros cur.
  - simpl. by rewrite append_nil_r.
  - simpl. destruct (Ascii.eqb_spec c sep) as [-> | Hne].
    + pose proof (split_go_nonempty sep "" s) as Hne.
      specialize (IH ""). 
      destruct (split_go sep "" s) as [|x xs] eqn:Hs; [done |].
      change (cur +:+ String sep "" +:+ String.concat (String sep "") (x :: xs)
              = cur +:+ String sep s).
      rewrite IH. done.
    + rewrite IH. apply append_snoc_cons.
Qed.

(** No segment contains the separator. *)
Lemma split_go_segments sep cur s :
  has_char sep cur = false →
  Forall (λ seg, has_char sep seg = false) (split_go sep cur s).
Proof.
  revert cur. induction s as [|c s IH]; intros cur Hcur; simpl.
  - by constructor.
  - destruct (Ascii.eqb_spec c sep) as [-> | Hne].
    + constructor; [done |]. by apply IH.
    + apply IH. rewrite has_char_append, Hcur. simpl.
      destruct (Ascii.eqb_spec c sep); [done | done].
Qed.

Lemma split_go_no_sep sep cur s :
  has_char sep s = false → split_go sep cur s = [cur +:+ s].
Proof.
  revert cur. induction s as [|c s IH]; intros cur; simpl.
  - intros _. by rewrite append_nil_r.
  - destruct (Ascii.eqb c sep); [done |]. simpl. intros H.
    rewrite IH by done. by rewrite append_snoc_cons.
Qed.

Lemma last_split_go_after sep cur a b :
  List.last (split_go sep cur (a +:+ String sep b)) ""
  = List.last (split_go sep "" b) "".
Proof.
  revert cur. induction a as [|c a IH]; intros cur.
  - change ("" +:+ String sep b) with (String sep b). simpl.
    rewrite Ascii.eqb_refl.
    pose proof (split_go_nonempty sep "" b).
    by destruct (split_go sep "" b).
  - change (String c a +:+ String sep b) with (String c (a +:+ String sep b)).
    simpl. destruct (Ascii.eqb c sep).
    + rewrite <- (IH "").
      pose proof (split_go_nonempty sep "" (a +:+ String sep b)).
      by destruct (split_go sep "" (a +:+ String sep b)).
    + apply IH.
Qed.

Lemma concat_snoc sep (init : list string) (x : string) :
  String.concat sep (init ++ [x])
  = match init with
    | [] => x
    | _ => String.concat sep init +:+ sep +:+ x
    end.
Proof.
  induction init as [|y init IH]; [done |].
  destruct init as [|z init]; [done |].
  change (y +:+ sep +:+ String.concat sep ((z :: init) ++ [x])
          = (y +:+ sep +:+ String.concat sep (z :: init)) +:+ sep +:+ x).
  rewrite IH. by rewrite !append_assoc.
Qed.

(** X5: the name a url is saved under is the text after its last slash: it
    contains no slash itself, and the url is either that name alone or a
    prefix, a slash and that name. *)
Theorem basename_is_the_last_segment (url : string) :
  has_char "/" (basename url) = false
  ∧ (url = basename url ∨ ∃ dir, url = dir +:+ "/" +:+ basename url)
  ∧ (has_char "/" url = false → basename url = url).
Proof.
  unfold basename, split.
  pose proof (split_go_nonempty "/" "" url) as Hne.
  pose proof (split_go_join "/" "" url) as Hjoin.
  pose proof (split_go_segments "/" "" url eq_refl) as Hseg.
  destruct (exists_last Hne) as (init & x & Heq).
  rewrite Heq in *. rewrite last_last.
  split; [| split].
  - apply Forall_app in Hseg as [_ Hx]. by inversion Hx.
  - rewrite concat_snoc in Hjoin. change ("" +:+ url) with url in Hjoin.
    destruct init as [|y init]; [by left |].
    right. eexists. symmetry. exact Hjoin.
  - intros Hno. rewrite (split_go_no_sep "/" "" url Hno) in Heq.
    destruct init as [|y init].
    + by injection Heq as <-.
    + destruct init; discriminate.
Qed.

Lemma basename_is_the_last_segment_witness :
  basename "pubmed23n0001.xml.gz" = "pubmed23n0001.xml.gz".
Proof.
  exact (proj2 (proj2 (basename_is_the_last_segment "pubmed23n0001.xml.gz"))
           eq_refl).
Defined.

Lemma basename_after_slash dir name :
  has_char "/" name = false → basename (dir +:+ "/" +:+ name) = name.
Proof.
  intros Hno. unfold basename, split.
  change (dir +:+ "/" +:+ name) with (dir +:+ String "/"%char name).
  rewrite last_split_go_after.
  by rewrite (split_go_no_sep "/" "" name Hno).
Qed.

Lemma append_eq_nil (a b : string) : a +:+ b = "" → b = "".
Proof. by destruct a. Qed.

(** A name without a slash has no root and is its own only segment, unless
    it is empty or a dot. *)
Lemma plain_name_parts name :
  has_char "/" name = false → name ≠ "" → name ≠ "." →
  splitroot name = "" ∧ parse_parts name = [name].
Proof.
  intros Hno Hne Hdot. split.
  - unfold splitroot. destruct name as [|c name]; [done |].
    simpl in Hno. apply orb_false_elim in Hno as [Hc _].
    simpl. rewrite Hc. by rewrite Nat.sub_diag.
  - unfold parse_parts, split. rewrite (split_go_no_sep "/" "" name Hno).
    change ("" +:+ name) with name. simpl.
    apply String.eqb_neq in Hne, Hdot. by rewrite Hne, Hdot.
Qed.

(** X6: a name without a slash, other than the empty name and the dot, is
    found again behind any directory: the path that joinpath builds from a
    directory and the name ends in a slash and the name, or is the name
    alone, so that its last segment is the name.  The empty name and the
    dot both give the directory itself. *)
Theorem basename_of_joined_path (dir name : string) :
  has_char "/" name = false → name ≠ "" → name ≠ "." →
  basename (joinpath dir name) = name
  ∧ (joinpath dir name = name
     ∨ ∃ prefix, joinpath dir name = prefix +:+ "/" +:+ name)
  ∧ joinpath dir "." = joinpath dir "".
Proof.
  intros Hno Hne Hdot.
  destruct (plain_name_parts name Hno Hne Hdot) as [Hroot Hparts].
  assert (joinpath dir name = name
          ∨ ∃ prefix, joinpath dir name = prefix +:+ "/" +:+ name) as Hshape.
  { unfold joinpath. rewrite Hroot, Hparts. cbn [String.eqb].
    unfold format_parsed_parts. cbv zeta. rewrite concat_snoc.
    destruct (parse_parts dir) as [|y ps].
    - unfold splitroot.
      destruct (String.length dir - String.length (lstrip "/" dir))
        as [|[|[|n]]].
      + change ("" +:+ name) with name.
        apply String.eqb_neq in Hne. rewrite Hne. by left.
      + right. exists "". by destruct name.
      + right. exists "/". by destruct name.
      + right. exists "". by destruct name.
    - right. exists (splitroot dir +:+ String.concat "/" (y :: ps)).
      rewrite <- append_assoc.
      destruct (String.eqb_spec
                  ((splitroot dir +:+ String.concat "/" (y :: ps))
                   +:+ "/" +:+ name) "") as [Heq |]; [| done].
      by apply append_eq_nil in Heq. }
  split; [| split; [done | reflexivity]].
  destruct Hshape as [-> | [prefix ->]].
  - unfold basename, split. by rewrite (split_go_no_sep "/" "" name Hno).
  - by apply basename_after_slash.
Qed.

Lemma basename_of_joined_path_witness :
  basename (joinpath "out" "pubmed23n0001.xml.gz") = "pubmed23n0001.xml.gz".
Proof.
  apply (basename_of_joined_path "out" "pubmed23n0001.xml.gz" eq_refl);
    discriminate.
Defined.

(** ** Sessions and file handles of the FTP variant *)

Lemma last_snoc_filter (f : action → bool) (l : list action) a d :
  f a = true → List.last (List.filter f (l ++ [a])) d = a.
Proof.
  intros Hf. rewrite List.filter_app. simpl. rewrite Hf. apply last_last.
Qed.

Ltac filter_writes :=
  rewrite ?app_nil_r, <- ?app_assoc;
  rewrite ?List.filter_app, ?length_app,
    ?(writes_filter is_network), ?(writes_filter is_quit),
    ?(writes_filter is_connect), ?(writes_filter is_retr) by done;
  simpl.

Lemma find_files_session s dir self :
  let acts := (FTPDownloader.find_files s dir self).2.1 in
  match FTPDownloader.connect s with
  | Return _ =>
      List.last (List.filter is_network acts) AProgress = AFtp Quit
      ∧ length (List.filter is_quit acts) = 1
      ∧ length (List.filter is_connect acts) = 1
  | Raise _ => acts = [AFtp (Connect (FTPDownloader._host self))]
  end.
Proof.
  unfold_ftp.
  destruct (FTPDownloader.connect s) as [[]|?]; simpl; [| done].
  destruct (FTPDownloader.login s) as [[]|?]; simpl; [| by auto].
  destruct (FTPDownloader.chdir s dir) as [[]|?]; simpl; [| by auto].
  destruct (FTPDownloader.nlst s) as [names|?]; simpl; by auto.
Qed.

Lemma download_file_session s os_open filename self :
  let acts := (FTPDownloader.download_file s os_open filename self).2.1 in
  match FTPDownloader.connect s with
  | Return _ =>
      List.last (List.filter is_network acts) AProgress = AFtp Quit
      ∧ length (List.filter is_quit acts) = 1
      ∧ length (List.filter is_connect acts) = 1
  | Raise _ => acts = [AFtp (Connect (FTPDownloader._host self))]
  end.
Proof.
  unfold_ftp.
  destruct (FTPDownloader.connect s) as [[]|?]; simpl; [| done].
  destruct (FTPDownloader.login s) as [[]|?]; simpl; [| by auto].
  destruct (FTPDownloader.cwd self) as [dir|]; simpl; [| by auto].
  destruct (FTPDownloader.chdir s dir) as [[]|?]; simpl; [| by auto].
  destruct (os_open _) as [[]|?]; simpl; [| by auto].
  destruct (FTPDownloader.pwd s) as [d|?]; simpl; [| by auto].
  destruct (FTPDownloader.retr s filename) as [blocks [[]|?]]; simpl;
    filter_writes; by auto.
Qed.

(** X7: every FTP session that is opened is closed again.  In find_files and
    in download_file alike, whatever the server answers after the
    connection is made, exactly one QUIT is sent and it is the last network
    action of the call; when the connection itself fails there is no
    session and nothing else is sent. *)
Theorem ftp_session_is_always_closed
    (s : FTPDownloader.session) (os_open : string → result unit)
    (dir filename : string) (self : FTPDownloader.t) :
  let listing := (FTPDownloader.find_files s dir self).2.1 in
  let fetch := (FTPDownloader.download_file s os_open filename self).2.1 in
  (FTPDownloader.connect s = Return tt →
   List.last (List.filter is_network listing) AProgress = AFtp Quit
   ∧ length (List.filter is_quit listing) = 1
   ∧ length (List.filter is_connect listing) = 1
   ∧ List.last (List.filter is_network fetch) AProgress = AFtp Quit
   ∧ length (List.filter is_quit fetch) = 1
   ∧ length (List.filter is_connect fetch) = 1)
  ∧ (is_raise (FTPDownloader.connect s) = true →
     listing = [AFtp (Connect (FTPDownloader._host self))]
     ∧ fetch = [AFtp (Connect (FTPDownloader._host self))]).
Proof.
  cbv zeta.
  pose proof (find_files_session s dir self) as Hl.
  pose proof (download_file_session s os_open filename self) as Hf.
  cbv zeta in Hl, Hf.
  destruct (FTPDownloader.connect s) as [[]|e]; split; try done.
  intros _. destruct Hl as (? & ? & ?), Hf as (? & ? & ?). done.
Qed.

Lemma ftp_session_is_always_closed_witness :
  let fetch :=
    (FTPDownloader.download_file (failing_transfer ["ab"]) open_ok "f.gz"
       ftp_self).2.1 in
  List.last (List.filter is_network fetch) AProgress = AFtp Quit
  ∧ length (List.filter is_quit fetch) = 1.
Proof.
  destruct (ftp_session_is_always_closed (failing_transfer ["ab"]) open_ok
              "/pubmed/baseline/" "f.gz" ftp_self) as [H _].
  destruct (H eq_refl) as (_ & _ & _ & H1 & H2 & _).
  split; [exact H1 | exact H2].
Defined.

(** X8: the FTP fetcher touches at most one file, the one named after the
    item inside download_dir, and always closes it: its file operations are
    either none, or the open, the writes of the blocks that arrived, and the
    close.  The file is opened only once connection, login and directory
    change have succeeded. *)
Theorem ftp_file_is_opened_late_and_closed
    (s : FTPDownloader.session) (os_open : string → result unit)
    (filename : string) (self : FTPDownloader.t) :
  let file := joinpath (FTPDownloader.download_dir self) filename in
  let acts := (FTPDownloader.download_file s os_open filename self).2.1 in
  (List.filter is_file_access acts = []
   ∨ ∃ blocks,
       List.filter is_file_access acts
       = AOpen file :: map (AWrite file) blocks ++ [AClose file])
  ∧ (List.filter is_file_access acts ≠ [] →
     FTPDownloader.connect s = Return tt
     ∧ FTPDownloader.login s = Return tt
     ∧ (∃ dir, FTPDownloader.cwd self = Some dir
               ∧ FTPDownloader.chdir s dir = Return tt)
     ∧ os_open file = Return tt).
Proof.
  cbv zeta. unfold_ftp.
  destruct (FTPDownloader.connect s) as [[]|?]; simpl;
    [| split; [by left | done]].
  destruct (FTPDownloader.login s) as [[]|?]; simpl;
    [| split; [by left | done]].
  destruct (FTPDownloader.cwd self) as [dir|]; simpl;
    [| split; [by left | done]].
  destruct (FTPDownloader.chdir s dir) as [[]|?] eqn:Hd; simpl;
    [| split; [by left | done]].
  destruct (os_open _) as [[]|?]; simpl; [| split; [by left | done]].
  assert (∀ l, List.filter is_file_access
                 (map (AWrite
                         (joinpath (FTPDownloader.download_dir self) filename)) l)
               = map (AWrite
                        (joinpath (FTPDownloader.download_dir self) filename)) l)
    as Hw by (by induction l as [|? ? IH]; simpl; rewrite ?IH).
  destruct (FTPDownloader.pwd s) as [d|?]; simpl.
  - destruct (FTPDownloader.retr s filename) as [blocks [[]|?]]; simpl;
      rewrite ?app_nil_r, <- ?app_assoc, ?List.filter_app, ?Hw; simpl;
      (split; [right; by exists blocks | intros _; by eauto 10]).
  - split; [right; by exists [] | intros _; by eauto 10].
Qed.

Lemma ftp_file_is_opened_late_and_closed_witness :
  FTPDownloader.chdir (failing_transfer ["ab"]) "/pubmed/baseline/" = Return tt
  ∧ open_ok "out/f.gz" = Return tt.
Proof.
  destruct (ftp_file_is_opened_late_and_closed (failing_transfer ["ab"])
              open_ok "f.gz" ftp_self) as [_ H].
  destruct (H ltac:(discriminate)) as (_ & _ & (dir & Hdir & Hc) & Ho).
  injection Hdir as <-. split; [exact Hc | exact Ho].
Defined.

(** X9: a download_file called before find_files has set the working
    directory cannot build the CWD command: it raises TypeError after
    connecting and logging in, closes the session, and opens no file. *)
Theorem ftp_download_before_discovery
    (s : FTPDownloader.session) (os_open : string → result unit)
    (filename : string) (self : FTPDownloader.t) :
  FTPDownloader.cwd self = None →
  FTPDownloader.connect s = Return tt →
  FTPDownloader.login s = Return tt →
  FTPDownloader.download_file s os_open filename self
  = (self,
     ([AFtp (Connect (FTPDownloader._host self)); AFtp Login; AFtp Quit],
      Raise TypeError)).
Proof.
  intros Hcwd Hc Hl. unfold_ftp. rewrite Hc. simpl. rewrite Hl, Hcwd. done.
Qed.

Lemma ftp_download_before_discovery_witness :
  FTPDownloader.download_file (serving ["ab"]) open_ok "f.gz"
    (FTPDownloader.__init__ "h")
  = (FTPDownloader.__init__ "h",
     ([AFtp (Connect "h"); AFtp Login; AFtp Quit], Raise TypeError)).
Proof.
  exact (ftp_download_before_discovery (serving ["ab"]) open_ok "f.gz"
           (FTPDownloader.__init__ "h") eq_refl eq_refl eq_refl).
Defined.

(** ** The HTML fetcher, for every behaviour of the network *)






(** X11: an item that is answered but whose destination cannot be opened is
    lost without a trace: download_file raises the error of the open, writes
    nothing, and does not add the url to failed_urls. *)
Theorem unwritable_item_is_not_recorded
    (get : nat → result response) (rnd : nat → Q → Q)
    (os_open : string → result unit) (url path : string)
    (k : nat) (resp : response) (e : exn) :
  1 ≤ k ≤ 6 → (∀ n, 1 ≤ n < k → is_raise (get n) = true) →
  get k = Return resp →
  os_open (joinpath path (basename url)) = Raise e →
  let '(acts, r) := PubmedDownloader.download_file get rnd os_open url path in
  r = Raise e
  ∧ failed_in acts = []
  ∧ List.filter is_file_access acts = []
  ∧ ∀ fs, fs_after acts fs = fs.
Proof.
  intros Hk Hlt Hget Hopen.
  rewrite (http_facts.download_file_responds get rnd os_open url path k resp
             Hk Hlt Hget).
  cbv zeta. rewrite Hopen.
  assert (List.filter is_file_access
            (failed_attempts (try_get url) (backoff rnd) (k - 1) 1
             ++ try_get url ++ response_logs url (status_code resp)) = [])
    as Hquiet.
  { rewrite List.filter_app. by rewrite failed_attempts_filter_nil. }
  split; [done |]. split; [| split; [done |]].
  - by rewrite failed_in_app, failed_attempts_failed_in.
  - intros fs. by apply fs_after_no_access.
Qed.

Lemma unwritable_item_is_not_recorded_witness :
  let '(acts, r) :=
    PubmedDownloader.download_file (responds_at 1 (Response 200 "index"))
      half (λ p, if String.eqb p "out" then Raise OSError else Return tt)
      "http://h/dir/" "out" in
  r = Raise OSError
  ∧ failed_in acts = []
  ∧ List.filter is_file_access acts = [].
Proof.
  generalize (unwritable_item_is_not_recorded
                (responds_at 1 (Response 200 "index")) half
                (λ p, if String.eqb p "out" then Raise OSError else Return tt)
                "http://h/dir/" "out" 1 (Response 200 "index") OSError
                ltac:(lia) ltac:(intros n Hn; lia) eq_refl eq_refl).
  destruct (PubmedDownloader.download_file _ _ _ _ _) as [acts r].
  intros (H1 & H2 & H3 & _). split; [exact H1 |]. split; [exact H2 | exact H3].
Defined.

(** ** The urls a run records as failed *)

(** X12: a run of the HTML scheduler leaves in failed_urls what was there
    before, followed by exactly the urls whose six requests all raised, each
    once, in the order in which the threads gave up; every other field of
    the instance is unchanged, and every url added is one of the filtered
    urls.  This holds for every interleaving of the threads. *)
Theorem failed_urls_are_the_exhausted_items
    (w : PubmedDownloader.world) (path : string) (threads : Z) (pb : bool)
    (self : PubmedDownloader.t) :
  (0 < threads)%Z →
  (∀ sched,
     let w' := PubmedDownloader.World (PubmedDownloader.isdir w)
                 (PubmedDownloader.get_page w) (PubmedDownloader.get_item w)
                 (PubmedDownloader.random w) (PubmedDownloader.os_open w)
                 sched in
     let self' :=
       (PubmedDownloader.download_urls w' path (Some threads) (Some pb) self).1 in
     ∃ added,
       PubmedDownloader.failed_urls self'
       = PubmedDownloader.failed_urls self ++ added
       ∧ added ≡ₚ exhausted_urls w (PubmedDownloader.filtered_urls self)
       ∧ (∀ u, u ∈ added → u ∈ PubmedDownloader.filtered_urls self)
       ∧ PubmedDownloader.set_failed_urls (PubmedDownloader.failed_urls self)
           self' = self).
Proof.
  intros Hpos sched. cbv zeta.
  set (w' := PubmedDownloader.World _ _ _ _ _ sched).
  assert (exhausted_urls w' (PubmedDownloader.filtered_urls self)
          = exhausted_urls w (PubmedDownloader.filtered_urls self)) as Hex
    by done.
  destruct (PubmedDownloader.filtered_urls self) as [|u us] eqn:Hurls.
  - exists []. unfold PubmedDownloader.download_urls.
    unfold mbind, M_bind, m_bind, gets, lift. simpl. rewrite Hurls. simpl.
    rewrite app_nil_r. split; [done |]. split; [done |]. split.
    + intros v Hv. by apply elem_of_nil in Hv.
    + by destruct self.
  - rewrite download_urls_returns by (by rewrite ?Hurls).
    cbv zeta. rewrite Hurls.
    set (items := PubmedDownloader.tasks w' (u :: us) path).
    set (σ := pool.execute sched (Z.to_nat threads) pb items).
    assert (0 < Z.to_nat threads) as Hm by lia.
    destruct (pool_facts.execute_spec sched (Z.to_nat threads) pb items Hm)
      as (Hfin & _ & _ & Hrtc).
    fold σ in Hfin, Hrtc.
    assert (failed_in (pool.trace σ) ≡ₚ exhausted_urls w (u :: us)) as Hadded.
    { rewrite <- Hex.
      by apply (failed_in_final_trace w' (u :: us) path (Z.to_nat threads) pb). }
    exists (failed_in (pool.trace σ)). simpl.
    split; [done |]. split; [done |]. split.
    + intros v Hv. rewrite Hadded in Hv.
      by apply exhausted_urls_elem in Hv.
    + destruct self. simpl in *. by rewrite Hurls.
Qed.

Lemma failed_urls_are_the_exhausted_items_witness :
  ∃ added,
    PubmedDownloader.failed_urls
      (PubmedDownloader.download_urls first_item_fails "out" (Some 2%Z)
         (Some true) two_urls).1
    = added
    ∧ added ≡ₚ ["http://h/a.xml.gz"].
Proof.
  destruct (failed_urls_are_the_exhausted_items first_item_fails "out" 2 true
              two_urls ltac:(lia) (λ _, pool.Submit))
    as (added & H1 & H2 & _).
  exists added. split; [exact H1 | exact H2].
Defined.

(** ** What a fetch returns *)

(** X13: the HTML fetcher returns normally only when it gives up.  Its call
    returns None exactly when all six requests raised; a url that was
    answered and whose file was written and closed ends its call with a
    TypeError, raised by the log record that follows the write, so the
    close of the file is the last thing the call does. *)
Theorem http_fetch_returns_only_when_it_gives_up
    (get : nat → result response) (rnd : nat → Q → Q)
    (os_open : string → result unit) (url path : string) :
  let file := joinpath path (basename url) in
  let '(acts, r) := PubmedDownloader.download_file get rnd os_open url path in
  (r = Return tt ↔ exhausted get = true)
  ∧ (exhausted get = false → os_open file = Return tt →
     r = Raise TypeError ∧ last acts = Some (AClose file)).
Proof.
  cbv zeta.
  destruct (attempts_cases get 6) as [Hraise | (k & resp & Hk & Hlt & Hget)].
  - rewrite (http_facts.download_file_exhausted get rnd os_open url path Hraise).
    rewrite (proj2 (exhausted_spec get) Hraise). by split.
  - rewrite (http_facts.download_file_responds get rnd os_open url path k resp
               Hk Hlt Hget).
    rewrite (exhausted_false get k resp Hk Hget). cbv zeta.
    destruct (os_open _) as [[]|e]; (split; [by split |]); [| done].
    intros _ _. split; [done |].
    rewrite app_assoc.
    change [AOpen ?f; AWrite ?f ?c; AClose ?f]
      with ([AOpen f; AWrite f c] ++ [AClose f]).
    by rewrite app_assoc, last_snoc.
Qed.

Lemma http_fetch_returns_only_when_it_gives_up_witness :
  (PubmedDownloader.download_file (responds_at 2 (Response 404 "gone")) half
     open_ok "http://h/a.xml.gz" "out").2 = Raise TypeError.
Proof.
  generalize (http_fetch_returns_only_when_it_gives_up
                (responds_at 2 (Response 404 "gone")) half open_ok
                "http://h/a.xml.gz" "out").
  cbv zeta.
  destruct (PubmedDownloader.download_file _ _ _ _ _) as [acts r].
  intros [_ H]. exact (proj1 (H eq_refl eq_refl)).
Defined.

(** ** A whole run, for every interleaving *)

(** X14: a run of either scheduler does what its fetches do and nothing
    else.  With something to download and a positive thread count, what
    happens between the two log records of the scheduler is, for every
    interleaving of the threads, a rearrangement of the actions of one fetch
    per filtered item and of one advance of the progress bar per item when
    the bar is on.  So a run of n urls makes between n and 6n requests, and
    a run of n files opens n connections, one per file, and sends at most n
    RETR commands. *)
Theorem run_is_an_interleaving_of_the_fetches
    (w : PubmedDownloader.world) (w' : FTPDownloader.world)
    (path : string) (threads : Z) (pb : bool)
    (self : PubmedDownloader.t) (self' : FTPDownloader.t) :
  (0 < threads)%Z →
  PubmedDownloader.filtered_urls self ≠ [] →
  FTPDownloader.filtered_fileNames self' ≠ [] →
  (let urls := PubmedDownloader.filtered_urls self in
   ∃ mid,
     (PubmedDownloader.download_urls w path (Some threads) (Some pb) self).2.1
     = ALog INFO "Starting download of {} urls" [ANat (length urls)]
       :: mid ++ [ALog INFO "Download finished" []]
     ∧ mid ≡ₚ flat_map pool.t_todo (PubmedDownloader.tasks w urls path)
              ++ (if pb then replicate (length urls) AProgress else [])
     ∧ length (List.filter is_progress mid) = (if pb then length urls else 0)
     ∧ length urls ≤ length (List.filter is_get mid) ≤ 6 * length urls)
  ∧ (let names := FTPDownloader.filtered_fileNames self' in
     ∃ mid,
       (FTPDownloader.download_files w' (Some threads) (Some pb) self').2.1
       = ALog INFO "Starting download of {} files" [ANat (length names)]
         :: mid ++ [ALog INFO "Download finished" []]
       ∧ mid ≡ₚ flat_map pool.t_todo (FTPDownloader.tasks w' self')
                ++ (if pb then replicate (length names) AProgress else [])
       ∧ length (List.filter is_progress mid) = (if pb then length names else 0)
       ∧ length (List.filter is_connect mid) = length names
       ∧ length (List.filter is_retr mid) ≤ length names).
Proof.
  intros Hpos Hurls Hnames. assert (0 < Z.to_nat threads) as Hm by lia.
  split; cbv zeta.
  - rewrite download_urls_returns by done. cbv zeta.
    set (items := PubmedDownloader.tasks w (PubmedDownloader.filtered_urls self)
                    path).
    set (σ := pool.execute (PubmedDownloader.sched w) (Z.to_nat threads) pb
                items).
    destruct (pool_facts.execute_spec (PubmedDownloader.sched w)
                (Z.to_nat threads) pb items Hm) as (Hfin & _ & _ & Hrtc).
    fold σ in Hfin, Hrtc.
    assert (length items = length (PubmedDownloader.filtered_urls self))
      as Hlen by apply length_http_tasks.
    exists (pool.trace σ). split; [done |]. split.
    { rewrite <- Hlen. by apply (final_trace (Z.to_nat threads)). }
    rewrite !(final_trace_count _ (Z.to_nat threads) pb items σ Hm Hrtc Hfin).
    rewrite andb_true_r, andb_false_r, Nat.add_0_r, Hlen.
    pose proof (sum_list_with_bounds
                  (λ t, length (List.filter is_progress (pool.t_todo t))) 0 0
                  items) as Hp.
    pose proof (sum_list_with_bounds
                  (λ t, length (List.filter is_get (pool.t_todo t))) 1 6
                  items) as Hg.
    rewrite Hlen in Hp, Hg.
    assert (∀ t, t ∈ items →
              1 ≤ length (List.filter is_get (pool.t_todo t)) ≤ 6
              ∧ length (List.filter is_progress (pool.t_todo t)) = 0) as Ht.
    { intros t Hin. apply http_tasks_elem in Hin as (i & url & ->).
      apply http_fetch_counts. }
    split.
    + destruct Hp as [_ Hp]; [intros t Hin; destruct (Ht t Hin); lia |].
      destruct pb; lia.
    + destruct Hg as [? ?]; [intros t Hin; by destruct (Ht t Hin) |]. lia.
  - rewrite download_files_returns by done. cbv zeta.
    set (items := FTPDownloader.tasks w' self').
    set (σ := pool.execute (FTPDownloader.sched w') (Z.to_nat threads) pb
                items).
    destruct (pool_facts.execute_spec (FTPDownloader.sched w')
                (Z.to_nat threads) pb items Hm) as (Hfin & _ & _ & Hrtc).
    fold σ in Hfin, Hrtc.
    assert (length items = length (FTPDownloader.filtered_fileNames self'))
      as Hlen by apply length_ftp_tasks.
    exists (pool.trace σ). split; [done |]. split.
    { rewrite <- Hlen. by apply (final_trace (Z.to_nat threads)). }
    rewrite !(final_trace_count _ (Z.to_nat threads) pb items σ Hm Hrtc Hfin).
    rewrite andb_true_r, !andb_false_r, !Nat.add_0_r, Hlen.
    pose proof (sum_list_with_bounds
                  (λ t, length (List.filter is_progress (pool.t_todo t))) 0 0
                  items) as Hp.
    pose proof (sum_list_with_bounds
                  (λ t, length (List.filter is_connect (pool.t_todo t))) 1 1
                  items) as Hc.
    pose proof (sum_list_with_bounds
                  (λ t, length (List.filter is_retr (pool.t_todo t))) 0 1
                  items) as Hr.
    rewrite Hlen in Hp, Hc, Hr.
    assert (∀ t, t ∈ items →
              length (List.filter is_connect (pool.t_todo t)) = 1
              ∧ length (List.filter is_retr (pool.t_todo t)) ≤ 1
              ∧ length (List.filter is_progress (pool.t_todo t)) = 0) as Ht.
    { intros t Hin. apply ftp_tasks_elem in Hin as (i & name & ->).
      apply ftp_fetch_counts. }
    split; [| split].
    + destruct Hp as [_ Hp]; [intros t Hin; destruct (Ht t Hin); lia |].
      destruct pb; lia.
    + destruct Hc as [? ?]; [intros t Hin; destruct (Ht t Hin); lia |]. lia.
    + destruct Hr as [? ?]; [intros t Hin; destruct (Ht t Hin); lia |]. lia.
Qed.

Lemma run_is_an_interleaving_of_the_fetches_witness :
  2 ≤ length (List.filter is_get
                (PubmedDownloader.download_urls first_item_fails "out"
                   (Some 2%Z) (Some true) two_urls).2.1) ≤ 12.
Proof.
  destruct (run_is_an_interleaving_of_the_fetches first_item_fails
              (ftp_world (serving []) (λ _, serving ["ab"])) "out" 2 true
              two_urls ftp_self ltac:(lia) ltac:(discriminate)
              ltac:(discriminate)) as [(mid & Heq & _ & _ & Hg) _].
  rewrite Heq. cbn [List.filter is_get]. rewrite List.filter_app, length_app.
  cbn [List.filter is_get length]. simpl in Hg. lia.
Defined.

(** ** A whole program run *)

Lemma main_http_unfold urljoin parse compile w path url reg_ex threads resp p :
  PubmedDownloader.isdir w path = true →
  PubmedDownloader.get_page w url = Return resp →
  status_code resp = 200%Z →
  compile reg_ex = Some p →
  PubmedDownloader.main urljoin parse compile w path url reg_ex threads
  = let links := parse (content resp) in
    let urls := map (urljoin url) links in
    let kept := map (urljoin url) (List.filter (re.match_ p) links) in
    let self1 :=
      PubmedDownloader.set_filtered_urls kept
        (PubmedDownloader.set_reg_ex reg_ex
           (PubmedDownloader.set_all_urls urls
              (PubmedDownloader.set_links links
                 (PubmedDownloader.set_start_url url
                    PubmedDownloader.__init__)))) in
    let '(self2, (dl, r)) :=
      PubmedDownloader.download_urls w path (Some (default 3%Z threads))
        (Some true) self1 in
    (self2,
     (ABasicConfig "pubmed_downloader.log"
      :: (warn_threads (default 3%Z threads)).1
      ++ [AGet url None;
          ALog INFO "Found {} urls on {}" [ANat (length urls); AStr url];
          ALog DEBUG "All urls:   {}" [AList urls];
          ALog INFO "filtered {} urls on {} using regular expression: {}"
            [ANat (length kept); AStr url; AStr reg_ex];
          ALog DEBUG "filtered urls:    {}" [AList kept];
          APrint Info "Found {} on starting url, {} left after filtering"
            [ANat (length urls); ANat (length kept)]]
      ++ dl
      ++ match r with
         | Return _ => [APrint Good "Download finished in {}" []]
         | Raise _ => []
         end,
      r)).
Proof.
  intros Hdir Hget Hst Hc. unfold PubmedDownloader.main.
  unfold mbind, M_bind, m_bind. rewrite Hdir.
  unfold mret, M_ret, m_ret, lift, gets, perform, t_ret. cbn [negb].
  cbv zeta.
  destruct (warn_threads (default 3%Z threads)) as [wacts [[]|e]] eqn:Hw.
  2: { unfold warn_threads in Hw. by destruct (10 <? _)%Z. }
  rewrite (find_urls_ok urljoin parse _ url _ resp Hget Hst).
  cbv beta iota zeta.
  rewrite (filter_urls_compiled urljoin compile reg_ex p _ Hc).
  cbv beta iota zeta. unfold id.
  cbn [PubmedDownloader._links PubmedDownloader.start_url
       PubmedDownloader.set_all_urls PubmedDownloader.set_links
       PubmedDownloader.set_start_url PubmedDownloader.set_reg_ex
       PubmedDownloader.set_filtered_urls PubmedDownloader.all_urls
       PubmedDownloader.filtered_urls PubmedDownloader.__init__].
  destruct (PubmedDownloader.download_urls _ _ _ _ _) as [self2 [dl [[]|e]]];
    cbn [fst snd app]; rewrite ?length_map, ?app_nil_r, <- ?app_assoc; done.
Qed.

Lemma main_ftp_unfold compile w path host host_wd reg_ex threads names p :
  FTPDownloader.isdir w path = true →
  FTPDownloader.connect (FTPDownloader.listing w) = Return tt →
  FTPDownloader.login (FTPDownloader.listing w) = Return tt →
  FTPDownloader.chdir (FTPDownloader.listing w) host_wd = Return tt →
  FTPDownloader.nlst (FTPDownloader.listing w) = Return names →
  compile reg_ex = Some p →
  FTPDownloader.main compile w path host host_wd reg_ex threads
  = let files := FTPDownloader.sorted names in
    let kept := List.filter (re.match_ p) files in
    let self1 := FTPDownloader.Self host (Some host_wd) files kept path
                   (Some reg_ex) in
    let '(self2, (dl, r)) :=
      FTPDownloader.download_files w (Some (default 3%Z threads)) (Some true)
        self1 in
    (self2,
     (ABasicConfig "pubmed_downloader.log"
      :: (warn_threads (default 3%Z threads)).1
      ++ [AFtp (Connect host); AFtp Login; AFtp (Cwd host_wd); AFtp Nlst;
          AFtp Quit;
          ALog INFO "Found {} files in {}" [ANat (length files); AStr host];
          ALog DEBUG "All files:   {}" [AList files];
          ALog INFO "filtered {} files on {} using regular expression: {}"
            [ANat (length kept); AStr host; AStr reg_ex];
          ALog DEBUG "filtered files:    {}" [AList kept];
          APrint Info
            "Found {} files in current working directory, {} left after filtering"
            [ANat (length files); ANat (length kept)]]
      ++ dl
      ++ match r with
         | Return _ => [APrint Good "Download finished in {}" []]
         | Raise _ => []
         end,
      r)).
Proof.
  intros Hdir Hc Hl Hd Hn Hp.
  unfold FTPDownloader.main, FTPDownloader.set_download_dir.
  unfold mbind, M_bind, m_bind. rewrite Hdir.
  unfold mret, M_ret, m_ret, lift, gets, perform, t_ret, modify. cbn [negb].
  cbv zeta.
  destruct (warn_threads (default 3%Z threads)) as [wacts [[]|e]] eqn:Hw.
  2: { unfold warn_threads in Hw. by destruct (10 <? _)%Z. }
  cbv beta iota zeta.
  rewrite (find_files_ok _ host_wd _ names Hc Hl Hd Hn).
  cbv beta iota zeta.
  rewrite (filter_files_compiled compile reg_ex p _ Hp).
  cbv beta iota zeta. unfold id.
  cbn [FTPDownloader._host FTPDownloader.cwd FTPDownloader.all_fileNames
       FTPDownloader.filtered_fileNames FTPDownloader.download_dir
       FTPDownloader.reg_ex FTPDownloader.set_cwd
       FTPDownloader.set_all_fileNames FTPDownloader.set_filtered_fileNames
       FTPDownloader.set_dir FTPDownloader.set_reg_ex FTPDownloader.__init__].
  destruct (FTPDownloader.download_files _ _ _ _) as [self2 [dl [[]|e]]];
    cbn [fst snd app]; rewrite ?app_nil_r, <- ?app_assoc; done.
Qed.

(** The scheduler called by main: bar on, any list of urls. *)
Lemma download_urls_outcome w path threads self :
  (0 < threads)%Z →
  let '(self2, (dl, r)) :=
    PubmedDownloader.download_urls w path (Some threads) (Some true) self in
  r = Return tt
  ∧ length (List.filter is_progress dl)
    = length (PubmedDownloader.filtered_urls self)
  ∧ ∃ added,
      self2 = PubmedDownloader.set_failed_urls
                (PubmedDownloader.failed_urls self ++ added) self
      ∧ added ≡ₚ exhausted_urls w (PubmedDownloader.filtered_urls self).
Proof.
  intros Hpos.
  destruct (PubmedDownloader.filtered_urls self) as [|u us] eqn:Hurls.
  - unfold PubmedDownloader.download_urls.
    unfold mbind, M_bind, m_bind, gets, lift. simpl. rewrite Hurls. simpl.
    split; [done |]. split; [done |]. exists [].
    split; [| done]. rewrite app_nil_r. by destruct self.
  - rewrite download_urls_returns by (by rewrite ?Hurls).
    cbv zeta. rewrite Hurls.
    set (items := PubmedDownloader.tasks w (u :: us) path).
    set (σ := pool.execute (PubmedDownloader.sched w) (Z.to_nat threads) true
                items).
    assert (0 < Z.to_nat threads) as Hm by lia.
    destruct (pool_facts.execute_spec (PubmedDownloader.sched w)
                (Z.to_nat threads) true items Hm) as (Hfin & _ & _ & Hrtc).
    fold σ in Hfin, Hrtc.
    split; [done |]. split.
    + cbn [List.filter is_progress]. rewrite List.filter_app, length_app.
      rewrite (final_trace_count _ (Z.to_nat threads) true items σ Hm Hrtc Hfin).
      pose proof (sum_list_with_bounds
                    (λ t, length (List.filter is_progress (pool.t_todo t))) 0 0
                    items) as [_ Hp].
      { intros t Hin. apply http_tasks_elem in Hin as (i & url & ->).
        pose proof (http_fetch_counts (PubmedDownloader.get_item w i)
                      (PubmedDownloader.random w i) (PubmedDownloader.os_open w)
                      url path) as [_ H0].
        cbv zeta in H0. lia. }
      assert (length items = S (length us)) as Hlen
        by apply length_http_tasks.
      rewrite Hlen in *. simpl in *. lia.
    + exists (failed_in (pool.trace σ)). split; [done |].
      by apply (failed_in_final_trace w (u :: us) path (Z.to_nat threads) true).
Qed.

(** The scheduler called by main, FTP variant. *)
Lemma download_files_outcome w threads self :
  (0 < threads)%Z →
  let '(self2, (dl, r)) :=
    FTPDownloader.download_files w (Some threads) (Some true) self in
  r = Return tt ∧ self2 = self
  ∧ length (List.filter is_progress dl)
    = length (FTPDownloader.filtered_fileNames self)
  ∧ length (List.filter is_connect dl)
    = length (FTPDownloader.filtered_fileNames self).
Proof.
  intros Hpos.
  destruct (FTPDownloader.filtered_fileNames self) as [|u us] eqn:Hnames.
  - unfold FTPDownloader.download_files.
    unfold mbind, M_bind, m_bind, gets, lift. simpl. rewrite Hnames. done.
  - rewrite download_files_returns by (by rewrite ?Hnames).
    cbv zeta. rewrite Hnames.
    set (items := FTPDownloader.tasks w self).
    set (σ := pool.execute (FTPDownloader.sched w) (Z.to_nat threads) true
                items).
    assert (0 < Z.to_nat threads) as Hm by lia.
    destruct (pool_facts.execute_spec (FTPDownloader.sched w)
                (Z.to_nat threads) true items Hm) as (Hfin & _ & _ & Hrtc).
    fold σ in Hfin, Hrtc.
    assert (length items = S (length us)) as Hlen.
    { unfold items. by rewrite length_ftp_tasks, Hnames. }
    assert (∀ t, t ∈ items →
              length (List.filter is_connect (pool.t_todo t)) = 1
              ∧ length (List.filter is_progress (pool.t_todo t)) = 0) as Ht.
    { intros t Hin. apply ftp_tasks_elem in Hin as (i & name & ->).
      pose proof (ftp_fetch_counts (FTPDownloader.transfer w i)
                    (FTPDownloader.os_open w) name self) as (? & _ & ?).
      done. }
    split; [done |]. split; [done |].
    cbn [List.filter is_progress is_connect].
    rewrite !List.filter_app, !length_app.
    rewrite !(final_trace_count _ (Z.to_nat threads) true items σ Hm Hrtc Hfin).
    pose proof (sum_list_with_bounds
                  (λ t, length (List.filter is_progress (pool.t_todo t))) 0 0
                  items) as [_ Hp].
    { intros t Hin. destruct (Ht t Hin). lia. }
    pose proof (sum_list_with_bounds
                  (λ t, length (List.filter is_connect (pool.t_todo t))) 1 1
                  items) as [Hc1 Hc2].
    { intros t Hin. destruct (Ht t Hin). lia. }
    rewrite Hlen in *. simpl in *. lia.
Qed.

Lemma warn_threads_quiet (f : action → bool) threads :
  (∀ t a, f (APrint Warn t a) = false) →
  List.filter f (warn_threads threads).1 = [].
Proof.
  intros Hf. unfold warn_threads. destruct (10 <? threads)%Z; simpl; [| done].
  by rewrite Hf.
Qed.

(** X15: when the destination is a directory, discovery succeeds, the
    pattern compiles and the thread count is positive, both programs end
    normally whatever happens to the single items.  The last thing they do
    is print that the download finished; before the downloads they print the
    number of items found and kept; the progress bar is on and advances once
    per kept item.  The HTML program ends with exactly the urls that were
    never answered in failed_urls; the FTP program keeps no record of a
    failed file, and opens one connection for the listing and one per kept
    file. *)
Theorem main_finishes_whatever_the_fetches_do
    (urljoin : string → string → string) (parse : string → list string)
    (compile : string → option re.pattern)
    (w : PubmedDownloader.world) (w' : FTPDownloader.world)
    (path url host host_wd reg_ex : string) (threads : option Z)
    (resp : response) (names : list string) (p : re.pattern) :
  PubmedDownloader.isdir w path = true →
  FTPDownloader.isdir w' path = true →
  PubmedDownloader.get_page w url = Return resp →
  status_code resp = 200%Z →
  FTPDownloader.connect (FTPDownloader.listing w') = Return tt →
  FTPDownloader.login (FTPDownloader.listing w') = Return tt →
  FTPDownloader.chdir (FTPDownloader.listing w') host_wd = Return tt →
  FTPDownloader.nlst (FTPDownloader.listing w') = Return names →
  compile reg_ex = Some p →
  (0 < default 3 threads)%Z →
  (let '(self, (acts, r)) :=
     PubmedDownloader.main urljoin parse compile w path url reg_ex threads in
   let links := parse (content resp) in
   let kept := map (urljoin url) (List.filter (re.match_ p) links) in
   r = Return tt
   ∧ last acts = Some (APrint Good "Download finished in {}" [])
   ∧ APrint Info "Found {} on starting url, {} left after filtering"
       [ANat (length links); ANat (length kept)] ∈ acts
   ∧ length (List.filter is_progress acts) = length kept
   ∧ PubmedDownloader.filtered_urls self = kept
   ∧ PubmedDownloader.failed_urls self ≡ₚ exhausted_urls w kept)
  ∧ (let '(self, (acts, r)) :=
       FTPDownloader.main compile w' path host host_wd reg_ex threads in
     let kept := List.filter (re.match_ p) (FTPDownloader.sorted names) in
     r = Return tt
     ∧ last acts = Some (APrint Good "Download finished in {}" [])
     ∧ APrint Info
         "Found {} files in current working directory, {} left after filtering"
         [ANat (length names); ANat (length kept)] ∈ acts
     ∧ length (List.filter is_progress acts) = length kept
     ∧ length (List.filter is_connect acts) = S (length kept)
     ∧ self = FTPDownloader.Self host (Some host_wd)
                (FTPDownloader.sorted names) kept path (Some reg_ex)).
Proof.
  intros Hdir Hdir' Hget Hst Hc Hl Hd Hn Hp Hpos. split.
  - rewrite (main_http_unfold urljoin parse compile w path url reg_ex threads
               resp p Hdir Hget Hst Hp).
    cbv zeta.
    match goal with
    | |- context [PubmedDownloader.download_urls w path _ _ ?s] =>
        pose proof (download_urls_outcome w path (default 3%Z threads) s Hpos)
          as Hout
    end.
    destruct (PubmedDownloader.download_urls _ _ _ _ _) as [self2 [dl r]].
    destruct Hout as (-> & Hbar & added & -> & Hadded).
    cbn [PubmedDownloader.filtered_urls PubmedDownloader.set_filtered_urls
         PubmedDownloader.failed_urls PubmedDownloader.set_failed_urls
         PubmedDownloader.set_reg_ex PubmedDownloader.set_all_urls
         PubmedDownloader.set_links PubmedDownloader.set_start_url
         PubmedDownloader.__init__] in *.
    split; [done |]. split; [| split; [| split; [| split; [done | done]]]].
    + by rewrite app_comm_cons, !app_assoc, last_snoc.
    + rewrite length_map. right. apply elem_of_app. right.
      apply elem_of_app. left.
      rewrite !length_map. apply list_elem_of_In. simpl. tauto.
    + change (List.filter is_progress (ABasicConfig ?f :: ?l))
        with (List.filter is_progress l).
      rewrite !List.filter_app, !length_app.
      rewrite (warn_threads_quiet is_progress) by done.
      simpl. rewrite Hbar. lia.
  - rewrite (main_ftp_unfold compile w' path host host_wd reg_ex threads names
               p Hdir' Hc Hl Hd Hn Hp).
    cbv zeta.
    match goal with
    | |- context [FTPDownloader.download_files w' _ _ ?s] =>
        pose proof (download_files_outcome w' (default 3%Z threads) s Hpos)
          as Hout
    end.
    destruct (FTPDownloader.download_files _ _ _ _) as [self2 [dl r]].
    destruct Hout as (-> & -> & Hbar & Hconn).
    cbn [FTPDownloader.filtered_fileNames] in *.
    split; [done |]. split; [| split; [| split; [| split; [| done]]]].
    + by rewrite app_comm_cons, !app_assoc, last_snoc.
    + right. apply elem_of_app. right. apply elem_of_app. left.
      rewrite (Permutation_length (sorted_Permutation names)).
      apply list_elem_of_In. simpl. tauto.
    + change (List.filter is_progress (ABasicConfig ?f :: ?l))
        with (List.filter is_progress l).
      rewrite !List.filter_app, !length_app.
      rewrite (warn_threads_quiet is_progress) by done.
      simpl. rewrite Hbar. lia.
    + change (List.filter is_connect (ABasicConfig ?f :: ?l))
        with (List.filter is_connect l).
      rewrite !List.filter_app, !length_app.
      rewrite (warn_threads_quiet is_connect) by done.
      simpl. rewrite Hconn. lia.
Qed.

Lemma main_finishes_whatever_the_fetches_do_witness :
  let run :=
    PubmedDownloader.main join_after page_links only_a
      (http_world (Return (Response 200 "first"))
         (λ _ _, Raise RequestException))
      "out" "http://h/" "a" (Some 2%Z) in
  run.2.2 = Return tt
  ∧ PubmedDownloader.failed_urls run.1 ≡ₚ ["http://h/a"].
Proof.
  generalize (main_finishes_whatever_the_fetches_do join_after page_links
                only_a
                (http_world (Return (Response 200 "first"))
                   (λ _ _, Raise RequestException))
                (ftp_world (listing_session ["b"; "a"]) (λ _, serving ["ab"]))
                "out" "http://h/" "h" "/pubmed/baseline/" "a" (Some 2%Z)
                (Response 200 "first") ["b"; "a"] (re.Lit "a")
                eq_refl eq_refl eq_refl eq_refl eq_refl eq_refl eq_refl
                eq_refl eq_refl ltac:(simpl; lia)).
  cbv zeta.
  destruct (PubmedDownloader.main _ _ _ _ _ _ _ _) as [self [acts r]].
  intros [(Hr & _ & _ & _ & _ & Hf) _].
  split; [exact Hr | exact Hf].
Defined.

(** ** The order of one item's actions in a run *)

Lemma busy_Permutation q ts ts' : ts ≡ₚ ts' → busy q ts = busy q ts'.
Proof.
  unfold busy.
  induction 1 as [|t l l' _ IH|t1 t2 l|l1 l2 l3 _ IH1 _ IH2]; simpl.
  - done.
  - destruct (List.filter q (pool.t_todo t)); simpl; by rewrite IH.
  - by destruct (List.filter q (pool.t_todo t1)),
         (List.filter q (pool.t_todo t2)).
  - by rewrite IH1.
Qed.

Lemma busy_cons q t ts :
  busy q (t :: ts)
  = (match List.filter q (pool.t_todo t) with [] => 0 | _ :: _ => 1 end)
    + busy q ts.
Proof. unfold busy. simpl. by destruct (List.filter q (pool.t_todo t)). Qed.

(** With at most one work item that has selected actions left, the order of
    the work items does not matter. *)
Lemma part_Permutation q ts ts' :
  ts ≡ₚ ts' → busy q ts ≤ 1 → part q ts = part q ts'.
Proof.
  induction 1 as [|t l l' Hp IH|t1 t2 l|l1 l2 l3 H1 IH1 H2 IH2]; intros Hb.
  - done.
  - rewrite busy_cons in Hb. unfold part in *. simpl. rewrite IH; [done | lia].
  - rewrite !busy_cons in Hb. unfold part. simpl.
    destruct (List.filter q (pool.t_todo t1)),
      (List.filter q (pool.t_todo t2)); simpl in *; [done .. | lia].
  - rewrite IH1 by done. apply IH2. by rewrite <- (busy_Permutation q _ _ H1).
Qed.

(** The four kinds of step, seen from the work that is left. *)
Lemma step_fn_pending c σ σ' :
  pool.step_fn c σ = Some σ' →
  (pool.trace σ' = pool.trace σ ∧ pending σ' ≡ₚ pending σ)
  ∨ (∃ t a rest others,
       pool.t_todo t = a :: rest
       ∧ pending σ ≡ₚ t :: others
       ∧ pending σ' ≡ₚ pool.Task (pool.t_id t) rest (pool.t_result t) :: others
       ∧ pool.trace σ' = pool.trace σ ++ [a])
  ∨ (∃ t others,
       pool.t_todo t = []
       ∧ pending σ ≡ₚ t :: others
       ∧ pending σ' ≡ₚ others
       ∧ pool.trace σ' = pool.trace σ)
  ∨ (pending σ' = pending σ
     ∧ ∃ n, pool.trace σ' = pool.trace σ ++ replicate n AProgress).
Proof.
  intros Hc. unfold pending, pool.running.
  destruct c as [|w|]; simpl in Hc;
    unfold pool.submit, pool.worker, pool.yield in Hc;
    repeat (case_match; simplify_eq); simpl.
  all: try match goal with
           | H : pool.unsubmitted _ = _ |- _ => rewrite H
           end.
  all: try match goal with
           | H : ?ths !! _ = Some _ |- _ =>
               erewrite pool_facts.running_insert by exact H;
               erewrite (pool_facts.running_lookup ths) by exact H
           end.
  all: try match goal with
           | H : pool.work_queue _ = _ |- _ => rewrite H
           end.
  all: simpl; rewrite ?omap_app; simpl; rewrite ?app_nil_r.
  all: try (left; split; [done | solve_Permutation]).
  all: try (right; right; right; split; [done |];
            first [by exists 1 | exists 0; simpl; by rewrite app_nil_r]).
  - right. right. left.
    match goal with
    | H : ?ths !! ?w = Some (Some ?t) |- _ =>
        exists t,
          (pool.unsubmitted σ ++ pool.work_queue σ
           ++ omap id (take w ths) ++ omap id (drop (S w) ths))
    end.
    split; [done |]. split; [solve_Permutation |].
    split; [solve_Permutation | done].
  - right. left.
    match goal with
    | H : ?ths !! ?w = Some (Some ?t), H' : pool.t_todo ?t = ?a :: ?rest |- _ =>
        exists t, a, rest,
          (pool.unsubmitted σ ++ pool.work_queue σ
           ++ omap id (take w ths) ++ omap id (drop (S w) ths))
    end.
    split; [done |]. split; [solve_Permutation |].
    split; [solve_Permutation | done].
Qed.

Lemma step_fn_part q acts c σ σ' :
  q AProgress = false →
  pool.step_fn c σ = Some σ' →
  busy q (pending σ) ≤ 1
  ∧ List.filter q (pool.trace σ) ++ part q (pending σ) = acts →
  busy q (pending σ') ≤ 1
  ∧ List.filter q (pool.trace σ') ++ part q (pending σ') = acts.
Proof.
  intros Hq Hc [Hb <-].
  destruct (step_fn_pending c σ σ' Hc)
    as [[Htr Hp]
       | [(t & a & rest & others & Ht & Hp & Hp' & Htr)
         | [(t & others & Ht & Hp & Hp' & Htr) | [Hp [n Htr]]]]].
  - rewrite Htr, (busy_Permutation q _ _ Hp). split; [done |].
    f_equal. apply part_Permutation; [done |].
    by rewrite (busy_Permutation q _ _ Hp).
  - rewrite (busy_Permutation q _ _ Hp) in Hb.
    rewrite (part_Permutation q _ _ Hp)
      by (by rewrite (busy_Permutation q _ _ Hp)).
    rewrite busy_cons, Ht in Hb.
    assert (busy q (pool.Task (pool.t_id t) rest (pool.t_result t) :: others)
            ≤ 1) as Hb'.
    { rewrite busy_cons. simpl in *.
      destruct (q a); [| done].
      destruct (List.filter q rest); lia. }
    rewrite (busy_Permutation q _ _ Hp'). split; [done |].
    rewrite (part_Permutation q _ _ Hp')
      by (by rewrite (busy_Permutation q _ _ Hp')).
    rewrite Htr, List.filter_app. unfold part. simpl. rewrite Ht. simpl.
    destruct (q a); simpl; by rewrite <- ?app_assoc, ?app_nil_r.
  - rewrite (busy_Permutation q _ _ Hp) in Hb.
    rewrite (part_Permutation q _ _ Hp)
      by (by rewrite (busy_Permutation q _ _ Hp)).
    rewrite busy_cons, Ht in Hb. simpl in Hb.
    rewrite (busy_Permutation q _ _ Hp'). split; [done |].
    rewrite (part_Permutation q _ _ Hp')
      by (by rewrite (busy_Permutation q _ _ Hp')).
    rewrite Htr. unfold part. simpl. by rewrite Ht.
  - rewrite Hp, Htr. split; [done |]. f_equal.
    rewrite List.filter_app.
    assert (List.filter q (replicate n AProgress) = []) as ->;
      [| by rewrite app_nil_r].
    apply nil_length_inv. by rewrite filter_replicate, Hq.
Qed.

Lemma rtc_part q acts σ σ' :
  q AProgress = false →
  rtc pool.step σ σ' →
  busy q (pending σ) ≤ 1
  ∧ List.filter q (pool.trace σ) ++ part q (pending σ) = acts →
  busy q (pending σ') ≤ 1
  ∧ List.filter q (pool.trace σ') ++ part q (pending σ') = acts.
Proof.
  intros Hq. induction 1 as [|σ1 σ2 σ3 [c Hc] _ IH]; [done |].
  intros Hi. apply IH. by eapply step_fn_part.
Qed.

(** When at most one item has actions selected by [q], a finished run has
    performed them in the order in which the item does them, whatever the
    other threads did in between. *)
Lemma final_trace_part q m pb items σ :
  q AProgress = false → busy q items ≤ 1 →
  rtc pool.step (pool.init m pb items) σ → pool.final σ = true →
  List.filter q (pool.trace σ) = part q items.
Proof.
  intros Hq Hb Hrtc Hfin.
  destruct (rtc_part q (part q items) _ _ Hq Hrtc) as [_ Hi].
  { unfold pending, pool.running. simpl. by rewrite !app_nil_r. }
  rewrite <- Hi.
  unfold pool.final, pool.in_flight in Hfin.
  repeat (apply andb_prop in Hfin as [Hfin ?]).
  apply bool_decide_eq_true in Hfin.
  repeat match goal with
         | H : bool_decide _ = true |- _ => apply bool_decide_eq_true in H
         | H : (_ =? _) = true |- _ => apply Nat.eqb_eq in H
         end.
  assert (pool.running σ = []) as Hr by (by destruct (pool.running σ)).
  unfold pending. rewrite Hfin, Hr.
  match goal with H : pool.work_queue σ = [] |- _ => rewrite H end.
  simpl. by rewrite app_nil_r.
Qed.

(** ** The files at the end of a run *)

(** What a file holds depends only on the operations on that file. *)
Lemma fs_after_touches file acts :
  ∀ fs fs',
    fs !! file = fs' !! file →
    fs_after acts fs !! file
    = fs_after (List.filter (touches file) acts) fs' !! file.
Proof.
  induction acts as [|a acts IH]; intros fs fs' Heq; [done |].
  change (fs_after (a :: acts) fs) with (fs_after acts (fs_step fs a)).
  simpl.
  destruct a as [| | | | |p|p data|p| | |]; simpl;
    try (by apply IH);
    (destruct (String.eqb_spec p file) as [-> | Hne];
     [ change (fs_after (?b :: ?l) fs') with (fs_after l (fs_step fs' b))
     | ]);
    apply IH; simpl;
    rewrite ?lookup_insert_eq, ?Heq; try done;
    by rewrite lookup_insert_ne.
Qed.

Lemma busy_part_none {A} q (l : list A) :
  ∀ mk : nat → A → pool.task,
    (∀ i x, l !! i = Some x → List.filter q (pool.t_todo (mk i x)) = []) →
    busy q (imap mk l) = 0 ∧ part q (imap mk l) = [].
Proof.
  induction l as [|x l IH]; intros mk H; [done |].
  rewrite imap_cons, busy_cons. unfold part. simpl.
  rewrite (H 0 x eq_refl). simpl.
  apply (IH (mk ∘ S)). intros i y Hy. by apply (H (S i)).
Qed.

(** Work items built from a list whose keys are pairwise distinct, each
    item touching only what carries its own key: at most one of them has
    actions selected by [q], the one whose key is [key0]. *)
Lemma busy_part_unique {A} q (key : A → string) (key0 : string) (l : list A) :
  ∀ (mk : nat → A → pool.task) i x,
    NoDup (map key l) →
    (∀ j y, key y ≠ key0 → List.filter q (pool.t_todo (mk j y)) = []) →
    l !! i = Some x → key x = key0 →
    busy q (imap mk l) ≤ 1
    ∧ part q (imap mk l) = List.filter q (pool.t_todo (mk i x)).
Proof.
  induction l as [|y l IH]; intros mk i x Hnd Hother Hi Hkey; [done |].
  rewrite imap_cons, busy_cons. unfold part. simpl.
  apply NoDup_cons in Hnd as [Hy Hnd].
  destruct i as [|i]; simpl in Hi.
  - injection Hi as ->.
    destruct (busy_part_none q l (mk ∘ S)) as [Hb Hp].
    { intros j z Hz. apply Hother. intros Hkz. apply Hy.
      rewrite Hkey, <- Hkz. apply list_elem_of_fmap. exists z.
      split; [done |]. by eapply list_elem_of_lookup_2. }
    fold (part q (imap (mk ∘ S) l)). rewrite Hb, Hp, app_nil_r.
    split; [| done]. destruct (List.filter q _); simpl; lia.
  - destruct (IH (mk ∘ S) i x Hnd) as [Hb Hp]; [| done | done |].
    { intros j z Hz. by apply Hother. }
    assert (key y ≠ key0) as Hne.
    { intros Hky. apply Hy. rewrite Hky, <- Hkey.
      apply list_elem_of_fmap. exists x.
      split; [done |]. by eapply list_elem_of_lookup_2. }
    rewrite (Hother 0 y Hne). simpl. split; [done |]. exact Hp.
Qed.

Lemma touches_other file p :
  p ≠ file →
  touches file (AOpen p) = false
  ∧ (∀ data, touches file (AWrite p data) = false)
  ∧ touches file (AClose p) = false.
Proof. intros Hne. simpl. by rewrite (proj2 (String.eqb_neq p file) Hne). Qed.

Lemma touches_same file :
  touches file (AOpen file) = true
  ∧ (∀ data, touches file (AWrite file data) = true)
  ∧ touches file (AClose file) = true.
Proof. simpl. by rewrite String.eqb_refl. Qed.

(** The HTML fetcher touches no file but its own. *)
Lemma http_fetch_touches file get rnd os_open url path :
  joinpath path (basename url) ≠ file →
  List.filter (touches file)
    (PubmedDownloader.download_file get rnd os_open url path).1 = [].
Proof.
  intros Hne. destruct (touches_other file _ Hne) as (Ho & Hw & Hc).
  destruct (attempts_cases get 6) as [Hraise | (k & resp & Hk & Hlt & Hget)].
  - rewrite (http_facts.download_file_exhausted get rnd os_open url path Hraise).
    cbn [fst]. rewrite List.filter_app.
    by rewrite (failed_attempts_filter_nil (touches file)).
  - rewrite (http_facts.download_file_responds get rnd os_open url path k resp
               Hk Hlt Hget).
    cbv zeta.
    destruct (os_open _) as [[]|e]; cbn [fst];
      rewrite !List.filter_app;
      rewrite (failed_attempts_filter_nil (touches file)) by done;
      cbn [List.filter app]; rewrite ?Ho, ?Hw, ?Hc; done.
Qed.

(** An answered url whose file can be opened: open, one write, close. *)
Lemma http_fetch_writes get rnd os_open url path k resp :
  1 ≤ k ≤ 6 → (∀ n, 1 ≤ n < k → is_raise (get n) = true) →
  get k = Return resp →
  os_open (joinpath path (basename url)) = Return tt →
  let file := joinpath path (basename url) in
  List.filter (touches file)
    (PubmedDownloader.download_file get rnd os_open url path).1
  = [AOpen file; AWrite file (content resp); AClose file].
Proof.
  intros Hk Hlt Hget Hopen. cbv zeta.
  destruct (touches_same (joinpath path (basename url))) as (Ho & Hw & Hc).
  rewrite (http_facts.download_file_responds get rnd os_open url path k resp
             Hk Hlt Hget).
  cbv zeta. rewrite Hopen. cbn [fst].
  rewrite !List.filter_app.
  rewrite (failed_attempts_filter_nil (touches _)) by done.
  cbn [List.filter app]. by rewrite Ho, Hw, Hc.
Qed.

(** The FTP fetcher touches no file but its own. *)
Lemma ftp_fetch_touches file s os_open filename self :
  joinpath (FTPDownloader.download_dir self) filename ≠ file →
  List.filter (touches file)
    (FTPDownloader.download_file s os_open filename self).2.1 = [].
Proof.
  intros Hne. destruct (touches_other file _ Hne) as (_ & Hw & _).
  apply String.eqb_neq in Hne.
  unfold_ftp.
  destruct (FTPDownloader.connect s) as [[]|?]; simpl; [| done].
  destruct (FTPDownloader.login s) as [[]|?]; simpl; [| done].
  destruct (FTPDownloader.cwd self) as [dir|]; simpl; [| done].
  destruct (FTPDownloader.chdir s dir) as [[]|?]; simpl; [| done].
  destruct (os_open _) as [[]|?]; simpl; [| done].
  destruct (FTPDownloader.pwd s) as [d|?]; simpl; [| by rewrite !Hne].
  destruct (FTPDownloader.retr s filename) as [blocks [[]|?]]; simpl;
    rewrite ?app_nil_r, <- ?app_assoc;
    rewrite ?List.filter_app, ?(writes_filter (touches file) _ _ Hw);
    simpl; by rewrite !Hne.
Qed.

(** A transfer that gets as far as RETR: open, the blocks, close. *)
Lemma ftp_fetch_writes s os_open filename self dir d blocks r :
  FTPDownloader.cwd self = Some dir →
  FTPDownloader.connect s = Return tt →
  FTPDownloader.login s = Return tt →
  FTPDownloader.chdir s dir = Return tt →
  os_open (joinpath (FTPDownloader.download_dir self) filename) = Return tt →
  FTPDownloader.pwd s = Return d →
  FTPDownloader.retr s filename = (blocks, r) →
  let file := joinpath (FTPDownloader.download_dir self) filename in
  List.filter (touches file)
    (FTPDownloader.download_file s os_open filename self).2.1
  = AOpen file :: map (AWrite file) blocks ++ [AClose file].
Proof.
  intros Hcwd Hc Hl Hd Ho Hp Hr. cbv zeta.
  destruct (touches_same (joinpath (FTPDownloader.download_dir self) filename))
    as (Hto & Htw & Htc).
  rewrite (download_file_ftp s os_open filename self dir d blocks r
             Hcwd Hc Hl Hd Ho Hp Hr).
  cbv zeta. cbn [fst snd].
  rewrite !List.filter_app. cbn [List.filter touches]. 
  fold (touches (joinpath (FTPDownloader.download_dir self) filename)).
  rewrite String.eqb_refl.
  assert (∀ l, List.filter
                 (touches (joinpath (FTPDownloader.download_dir self) filename))
                 (map (AWrite
                         (joinpath (FTPDownloader.download_dir self) filename))
                    l)
               = map (AWrite
                        (joinpath (FTPDownloader.download_dir self) filename)) l)
    as Hw.
  { induction l as [|b l IH]; [done |]. simpl. rewrite String.eqb_refl.
    f_equal. exact IH. }
  rewrite Hw. by destruct r as [[]|e].
Qed.

(** X16: files of different names do not disturb each other.  When the
    filtered urls are saved under pairwise distinct paths, a url that is
    answered within its six attempts and whose file can be opened has, at
    the end of the run and for every interleaving of the threads, exactly
    three operations on its file, open, one write of the response body and
    close, in this order, and the file holds the body. *)
Theorem answered_files_are_complete_after_any_run
    (w : PubmedDownloader.world) (path : string) (threads : Z) (pb : bool)
    (self : PubmedDownloader.t) (i : nat) (url : string) (k : nat)
    (resp : response) :
  (0 < threads)%Z →
  NoDup (map (λ u, joinpath path (basename u))
           (PubmedDownloader.filtered_urls self)) →
  PubmedDownloader.filtered_urls self !! i = Some url →
  1 ≤ k ≤ 6 →
  (∀ n, 1 ≤ n < k → is_raise (PubmedDownloader.get_item w i n) = true) →
  PubmedDownloader.get_item w i k = Return resp →
  PubmedDownloader.os_open w (joinpath path (basename url)) = Return tt →
  let file := joinpath path (basename url) in
  let acts :=
    (PubmedDownloader.download_urls w path (Some threads) (Some pb) self).2.1 in
  List.filter (touches file) acts
  = [AOpen file; AWrite file (content resp); AClose file]
  ∧ ∀ fs, fs_after acts fs !! file = Some (content resp).
Proof.
  intros Hpos Hnd Hi Hk Hlt Hget Hopen file acts.
  assert (0 < Z.to_nat threads) as Hm by lia.
  assert (PubmedDownloader.filtered_urls self ≠ []) as Hne.
  { intros Hnil. by rewrite Hnil in Hi. }
  assert (List.filter (touches file) acts
          = [AOpen file; AWrite file (content resp); AClose file]) as Hacts.
  { unfold acts. rewrite download_urls_returns by done. cbv zeta.
    cbn [fst snd].
    set (items := PubmedDownloader.tasks w
                    (PubmedDownloader.filtered_urls self) path).
    destruct (pool_facts.execute_spec (PubmedDownloader.sched w)
                (Z.to_nat threads) pb items Hm) as (Hfin & _ & _ & Hrtc).
    set (σ := pool.execute (PubmedDownloader.sched w) (Z.to_nat threads) pb
                items) in *.
    destruct (busy_part_unique (touches file)
                (λ u, joinpath path (basename u)) file
                (PubmedDownloader.filtered_urls self)
                (λ j u,
                   let '(acts, r) :=
                     PubmedDownloader.download_file
                       (PubmedDownloader.get_item w j)
                       (PubmedDownloader.random w j)
                       (PubmedDownloader.os_open w) u path
                   in pool.Task j acts r)
                i url Hnd) as [Hb Hp]; [| done | done |].
    { intros j u Hu.
      pose proof (http_fetch_touches file (PubmedDownloader.get_item w j)
                    (PubmedDownloader.random w j) (PubmedDownloader.os_open w)
                    u path Hu) as Hq.
      by destruct (PubmedDownloader.download_file _ _ _ _ _). }
    fold (PubmedDownloader.tasks w (PubmedDownloader.filtered_urls self) path)
      in Hb, Hp.
    fold items in Hb, Hp.
    pose proof (final_trace_part (touches file) (Z.to_nat threads) pb items σ
                  eq_refl Hb Hrtc Hfin) as Htr.
    cbn [List.filter touches]. rewrite List.filter_app, Htr, Hp.
    cbn [List.filter touches]. rewrite app_nil_r.
    pose proof (http_fetch_writes (PubmedDownloader.get_item w i)
                  (PubmedDownloader.random w i) (PubmedDownloader.os_open w)
                  url path k resp Hk Hlt Hget Hopen) as Hq.
    cbv zeta in Hq.
    by destruct (PubmedDownloader.download_file _ _ _ _ _). }
  split; [done |]. intros fs.
  rewrite (fs_after_touches file acts fs fs eq_refl), Hacts.
  unfold fs_after. simpl. rewrite lookup_insert_eq. simpl.
  by rewrite lookup_insert_eq.
Qed.

Lemma answered_files_are_complete_after_any_run_witness :
  fs_after
    (PubmedDownloader.download_urls first_item_fails "out" (Some 2%Z)
       (Some true) two_urls).2.1 ∅
  !! joinpath "out" (basename "http://h/b.xml.gz")
  = Some "body".
Proof.
  refine (proj2 (answered_files_are_complete_after_any_run first_item_fails
                   "out" 2 true two_urls 1 "http://h/b.xml.gz" 1
                   (Response 200 "body") _ _ _ _ _ _ _) ∅).
  - lia.
  - vm_compute. apply NoDup_cons. split; [| apply NoDup_singleton].
    intros Hin%list_elem_of_singleton. discriminate.
  - reflexivity.
  - lia.
  - intros n Hn. lia.
  - reflexivity.
  - reflexivity.
Defined.

(** X17: the same for the FTP variant, where a file is written block by
    block and the names come from the server.  When the filtered names are
    plain file names, without a slash, so that each is saved directly in
    download_dir, and are saved under pairwise distinct paths, a file whose
    session gets as far as the RETR command has, at the end of the run and
    for every interleaving of the threads, its open, the writes of the
    blocks that arrived and its close as its only operations, in this
    order, and holds the blocks one after the other, whether the transfer
    then ended normally or not. *)
Theorem transferred_files_hold_their_blocks_after_any_run
    (w : FTPDownloader.world) (threads : Z) (pb : bool)
    (self : FTPDownloader.t) (i : nat) (name dir d : string)
    (blocks : list string) (r : result unit) :
  (0 < threads)%Z →
  Forall (λ n, has_char "/" n = false) (FTPDownloader.filtered_fileNames self) →
  NoDup (map (joinpath (FTPDownloader.download_dir self))
           (FTPDownloader.filtered_fileNames self)) →
  FTPDownloader.filtered_fileNames self !! i = Some name →
  FTPDownloader.cwd self = Some dir →
  FTPDownloader.connect (FTPDownloader.transfer w i) = Return tt →
  FTPDownloader.login (FTPDownloader.transfer w i) = Return tt →
  FTPDownloader.chdir (FTPDownloader.transfer w i) dir = Return tt →
  FTPDownloader.os_open w (joinpath (FTPDownloader.download_dir self) name)
  = Return tt →
  FTPDownloader.pwd (FTPDownloader.transfer w i) = Return d →
  FTPDownloader.retr (FTPDownloader.transfer w i) name = (blocks, r) →
  let file := joinpath (FTPDownloader.download_dir self) name in
  let acts :=
    (FTPDownloader.download_files w (Some threads) (Some pb) self).2.1 in
  List.filter (touches file) acts
  = AOpen file :: map (AWrite file) blocks ++ [AClose file]
  ∧ ∀ fs, fs_after acts fs !! file = Some (String.concat "" blocks).
Proof.
  intros Hpos _ Hnd Hi Hcwd Hc Hl Hd Hopen Hp Hr file acts.
  assert (0 < Z.to_nat threads) as Hm by lia.
  assert (FTPDownloader.filtered_fileNames self ≠ []) as Hne.
  { intros Hnil. by rewrite Hnil in Hi. }
  assert (List.filter (touches file) acts
          = AOpen file :: map (AWrite file) blocks ++ [AClose file]) as Hacts.
  { unfold acts. rewrite download_files_returns by done. cbv zeta.
    cbn [fst snd].
    set (items := FTPDownloader.tasks w self).
    destruct (pool_facts.execute_spec (FTPDownloader.sched w)
                (Z.to_nat threads) pb items Hm) as (Hfin & _ & _ & Hrtc).
    set (σ := pool.execute (FTPDownloader.sched w) (Z.to_nat threads) pb
                items) in *.
    destruct (busy_part_unique (touches file)
                (joinpath (FTPDownloader.download_dir self)) file
                (FTPDownloader.filtered_fileNames self)
                (λ j fileName,
                   let '(acts, r) :=
                     (FTPDownloader.download_file (FTPDownloader.transfer w j)
                        (FTPDownloader.os_open w) fileName self).2
                   in pool.Task j acts r)
                i name Hnd) as [Hb Hq]; [| done | done |].
    { intros j u Hu.
      pose proof (ftp_fetch_touches file (FTPDownloader.transfer w j)
                    (FTPDownloader.os_open w) u self Hu) as Hq.
      by destruct (FTPDownloader.download_file _ _ _ _).2. }
    fold (FTPDownloader.tasks w self) in Hb, Hq.
    fold items in Hb, Hq.
    pose proof (final_trace_part (touches file) (Z.to_nat threads) pb items σ
                  eq_refl Hb Hrtc Hfin) as Htr.
    cbn [List.filter touches]. rewrite List.filter_app, Htr, Hq.
    cbn [List.filter touches]. rewrite app_nil_r.
    pose proof (ftp_fetch_writes (FTPDownloader.transfer w i)
                  (FTPDownloader.os_open w) name self dir d blocks r
                  Hcwd Hc Hl Hd Hopen Hp Hr) as Hw.
    cbv zeta in Hw.
    by destruct (FTPDownloader.download_file _ _ _ _).2. }
  split; [done |]. intros fs.
  rewrite (fs_after_touches file acts fs fs eq_refl), Hacts.
  change (fs_after (AOpen file :: ?l) fs)
    with (fs_after l (fs_step fs (AOpen file))).
  rewrite fs_after_app.
  change (fs_after [AClose file] ?m) with m.
  rewrite fs_after_writes. simpl. rewrite lookup_insert_eq.
  by destruct blocks.
Qed.

Lemma transferred_files_hold_their_blocks_after_any_run_witness :
  fs_after
    (FTPDownloader.download_files
       (ftp_world (serving []) (λ _, failing_transfer ["ab"; "cd"]))
       (Some 2%Z) (Some true) ftp_self).2.1 ∅
  !! joinpath "out" "f.gz"
  = Some "abcd".
Proof.
  refine (proj2 (transferred_files_hold_their_blocks_after_any_run
                   (ftp_world (serving []) (λ _, failing_transfer ["ab"; "cd"]))
                   2 true ftp_self 0 "f.gz" "/pubmed/baseline/"
                   "/pubmed/baseline" ["ab"; "cd"] (Raise FTPError)
                   _ _ _ _ _ _ _ _ _ _ _) ∅).
  - lia.
  - by repeat constructor.
  - vm_compute. apply NoDup_singleton.
  - reflexivity.
  - reflexivity.
  - reflexivity.
  - reflexivity.
  - reflexivity.
  - reflexivity.
  - reflexivity.
  - reflexivity.
Defined.

(** ** Filtering again, and the order of the filtered names *)

(** X18: filters do not accumulate.  Both filters read the full list found
    by discovery, not the result of an earlier filter: a second call with
    another pattern replaces what the first call kept, so its result is the
    same as if the first call had never been made. *)
Theorem filters_do_not_accumulate
    (urljoin : string → string → string)
    (compile : string → option re.pattern) (r1 r2 : string)
    (p1 p2 : re.pattern) (self : PubmedDownloader.t) (self' : FTPDownloader.t) :
  compile r1 = Some p1 → compile r2 = Some p2 →
  PubmedDownloader.filtered_urls
    (PubmedDownloader.filter_urls urljoin compile r2
       (PubmedDownloader.filter_urls urljoin compile r1 self).1).1
  = PubmedDownloader.filtered_urls
      (PubmedDownloader.filter_urls urljoin compile r2 self).1
  ∧ FTPDownloader.filtered_fileNames
      (FTPDownloader.filter_files compile r2
         (FTPDownloader.filter_files compile r1 self').1).1
    = List.filter (re.match_ p2) (FTPDownloader.all_fileNames self').
Proof.
  intros H1 H2.
  rewrite !(filter_urls_compiled urljoin compile r2 p2 _ H2).
  rewrite (filter_urls_compiled urljoin compile r1 p1 _ H1).
  rewrite (filter_files_compiled compile r2 p2 _ H2).
  rewrite (filter_files_compiled compile r1 p1 _ H1).
  done.
Qed.

Lemma filters_do_not_accumulate_witness :
  PubmedDownloader.filtered_urls
    (PubmedDownloader.filter_urls join_after scenario_patterns "^.*\.xml\.gz$"
       (PubmedDownloader.filter_urls join_after scenario_patterns
          "pubmed23n\d{4}\.xml\.gz$" two_urls).1).1
  = ["http://h/a.xml.gz"; "http://h/b.xml.gz"].
Proof.
  rewrite (proj1 (filters_do_not_accumulate join_after scenario_patterns
                    "pubmed23n\d{4}\.xml\.gz$" "^.*\.xml\.gz$" pubmed23n xml_gz
                    two_urls ftp_self eq_refl eq_refl)).
  reflexivity.
Defined.

Lemma filter_StronglySorted {A} (R : relation A) (f : A → bool) (l : list A) :
  StronglySorted R l → StronglySorted R (List.filter f l).
Proof.
  induction 1 as [|x l _ IH Hx]; simpl; [constructor |].
  destruct (f x); [| done]. constructor; [done |].
  apply Forall_forall. intros y Hy. apply list_elem_of_In, filter_In in Hy.
  rewrite Forall_forall in Hx. apply Hx. apply list_elem_of_In. tauto.
Qed.

(** X19: the FTP items reach the scheduler in ascending order of name.
    After a listing and a filter the kept names are sorted, every earlier
    one below every later one, and they are the same list whatever order
    the server reported the directory in. *)
Theorem ftp_items_are_in_name_order
    (compile : string → option re.pattern) (s : FTPDownloader.session)
    (dir reg_ex : string) (p : re.pattern) (self : FTPDownloader.t)
    (names : list string) :
  FTPDownloader.connect s = Return tt →
  FTPDownloader.login s = Return tt →
  FTPDownloader.chdir s dir = Return tt →
  FTPDownloader.nlst s = Return names →
  compile reg_ex = Some p →
  let kept :=
    FTPDownloader.filtered_fileNames
      (FTPDownloader.filter_files compile reg_ex
         (FTPDownloader.find_files s dir self).1).1 in
  StronglySorted String.le kept
  ∧ (∀ i j n1 n2,
       i < j → kept !! i = Some n1 → kept !! j = Some n2 → String.le n1 n2)
  ∧ (∀ names', names' ≡ₚ names →
       kept = List.filter (re.match_ p) (FTPDownloader.sorted names')).
Proof.
  intros Hc Hl Hd Hn Hp. cbv zeta.
  rewrite (find_files_ok s dir self names Hc Hl Hd Hn). cbv zeta.
  rewrite (filter_files_compiled compile reg_ex p _ Hp). cbv zeta.
  cbn [fst FTPDownloader.filtered_fileNames FTPDownloader.all_fileNames
       FTPDownloader.set_filtered_fileNames FTPDownloader.set_reg_ex
       FTPDownloader.set_all_fileNames FTPDownloader.set_cwd].
  assert (StronglySorted String.le
            (List.filter (re.match_ p) (FTPDownloader.sorted names))) as Hs.
  { apply filter_StronglySorted, Sorted_StronglySorted; [apply _ |].
    apply sorted_Sorted. }
  split; [done |]. split.
  - intros i j n1 n2 Hij Hi Hj.
    revert i j Hij Hi Hj. induction Hs as [|x l _ IH Hx]; intros i j Hij Hi Hj.
    + done.
    + destruct j as [|j]; [lia |]. destruct i as [|i]; simpl in *.
      * injection Hi as ->. rewrite Forall_forall in Hx. apply Hx.
        by eapply list_elem_of_lookup_2.
      * apply (IH i j); [lia | done | done].
  - intros names' Hperm. by rewrite (sorted_order_independent names' names).
Qed.

Lemma ftp_items_are_in_name_order_witness :
  FTPDownloader.filtered_fileNames
    (FTPDownloader.filter_files scenario_patterns "pubmed23n\d{4}\.xml\.gz$"
       (FTPDownloader.find_files
          (listing_session
             ["pubmed23n0002.xml.gz"; "README.txt"; "pubmed23n0001.xml.gz"])
          "/pubmed/baseline/" (FTPDownloader.__init__ "h")).1).1
  = ["pubmed23n0001.xml.gz"; "pubmed23n0002.xml.gz"].
Proof.
  destruct (ftp_items_are_in_name_order scenario_patterns
              (listing_session
                 ["pubmed23n0002.xml.gz"; "README.txt"; "pubmed23n0001.xml.gz"])
              "/pubmed/baseline/" "pubmed23n\d{4}\.xml\.gz$" pubmed23n
              (FTPDownloader.__init__ "h")
              ["pubmed23n0002.xml.gz"; "README.txt"; "pubmed23n0001.xml.gz"]
              eq_refl eq_refl eq_refl eq_refl eq_refl) as (_ & _ & H).
  rewrite (H ["pubmed23n0001.xml.gz"; "pubmed23n0002.xml.gz"; "README.txt"]).
  - vm_compute. reflexivity.
  - solve_Permutation.
Defined.

(** ** The default pattern of the FTP program *)

Lemma at_eol_cons c s i : re.at_eol (String c s) (S i) = re.at_eol s i.
Proof. done. Qed.

(** A pattern without [^] cannot tell where the string begins. *)
Lemma Matches_shift_up c s p i j :
  no_bol p = true → re.Matches s p i j → re.Matches (String c s) p (S i) (S j).
Proof.
  intros Hp H.
  induction H as [i|f i a Hget Hf| |i He|p q i j k _ IH1 _ IH2|p q i j _ IH
                 |p q i j _ IH|p i|p i j k _ IH1 _ IH2]; simpl in Hp.
  - constructor.
  - by econstructor.
  - done.
  - constructor. by rewrite at_eol_cons.
  - apply andb_prop in Hp as [Hp1 Hp2]. econstructor; eauto.
  - apply andb_prop in Hp as [Hp1 Hp2]. apply re.M_alt_l. eauto.
  - apply andb_prop in Hp as [Hp1 Hp2]. apply re.M_alt_r. eauto.
  - constructor.
  - eapply re.M_star_cons; eauto.
Qed.

Lemma Matches_shift_down c s p i' j' :
  no_bol p = true → re.Matches (String c s) p i' j' →
  ∀ i, i' = S i → ∃ j, j' = S j ∧ re.Matches s p i j.
Proof.
  intros Hp H.
  induction H as [i|f i a Hget Hf| |i He|p q i j k _ IH1 _ IH2|p q i j _ IH
                 |p q i j _ IH|p i|p i j k _ IH1 _ IH2];
    intros i0 Hi; simpl in Hp; try subst i.
  - eexists. split; [done | constructor].
  - eexists. split; [done |]. by econstructor.
  - done.
  - eexists. split; [done |]. constructor. by rewrite <- (at_eol_cons c).
  - apply andb_prop in Hp as [Hp1 Hp2].
    destruct (IH1 Hp1 _ eq_refl) as (j1 & -> & H1).
    destruct (IH2 Hp2 _ eq_refl) as (j2 & -> & H2).
    eexists. split; [done |]. by econstructor.
  - apply andb_prop in Hp as [Hp1 Hp2].
    destruct (IH Hp1 _ eq_refl) as (j1 & -> & H1).
    eexists. split; [done |]. by apply re.M_alt_l.
  - apply andb_prop in Hp as [Hp1 Hp2].
    destruct (IH Hp2 _ eq_refl) as (j1 & -> & H1).
    eexists. split; [done |]. by apply re.M_alt_r.
  - eexists. split; [done | constructor].
  - destruct (IH1 Hp _ eq_refl) as (j1 & -> & H1).
    destruct (IH2 Hp _ eq_refl) as (j2 & -> & H2).
    eexists. split; [done |]. by eapply re.M_star_cons.
Qed.

(** Matching one character off the front. *)
Lemma match_peel f q c s :
  no_bol q = true →
  re.match_ (re.Seq (re.Cls f) q) (String c s) = f c && re.match_ q s.
Proof.
  intros Hq. apply eq_true_iff_eq.
  rewrite andb_true_iff, !re_facts.match_spec. split.
  - intros [k H]. inversion H as [| | | |p' q' i' j k' H1 H2| | | |]; subst.
    inversion H1 as [|f' i' c' Hget Hf| | | | | | |]; subst.
    simpl in Hget. injection Hget as <-.
    destruct (Matches_shift_down c s q 1 k Hq H2 0 eq_refl) as (k0 & -> & H0).
    split; [done |]. by exists k0.
  - intros [Hf [k H]]. exists (S k).
    apply (re.M_seq _ _ _ 0 1).
    + by apply (re.M_cls _ f 0 c).
    + by apply Matches_shift_up.
Qed.

Lemma match_nil f q : re.match_ (re.Seq (re.Cls f) q) "" = false.
Proof. done. Qed.

Lemma flat_map_assoc {A B C} (f : A → list B) (g : B → list C) (l : list A) :
  flat_map g (flat_map f l) = flat_map (λ x, flat_map g (f x)) l.
Proof.
  induction l as [|x l IH]; simpl; [done |].
  by rewrite flat_map_app, IH.
Qed.

Lemma match_assoc a b c s :
  re.match_ (re.Seq (re.Seq a b) c) s = re.match_ (re.Seq a (re.Seq b c)) s.
Proof. unfold re.match_. simpl. by rewrite flat_map_assoc. Qed.

Lemma match_eps q s : re.match_ (re.Seq re.Eps q) s = re.match_ q s.
Proof. unfold re.match_. simpl. by rewrite app_nil_r. Qed.

Lemma match_eol s :
  re.match_ re.Eol s = true ↔ s = "" ∨ s = String re.newline "".
Proof.
  unfold re.match_. simpl. unfold re.at_eol. split.
  - destruct s as [|c [|c' s]]; simpl; [by left | | done].
    destruct (Ascii.eqb_spec c re.newline) as [-> |]; [by right | done].
  - by intros [-> | ->].
Qed.

Ltac peel_in H :=
  repeat first
    [ rewrite match_eps in H
    | rewrite match_assoc in H
    | match type of H with
      | re.match_ (re.Seq (re.Cls _) _) ?s = true =>
          let c := fresh "c" in
          let Hc := fresh "Hc" in
          destruct s as [|c s]; [by rewrite match_nil in H |];
          rewrite match_peel in H by done;
          apply andb_prop in H as [Hc H];
          try (apply Ascii.eqb_eq in Hc; subst c)
      end ].

Lemma pubmed23n_spec name :
  re.match_ pubmed23n name = true ↔ baseline_name name.
Proof.
  unfold pubmed23n, baseline_name. cbn [re.Str re.Rep].
  unfold re.Lit, re.Digit. split.
  - intros H. peel_in H.
    apply match_eol in H.
    match goal with
    | H1 : re.is_digit ?a = true, H2 : re.is_digit ?b = true,
      H3 : re.is_digit ?c = true, H4 : re.is_digit ?d = true |- _ =>
        exists a, b, c, d, name
    end.
    repeat split; try done.
  - intros (d1 & d2 & d3 & d4 & tail & H1 & H2 & H3 & H4 & Ht & ->).
    change ("pubmed23n" +:+ ?x)
      with (String "p" (String "u" (String "b" (String "m" (String "e"
             (String "d" (String "2" (String "3" (String "n" x))))))))).
    change (".xml.gz" +:+ tail)
      with (String "." (String "x" (String "m" (String "l" (String "."
             (String "g" (String "z" tail))))))).
    repeat first
      [ rewrite match_eps | rewrite match_assoc
      | rewrite match_peel by done ].
    rewrite H1, H2, H3, H4. simpl. by apply match_eol.
Qed.

Lemma parse_default : re_parse.parse default_reg_ex = Some default_pattern.
Proof. reflexivity. Qed.

Example parse_xml_gz :
  re_parse.parse "^.*\.xml\.gz$"
  = Some (fold_right re.Seq re.Eps
            ([re.Bol; re.Star re.Dot]
             ++ map re.Lit (list_ascii_of_string ".xml.gz") ++ [re.Eol])).
Proof. reflexivity. Qed.

Example parse_outside :
  re_parse.parse "a**" = None ∧ re_parse.parse "(a)" = None
  ∧ re_parse.parse "a{2,3}" = None ∧ re_parse.parse "\w" = None
  ∧ re_parse.parse "*a" = None ∧ re_parse.parse "a*?" = None.
Proof. repeat split. Qed.

Lemma match_seq_eps p s : re.match_ (re.Seq p re.Eps) s = re.match_ p s.
Proof.
  unfold re.match_. simpl.
  by destruct (re.ends p s 0) as [|i l].
Qed.

Lemma default_pattern_spec name :
  re.match_ default_pattern name = true ↔ baseline_name name.
Proof.
  unfold default_pattern, baseline_name.
  cbn [fold_right map app list_ascii_of_string re.Rep].
  unfold re.Lit, re.Digit. split.
  - intros H. peel_in H.
    rewrite match_seq_eps in H. apply match_eol in H.
    match goal with
    | H1 : re.is_digit ?a = true, H2 : re.is_digit ?b = true,
      H3 : re.is_digit ?c = true, H4 : re.is_digit ?d = true |- _ =>
        exists a, b, c, d, name
    end.
    repeat split; try done.
  - intros (d1 & d2 & d3 & d4 & tail & H1 & H2 & H3 & H4 & Ht & ->).
    change ("pubmed23n" +:+ ?x)
      with (String "p" (String "u" (String "b" (String "m" (String "e"
             (String "d" (String "2" (String "3" (String "n" x))))))))).
    change (".xml.gz" +:+ tail)
      with (String "." (String "x" (String "m" (String "l" (String "."
             (String "g" (String "z" tail))))))).
    repeat first
      [ rewrite match_eps | rewrite match_assoc
      | rewrite match_peel by done ].
    rewrite H1, H2, H3, H4, match_seq_eps. simpl. by apply match_eol.
Qed.

(** The scenario's pattern for the default text matches what the parsed
    text matches. *)
Lemma pubmed23n_is_parsed :
  ∃ q, re_parse.parse default_reg_ex = Some q
       ∧ ∀ s, re.match_ q s = re.match_ pubmed23n s.
Proof.
  exists default_pattern. split; [exact parse_default |].
  intros s. apply eq_true_iff_eq.
  by rewrite default_pattern_spec, pubmed23n_spec.
Qed.

(** X20: what the FTP program keeps by default.  The default pattern text
    of main stands for the pattern made of the characters of pubmed23n, four
    digits, the characters of .xml.gz and the end of the string.  Filtering
    with it keeps, among the listed names in ASCII, exactly those that
    consist of pubmed23n, four digits and .xml.gz, with at most a final
    newline after them: the pattern ends in a dollar sign, so companions
    such as pubmed23n0001.xml.gz.md5 are left out, although the match is
    only anchored at the start. *)
Theorem default_pattern_keeps_the_baseline_files
    (self : FTPDownloader.t) (name : string) :
  is_ascii name = true →
  re_parse.parse default_reg_ex = Some default_pattern
  ∧ (name ∈ FTPDownloader.filtered_fileNames
              (FTPDownloader.filter_files re_parse.parse default_reg_ex
                 self).1
     ↔ name ∈ FTPDownloader.all_fileNames self ∧ baseline_name name).
Proof.
  intros _. split; [exact parse_default |].
  rewrite (filter_files_compiled re_parse.parse _ default_pattern self
             parse_default).
  cbv zeta. cbn [fst FTPDownloader.filtered_fileNames
                 FTPDownloader.set_filtered_fileNames].
  rewrite !list_elem_of_In, filter_In, default_pattern_spec. done.
Qed.

Lemma default_pattern_keeps_the_baseline_files_witness :
  "pubmed23n0001.xml.gz"
  ∈ FTPDownloader.filtered_fileNames
      (FTPDownloader.filter_files re_parse.parse default_reg_ex
         (FTPDownloader.Self "h" None
            ["pubmed23n0001.xml.gz"; "pubmed23n0001.xml.gz.md5"] [] ""
            None)).1.
Proof.
  apply (proj2 (default_pattern_keeps_the_baseline_files
                  (FTPDownloader.Self "h" None
                     ["pubmed23n0001.xml.gz"; "pubmed23n0001.xml.gz.md5"] []
                     "" None)
                  "pubmed23n0001.xml.gz" eq_refl)).
  split; [by left |].
  exists "0"%char, "0"%char, "0"%char, "1"%char, "".
  repeat split; try reflexivity. by left.
Defined.
